(** * Booking lifecycle and date-conflict detection

    A shallow embedding of [src/controllers/bookings.controller.ts]
    (functions [getListingTitle], [hasDateConflict], [createBooking] and
    [cancelBooking]) together with the properties the specification states
    about them, followed by [getBookingById] of the same controller and the
    search controller ([matchesQuery], [unifiedSearch], [autocomplete]) with
    further properties of the handlers.

    Layout:
    - [Js]: the JavaScript built-ins the controller relies on (truthiness,
      [Date] comparison, [Date.prototype.toISOString], [String.prototype.split]);
    - the data model ([Booking], request bodies, responses);
    - the effects: a state-and-exception monad over the bookings collection;
    - the controller functions, written in the order of the source;
    - the await-level interleaving semantics of two creation requests;
    - the vocabulary of the specification and the outcomes it describes;
    - lemmas and the theorems for the specification's claims, followed by
      their instances on a concrete environment. *)

From Stdlib Require Import ZArith Lia Ascii.
From stdpp Require Import base decidable option list strings.

Local Open Scope Z_scope.

(** ** JavaScript built-ins *)

Module Js.

(** Truthiness of a [string] property: a property that is missing from the
    request body ([undefined]) and one that holds the empty string are both
    falsy, and the controller only ever tests these properties with [!x].
    Both are represented by the empty string. *)
Definition truthy (s : string) : bool := negb (String.eqb s "").

(** Truthiness of a [number] property: [0] is falsy (as is a missing
    count, represented by [0]). *)
Definition truthy_num (n : Z) : bool := negb (n =? 0).

(** [Array.prototype.includes] on an array of strings. *)
Definition includes (l : list string) (s : string) : bool :=
  existsb (String.eqb s) l.

(** A [Date] object: its time value in milliseconds since the epoch, or
    [None] for an Invalid Date (time value NaN). *)
Definition Date : Type := option Z.

(** [a <= b] on two [Date] objects compares their time values; any
    comparison with NaN is false. *)
Definition Date_le (a b : Date) : bool :=
  match a, b with
  | Some x, Some y => x <=? y
  | _, _ => false
  end.

Definition msPerDay : Z := 86400000.

(** Day number and time within the day of a time value. *)
Definition Day (t : Z) : Z := t / msPerDay.
Definition TimeWithinDay (t : Z) : Z := t mod msPerDay.

(** Proleptic Gregorian calendar date (year, month 1..12, day 1..31) of a
    day number counted from 1970-01-01. *)
Definition civilFromDays (z : Z) : Z * Z * Z :=
  let z := z + 719468 in
  let era := z / 146097 in
  let doe := z - era * 146097 in
  let yoe := (doe - doe / 1460 + doe / 36524 - doe / 146096) / 365 in
  let doy := doe - (365 * yoe + yoe / 4 - yoe / 100) in
  let mp := (5 * doy + 2) / 153 in
  let d := doy - (153 * mp + 2) / 5 + 1 in
  let m := if mp <? 10 then mp + 3 else mp - 9 in
  let y := yoe + era * 400 + (if m <=? 2 then 1 else 0) in
  (y, m, d).

(** Day number of a calendar date (the inverse direction, used by the
    date parser below). *)
Definition daysFromCivil (y m d : Z) : Z :=
  let y := if m <=? 2 then y - 1 else y in
  let era := y / 400 in
  let yoe := y - era * 400 in
  let doy := (153 * (if 2 <? m then m - 3 else m + 9) + 2) / 5 + d - 1 in
  let doe := yoe * 365 + yoe / 4 - yoe / 100 + doy in
  era * 146097 + doe - 719468.

(** Decimal digits. *)
Definition digit (n : Z) : ascii :=
  ascii_of_nat (48 + Z.to_nat (n mod 10)).

Fixpoint digits (width : nat) (n : Z) : string :=
  match width with
  | O => ""
  | S w => digits w (n / 10) +:+ String (digit n) ""
  end.

(** The year of an ISO string: four digits for years 0..9999, otherwise a
    sign and six digits. *)
Definition isoYear (y : Z) : string :=
  if (0 <=? y) && (y <=? 9999) then digits 4 y
  else if y <? 0 then "-" +:+ digits 6 (- y)
  else "+" +:+ digits 6 y.

(** The date component [YYYY-MM-DD] of day number [day]. *)
Definition isoDate (day : Z) : string :=
  let '(y, m, d) := civilFromDays day in
  isoYear y +:+ "-" +:+ digits 2 m +:+ "-" +:+ digits 2 d.

(** The time component [HH:mm:ss.sss] of a time within the day. *)
Definition isoTime (ms : Z) : string :=
  digits 2 (ms / 3600000) +:+ ":" +:+ digits 2 (ms / 60000 mod 60) +:+ ":"
    +:+ digits 2 (ms / 1000 mod 60) +:+ "." +:+ digits 3 (ms mod 1000).

(** [Date.prototype.toISOString] on a valid date. *)
Definition toISOString (t : Z) : string :=
  isoDate (Day t) +:+ "T" +:+ isoTime (TimeWithinDay t) +:+ "Z".

(** [String.prototype.split] with a one-character separator. *)
Fixpoint split (sep : ascii) (s : string) : list string :=
  match s with
  | EmptyString => [EmptyString]
  | String c rest =>
      if Ascii.eqb c sep then EmptyString :: split sep rest
      else match split sep rest with
           | [] => [String c EmptyString]
           | piece :: pieces => String c piece :: pieces
           end
  end.

(** Occurrence of a character in a string. *)
Fixpoint occurs (c : ascii) (s : string) : Prop :=
  match s with
  | EmptyString => False
  | String c' rest => c' = c ∨ occurs c rest
  end.

End Js.

(** ** Data model *)

(** A MongoDB [ObjectId], in its textual form. *)
Definition ObjectId : Type := string.

(** One entry of a validation error list. *)
Record FieldError := mkFieldError { field : string; message : string }.

(** Guest counts.  A missing count is represented by [0], which is falsy as
    well (see [Js.truthy_num]). *)
Record Guests := mkGuests { adults : Z }.

Record GuestDetails := mkGuestDetails { name : string; email : string }.

Record Pricing := mkPricing { total : Z }.

(** Modelled from the spec: the status enumeration of the Booking schema
    ([models/bookings/Booking.model.ts] is not among the sources; the
    controller itself mentions ['pending'], ['cancelled'] and
    ['completed']). *)
Inductive BookingStatus := Pending | Confirmed | Cancelled | Completed.

#[global] Instance BookingStatus_eq_dec : EqDecision BookingStatus.
Proof. solve_decision. Defined.

(** The booking document.  [checkIn] and [checkOut] are stored dates (always
    valid), as time values.  [nights] and [totalGuests] are the two derived
    fields that the schema's pre-save hook fills in; a document that has not
    been saved yet does not have them. *)
Record Booking := mkBooking {
  _id : ObjectId;
  bookingNumber : Z;
  listingType : string;
  listingId : string;
  listingTitle : option string;
  checkIn : Z;
  checkOut : Z;
  guests : option Guests;
  guestDetails : option GuestDetails;
  specialRequests : option string;
  pricing : Pricing;
  status : BookingStatus;
  paymentStatus : string;
  cancellationReason : option string;
  cancelledAt : option Z;
  nights : option Z;
  totalGuests : option Z
}.

(** Assignments to single fields of a document. *)
Definition set_status (v : BookingStatus) (b : Booking) : Booking :=
  let 'mkBooking i n lt li ti ci co g gd sr p _ ps cr ca ng tg := b in
  mkBooking i n lt li ti ci co g gd sr p v ps cr ca ng tg.

Definition set_cancellationReason (v : option string) (b : Booking) : Booking :=
  let 'mkBooking i n lt li ti ci co g gd sr p st ps _ ca ng tg := b in
  mkBooking i n lt li ti ci co g gd sr p st ps v ca ng tg.

Definition set_cancelledAt (v : option Z) (b : Booking) : Booking :=
  let 'mkBooking i n lt li ti ci co g gd sr p st ps cr _ ng tg := b in
  mkBooking i n lt li ti ci co g gd sr p st ps cr v ng tg.

Definition set_nights (v : option Z) (b : Booking) : Booking :=
  let 'mkBooking i n lt li ti ci co g gd sr p st ps cr ca _ tg := b in
  mkBooking i n lt li ti ci co g gd sr p st ps cr ca v tg.

Definition set_totalGuests (v : option Z) (b : Booking) : Booking :=
  let 'mkBooking i n lt li ti ci co g gd sr p st ps cr ca ng _ := b in
  mkBooking i n lt li ti ci co g gd sr p st ps cr ca ng v.

(** The body of [POST /api/bookings].  String properties use the empty
    string for a missing value (see [Js.truthy]); the two object-valued
    properties read through [?.] are optional. *)
Module CreateBookingInput.
Record t := mk {
  listingType : string;
  listingId : string;
  checkIn : string;
  checkOut : string;
  guests : option Guests;
  guestDetails : option GuestDetails;
  specialRequests : option string;
  pricing : Pricing
}.
End CreateBookingInput.

(** The body of [PUT /api/bookings/:id/cancel]. *)
Record CancelBookingInput := mkCancelBookingInput { reason : option string }.

(** The [conflictingBooking] object of the 409 body; [x.split('T')[0]] is an
    array access and so yields an optional string. *)
Module ConflictingBooking.
Record t := mk {
  id : ObjectId;
  checkIn : option string;
  checkOut : option string
}.
End ConflictingBooking.

Record ConflictDetails := mkConflictDetails {
  requestedCheckIn : string;
  requestedCheckOut : string;
  conflictingBooking : ConflictingBooking.t
}.

(** The data object that a successful cancellation reports. *)
Module Cancellation.
Record t := mk {
  _id : ObjectId;
  status : BookingStatus;
  cancellationReason : option string;
  cancelledAt : option Z;
  refundAmount : Z;
  refundStatus : string
}.
End Cancellation.

Inductive Data :=
| BookingData (b : Booking)
| CancellationData (c : Cancellation.t).

(** What a handler writes to [res]: the arguments of the [sendSuccess] or
    [sendError] helper it calls, or the body it passes to
    [res.status(409).json]. *)
Inductive Response :=
| sendSuccess (data : Data) (statusCode : Z) (message : string)
| sendError (message : string) (statusCode : Z) (errors : option (list FieldError))
| json (statusCode : Z) (success : bool) (message : string) (details : ConflictDetails).

(** ** Effects *)

(** Errors that an awaited persistence call can reject with.  The handlers
    only distinguish Mongoose's [ValidationError] from everything else. *)
Inductive Exn :=
| CastError
| ValidationError (errors : list FieldError)
| MongoError.

(** Outcome of [Model.findById(id).select(label)] on a listing store: the
    promise rejects, resolves to [null], or resolves to a document whose
    selected label may itself be missing. *)
Inductive Lookup :=
| Rejects (e : Exn)
| NoDocument
| Document (label : option string).

(** The collaborators of the controller that are not part of the sources:
    the [Date] parser of the JavaScript engine, the two listing stores, and
    the validators and the pre-save hook of the Booking schema. *)
Record Env := mkEnv {
  Date_parse : string → Js.Date;
  HomestayModel_findById : string → Lookup;
  GuideModel_findById : string → Lookup;
  schema_errors : Booking → list FieldError;
  hook_nights : Z → Z → Z;
  hook_totalGuests : option Guests → Z
}.

(** The mutable state: the bookings collection in insertion order and the
    durable counter behind [getNextBookingNumber]. *)
Record World := mkWorld { bookings : list Booking; counter : Z }.

Inductive Result (A : Type) :=
| Return (a : A)
| Throw (e : Exn).
Arguments Return {A} a.
Arguments Throw {A} e.

(** An asynchronous computation: it may change the world and either
    resolves or rejects. *)
Definition M (A : Type) : Type := World → Result A * World.

#[global] Instance M_ret : MRet M := λ A a w, (Return a, w).

#[global] Instance M_bind : MBind M := λ A B f m w,
  match m w with
  | (Return a, w') => f a w'
  | (Throw e, w') => (Throw e, w')
  end.

Definition throw {A} (e : Exn) : M A := λ w, (Throw e, w).

Definition try_catch {A} (body : M A) (handler : Exn → M A) : M A := λ w,
  match body w with
  | (Throw e, w') => handler e w'
  | resolved => resolved
  end.

Definition push {A} (l : list A) (x : A) : list A := l ++ [x].

(** An [async] function body: it finishes with a value, or it throws, or it
    is suspended at an [await] of a persistence call with the rest of the
    body as the continuation, or it is a [try]/[catch] statement.  Code
    between two awaits runs without interruption; other requests can only
    run while the function is suspended. *)
Inductive Task (A : Type) : Type :=
| Finish (a : A)
| Reject (e : Exn)
| Await {B : Type} (op : M B) (k : B → Task A)
| TryCatch (body : Task A) (handler : Exn → Task A).
Arguments Finish {A} a.
Arguments Reject {A} e.
Arguments Await {A B} op k.
Arguments TryCatch {A} body handler.

Notation "x ← 'await' op ; k" := (Await op (λ x, k))
  (at level 20, op at level 100, k at level 200, only parsing).

(** Running an async function to completion with no other request in
    between. *)
Fixpoint run {A} (t : Task A) : M A :=
  match t with
  | Finish a => mret a
  | Reject e => throw e
  | Await op k => b ← op; run (k b)
  | TryCatch body handler => try_catch (run body) (λ e, run (handler e))
  end.

(** Running an async function up to and including its next [await]. *)
Fixpoint step {A} (t : Task A) : M (Task A) :=
  match t with
  | Finish a => mret (Finish a)
  | Reject e => throw e
  | Await op k => b ← op; mret (k b)
  | TryCatch body handler => λ w,
      match step body w with
      | (Return (Finish a), w') => (Return (Finish a), w')
      | (Return body', w') => (Return (TryCatch body' handler), w')
      | (Throw e, w') => (Return (handler e), w')
      end
  end.

(** ** The persistence layer *)

(** [Model.findOne(query)]: the first stored document that satisfies the
    query. *)
Definition findOne (query : Booking → bool) : M (option Booking) := λ w,
  (Return (List.find query (bookings w)), w).

(** [Model.findById(id)] for an id that can be cast to an [ObjectId].  (For
    a text that cannot, Mongoose rejects with a [CastError]; such ids are
    not modelled.) *)
Definition findById (id : ObjectId) : M (option Booking) :=
  findOne (λ b, String.eqb (_id b) id).

#[global] Instance Guests_eq_dec : EqDecision Guests.
Proof. solve_decision. Defined.

#[global] Instance GuestDetails_eq_dec : EqDecision GuestDetails.
Proof. solve_decision. Defined.

#[global] Instance Pricing_eq_dec : EqDecision Pricing.
Proof. solve_decision. Defined.

(** A document that came from a query remembers the values it was loaded
    with, and Mongoose marks a path as modified only when it is assigned a
    value that differs from the loaded one.  [modified loaded current
    stored] is the value of one path after the update that [doc.save()]
    sends: the current value when the path was modified, and otherwise what
    the store holds, which another request may have written since. *)
Definition modified {A} `{EqDecision A} (loaded current stored : A) : A :=
  if decide (current = loaded) then stored else current.

(** The stored document after that update.  No handler assigns inside
    [guests], [guestDetails] or [pricing], so each of them is taken as one
    path. *)
Definition writeModified (loaded doc stored : Booking) : Booking :=
  {| _id := _id stored;
     bookingNumber :=
       modified (bookingNumber loaded) (bookingNumber doc) (bookingNumber stored);
     listingType := modified (listingType loaded) (listingType doc) (listingType stored);
     listingId := modified (listingId loaded) (listingId doc) (listingId stored);
     listingTitle := modified (listingTitle loaded) (listingTitle doc) (listingTitle stored);
     checkIn := modified (checkIn loaded) (checkIn doc) (checkIn stored);
     checkOut := modified (checkOut loaded) (checkOut doc) (checkOut stored);
     guests := modified (guests loaded) (guests doc) (guests stored);
     guestDetails := modified (guestDetails loaded) (guestDetails doc) (guestDetails stored);
     specialRequests :=
       modified (specialRequests loaded) (specialRequests doc) (specialRequests stored);
     pricing := modified (pricing loaded) (pricing doc) (pricing stored);
     status := modified (status loaded) (status doc) (status stored);
     paymentStatus :=
       modified (paymentStatus loaded) (paymentStatus doc) (paymentStatus stored);
     cancellationReason :=
       modified (cancellationReason loaded) (cancellationReason doc)
         (cancellationReason stored);
     cancelledAt := modified (cancelledAt loaded) (cancelledAt doc) (cancelledAt stored);
     nights := modified (nights loaded) (nights doc) (nights stored);
     totalGuests := modified (totalGuests loaded) (totalGuests doc) (totalGuests stored) |}.

(** The write of [doc.save()] for a document that came from a query: the
    modified paths are set in the stored document with that [_id]. *)
Definition updateOne (loaded doc : Booking) (bs : list Booking) : list Booking :=
  match list_find (λ b, _id b = _id doc) bs with
  | Some (i, stored) => <[i := writeModified loaded doc stored]> bs
  | None => bs
  end.

(** Modelled from the spec: [getNextBookingNumber] of
    [models/counters/Counter.model.ts], which is not among the sources.  It
    increments the durable counter and returns the new value, which is
    therefore greater than every value returned before. *)
Definition getNextBookingNumber : M Z := λ w,
  let next := counter w + 1 in
  (Return next, mkWorld (bookings w) next).

Definition quote (s : string) : string :=
  String "034" (s +:+ String "034" EmptyString).

Section Controller.
Context (env : Env).

(** Modelled from the spec: the pre-save hook of the Booking schema, which
    derives [nights] from the two dates and [totalGuests] from the guest
    counts.  How it rounds and what it sums is left to [env]. *)
Definition preSave (doc : Booking) : Booking :=
  set_totalGuests (Some (hook_totalGuests env (guests doc)))
    (set_nights (Some (hook_nights env (checkIn doc) (checkOut doc))) doc).

(** [doc.save()].  Mongoose validates the document against the schema and
    rejects with a [ValidationError] when a validator fails; otherwise the
    pre-save hook runs and the document is written.  [loaded] is what the
    document remembers of the query it came from: nothing for a document
    built with [new BookingModel] ([isNew]), which is inserted; the loaded
    values for a document that a query returned, whose modified paths are
    set in its stored version. *)
Definition save (loaded : option Booking) (doc : Booking) : M Booking := λ w,
  match schema_errors env doc with
  | [] =>
      let doc := preSave doc in
      (Return doc,
       mkWorld (match loaded with
                | None => bookings w ++ [doc]
                | Some loaded => updateOne loaded doc (bookings w)
                end)
               (counter w))
  | errs => (Throw (ValidationError errs), w)
  end.

(** [new BookingModel({...})] as [createBooking] calls it: the document gets
    a fresh [_id] (here [oid]); the derived fields are not set yet. *)
Definition BookingModel_new (oid : ObjectId) (bookingNumber : Z)
    (input : CreateBookingInput.t) (listingTitle : option string)
    (checkInDate checkOutDate : Z) : Booking :=
  {| _id := oid;
     bookingNumber := bookingNumber;
     listingType := CreateBookingInput.listingType input;
     listingId := CreateBookingInput.listingId input;
     listingTitle := listingTitle;
     checkIn := checkInDate;
     checkOut := checkOutDate;
     guests := CreateBookingInput.guests input;
     guestDetails := CreateBookingInput.guestDetails input;
     specialRequests := CreateBookingInput.specialRequests input;
     pricing := CreateBookingInput.pricing input;
     status := Pending;
     paymentStatus := "pending";
     cancellationReason := None;
     cancelledAt := None;
     nights := None;
     totalGuests := None |}.

(** A listing lookup as an awaited call. *)
Definition awaitLookup (l : Lookup) : M (option (option string)) :=
  match l with
  | Rejects e => throw e
  | NoDocument => mret None
  | Document label => mret (Some label)
  end.

(** ** The controller *)

(** Gets the listing title based on type and ID. *)
Definition getListingTitle (listingType listingId : string) : M (option string) :=
  try_catch
    (if String.eqb listingType "homestay" then
       homestay ← awaitLookup (HomestayModel_findById env listingId);
       mret (homestay ≫= id)
     else if String.eqb listingType "guide" then
       guide ← awaitLookup (GuideModel_findById env listingId);
       mret (guide ≫= id)
     else mret None)
    (λ _, mret None).

(** Checks if dates conflict with existing bookings.  The primed parameters
    are the source's [listingId], [checkIn] and [checkOut]. *)
Definition hasDateConflict (listingId' : string) (checkIn' checkOut' : Z)
    (excludeBookingId : option string) : M (option Booking) :=
  let query : Booking → bool := λ b,
    String.eqb (listingId b) listingId'
    && negb (bool_decide (status b = Cancelled))
    && ((checkIn b <? checkOut') && (checkOut b >? checkIn')) in
  let query : Booking → bool :=
    match excludeBookingId with
    | Some e =>
        if Js.truthy e then λ b, query b && negb (String.eqb (_id b) e) else query
    | None => query
    end in
  findOne query.

(** The block under [// Basic validation] of [createBooking] (lines 146 to
    167 of the source): every check runs and pushes its own entry. *)
Definition basicValidation (input : CreateBookingInput.t) : list FieldError :=
  let errors : list FieldError := [] in
  let errors :=
    if negb (Js.truthy (CreateBookingInput.listingType input))
       || negb (Js.includes ["homestay"; "guide"] (CreateBookingInput.listingType input))
    then push errors (mkFieldError "listingType"
           ("Listing type must be " +:+ quote "homestay" +:+ " or " +:+ quote "guide"))
    else errors in
  let errors :=
    if negb (Js.truthy (CreateBookingInput.listingId input))
    then push errors (mkFieldError "listingId" "Listing ID is required")
    else errors in
  let errors :=
    if negb (Js.truthy (CreateBookingInput.checkIn input))
    then push errors (mkFieldError "checkIn" "Check-in date is required")
    else errors in
  let errors :=
    if negb (Js.truthy (CreateBookingInput.checkOut input))
    then push errors (mkFieldError "checkOut" "Check-out date is required")
    else errors in
  let errors :=
    if match CreateBookingInput.guests input with
       | Some g => negb (Js.truthy_num (adults g)) || (adults g <? 1)
       | None => true
       end
    then push errors (mkFieldError "guests.adults" "At least 1 adult guest is required")
    else errors in
  let errors :=
    if match CreateBookingInput.guestDetails input with
       | Some gd => negb (Js.truthy (name gd))
       | None => true
       end
    then push errors (mkFieldError "guestDetails.name" "Guest name is required")
    else errors in
  let errors :=
    if match CreateBookingInput.guestDetails input with
       | Some gd => negb (Js.truthy (email gd))
       | None => true
       end
    then push errors (mkFieldError "guestDetails.email" "Guest email is required")
    else errors in
  errors.

(** POST /api/bookings *)
Definition createBooking (now : Z) (oid : ObjectId) (input : CreateBookingInput.t)
    : Task Response :=
  TryCatch
    ((* Basic validation *)
     let errors := basicValidation input in
     if (0 <? length errors)%nat then
       Finish (sendError "Validation failed" 400 (Some errors))
     else
     let checkInDate := Date_parse env (CreateBookingInput.checkIn input) in
     let checkOutDate := Date_parse env (CreateBookingInput.checkOut input) in
     (* Validate dates *)
     if Js.Date_le checkInDate (Some now) then
       Finish (sendError "Validation failed" 400
               (Some [mkFieldError "checkIn" "Check-in date must be in the future"]))
     else if Js.Date_le checkOutDate checkInDate then
       Finish (sendError "Validation failed" 400
               (Some [mkFieldError "checkOut" "Check-out date must be after check-in date"]))
     else
     (* An Invalid Date passes both comparisons above, every comparison with
        NaN being false; Mongoose then refuses to cast it in the query of
        hasDateConflict and the call rejects with a CastError. *)
     match checkInDate, checkOutDate with
     | Some checkInDate, Some checkOutDate =>
         (* Check for date conflicts *)
         conflictingBooking ← await
           hasDateConflict (CreateBookingInput.listingId input) checkInDate checkOutDate None;
         match conflictingBooking with
         | Some conflictingBooking =>
             Finish (json 409 false "The selected dates are not available"
               {| requestedCheckIn := CreateBookingInput.checkIn input;
                  requestedCheckOut := CreateBookingInput.checkOut input;
                  conflictingBooking :=
                    {| ConflictingBooking.id := _id conflictingBooking;
                       ConflictingBooking.checkIn :=
                         Js.split "T" (Js.toISOString (checkIn conflictingBooking)) !! 0%nat;
                       ConflictingBooking.checkOut :=
                         Js.split "T" (Js.toISOString (checkOut conflictingBooking)) !! 0%nat
                    |} |})
         | None =>
             (* Get listing title and booking number (Promise.all starts both
                calls; neither touches the bookings collection) *)
             listingTitle ← await getListingTitle (CreateBookingInput.listingType input)
                                            (CreateBookingInput.listingId input);
             bookingNumber ← await getNextBookingNumber;
             (* Create new booking document *)
             let newBooking :=
               BookingModel_new oid bookingNumber input listingTitle checkInDate checkOutDate in
             (* Save to database (pre-save hook calculates nights and total guests) *)
             newBooking ← await save None newBooking;
             Finish (sendSuccess (BookingData newBooking) 201 "Booking created successfully")
         end
     | _, _ => Reject CastError
     end)
    (λ error,
       match error with
       | ValidationError validationErrors =>
           Finish (sendError "Validation failed" 400 (Some validationErrors))
       | _ => Finish (sendError "Failed to create booking" 500 None)
       end).

(** PUT /api/bookings/:id/cancel *)
Definition cancelBooking (now : Z) (id : ObjectId) (input : CancelBookingInput)
    : Task Response :=
  TryCatch
    (booking ← await findById id;
     match booking with
     | None => Finish (sendError "Booking not found" 404 None)
     | Some booking =>
         if bool_decide (status booking = Cancelled) then
           Finish (sendError "This booking is already cancelled" 400 None)
         else if bool_decide (status booking = Completed) then
           Finish (sendError "Cannot cancel a completed booking" 400 None)
         else
           (* the document keeps the values it was loaded with *)
           let loaded := booking in
           let booking := set_status Cancelled booking in
           let booking := set_cancellationReason (reason input) booking in
           let booking := set_cancelledAt (Some now) booking in
           booking ← await save (Some loaded) booking;
           Finish (sendSuccess
                   (CancellationData
                      {| Cancellation._id := _id booking;
                         Cancellation.status := status booking;
                         Cancellation.cancellationReason := cancellationReason booking;
                         Cancellation.cancelledAt := cancelledAt booking;
                         Cancellation.refundAmount := total (pricing booking);
                         Cancellation.refundStatus := "pending" |})
                   200 "Booking cancelled successfully")
     end)
    (λ _, Finish (sendError "Failed to cancel booking" 500 None)).

End Controller.

(** ** Sequences and interleavings of requests *)

Inductive Op :=
| CreateReq (now : Z) (oid : ObjectId) (input : CreateBookingInput.t)
| CancelReq (now : Z) (id : ObjectId) (input : CancelBookingInput).

Definition handler (env : Env) (op : Op) : Task Response :=
  match op with
  | CreateReq now oid input => createBooking env now oid input
  | CancelReq now id input => cancelBooking env now id input
  end.

(** The requests of [ops] served one after the other. *)
Fixpoint serve (env : Env) (ops : list Op) (w : World) : World :=
  match ops with
  | [] => w
  | op :: ops => serve env ops (snd (run (handler env op) w))
  end.

(** Two requests in flight.  The schedule says which of them the event loop
    resumes next; a resumed request runs up to and including its next await. *)
Inductive Turn := First | Second.

Definition advance {A} (t : Task A) (w : World) : Task A * World :=
  match step t w with
  | (Return t', w') => (t', w')
  | (Throw e, w') => (Reject e, w')
  end.

(** [n] resumptions of one request in a row. *)
Fixpoint advances {A} (n : nat) (t : Task A) (w : World) : Task A * World :=
  match n with
  | O => (t, w)
  | S n => let '(t', w') := advance t w in advances n t' w'
  end.

Fixpoint interleave {A} (schedule : list Turn) (t1 t2 : Task A) (w : World)
    : Task A * Task A * World :=
  match schedule with
  | [] => (t1, t2, w)
  | First :: schedule =>
      let '(t1', w') := advance t1 w in interleave schedule t1' t2 w'
  | Second :: schedule =>
      let '(t2', w') := advance t2 w in interleave schedule t1 t2' w'
  end.

(** ** Vocabulary of the specification *)

(** A booking is active unless it is cancelled. *)
Definition active (b : Booking) : Prop := status b ≠ Cancelled.

(** The half-open stay [[checkIn, checkOut)] of a booking, as a set of
    instants. *)
Definition inStay (b : Booking) (t : Z) : Prop := checkIn b ≤ t < checkOut b.

Definition disjointStays (a b : Booking) : Prop :=
  ∀ t : Z, ¬ (inStay a t ∧ inStay b t).

(** The central invariant: two different active bookings of one listing
    never share an instant. *)
Definition NoDoubleBooking (bs : list Booking) : Prop :=
  ∀ (i j : nat) (a b : Booking),
    i ≠ j → bs !! i = Some a → bs !! j = Some b →
    listingId a = listingId b → active a → active b → disjointStays a b.

(** The conflict test of the specification for a candidate range [[c, d)]:
    an active booking of the listing, other than the excluded one when a
    (non-empty) id to exclude is supplied, whose range [[a, b)] has [a < d]
    and [b > c]. *)
Definition conflictsWith (listing : string) (c d : Z) (exclude : option string)
    (b : Booking) : Prop :=
  listingId b = listing ∧ status b ≠ Cancelled
  ∧ (∀ e, exclude = Some e → e ≠ "" → _id b ≠ e)
  ∧ checkIn b < d ∧ checkOut b > c.

(** The query of [hasDateConflict] as one predicate on stored documents. *)
Definition conflictQuery (listing : string) (c d : Z) (exclude : option string)
    (b : Booking) : bool :=
  let base :=
    String.eqb (listingId b) listing
    && negb (bool_decide (status b = Cancelled))
    && ((checkIn b <? d) && (checkOut b >? c)) in
  match exclude with
  | Some e => if Js.truthy e then base && negb (String.eqb (_id b) e) else base
  | None => base
  end.

(** The seven field checks of the first validation phase. *)
Inductive FieldCheck :=
| ListingTypeCheck | ListingIdCheck | CheckInCheck | CheckOutCheck
| AdultsCheck | GuestNameCheck | GuestEmailCheck.

Definition fieldChecks : list FieldCheck :=
  [ListingTypeCheck; ListingIdCheck; CheckInCheck; CheckOutCheck;
   AdultsCheck; GuestNameCheck; GuestEmailCheck].

(** What each check requires of the request body. *)
Definition satisfies (input : CreateBookingInput.t) (c : FieldCheck) : Prop :=
  match c with
  | ListingTypeCheck =>
      CreateBookingInput.listingType input = "homestay"
      ∨ CreateBookingInput.listingType input = "guide"
  | ListingIdCheck => CreateBookingInput.listingId input ≠ ""
  | CheckInCheck => CreateBookingInput.checkIn input ≠ ""
  | CheckOutCheck => CreateBookingInput.checkOut input ≠ ""
  | AdultsCheck => ∃ g, CreateBookingInput.guests input = Some g ∧ 1 ≤ adults g
  | GuestNameCheck =>
      ∃ gd, CreateBookingInput.guestDetails input = Some gd ∧ name gd ≠ ""
  | GuestEmailCheck =>
      ∃ gd, CreateBookingInput.guestDetails input = Some gd ∧ email gd ≠ ""
  end.

(** The error entry that reports a failed check. *)
Definition errorOf (c : FieldCheck) : FieldError :=
  match c with
  | ListingTypeCheck =>
      mkFieldError "listingType"
        ("Listing type must be " +:+ quote "homestay" +:+ " or " +:+ quote "guide")
  | ListingIdCheck => mkFieldError "listingId" "Listing ID is required"
  | CheckInCheck => mkFieldError "checkIn" "Check-in date is required"
  | CheckOutCheck => mkFieldError "checkOut" "Check-out date is required"
  | AdultsCheck => mkFieldError "guests.adults" "At least 1 adult guest is required"
  | GuestNameCheck => mkFieldError "guestDetails.name" "Guest name is required"
  | GuestEmailCheck => mkFieldError "guestDetails.email" "Guest email is required"
  end.

(** The two errors of the second phase. *)
Definition checkInNotFuture : FieldError :=
  mkFieldError "checkIn" "Check-in date must be in the future".

Definition checkOutNotAfter : FieldError :=
  mkFieldError "checkOut" "Check-out date must be after check-in date".

(** The listing store that the title resolver consults, if any, and what it
    answers. *)
Definition listingLookup (env : Env) (listingType listingId : string) : option Lookup :=
  if decide (listingType = "homestay") then Some (HomestayModel_findById env listingId)
  else if decide (listingType = "guide") then Some (GuideModel_findById env listingId)
  else None.

(** The title that a best-effort resolution yields: the label of the
    document found, and nothing in every other case. *)
Definition resolvedTitle (env : Env) (listingType listingId : string) : option string :=
  match listingLookup env listingType listingId with
  | Some (Document (Some title)) => Some title
  | _ => None
  end.

(** The three assignments of a cancellation. *)
Definition withCancellation (now : Z) (input : CancelBookingInput) (b : Booking) : Booking :=
  set_cancelledAt (Some now) (set_cancellationReason (reason input) (set_status Cancelled b)).

(** The title lookup fails or finds nothing: the listing type is unknown (no
    store is consulted), the store rejects, or it has no such document. *)
Definition titleLookupFails (env : Env) (listingType listingId : string) : Prop :=
  match listingLookup env listingType listingId with
  | None | Some (Rejects _) | Some NoDocument => True
  | Some (Document _) => False
  end.

(** A response that reports a created booking. *)
Definition created (r : Response) : Prop :=
  ∃ b, r = sendSuccess (BookingData b) 201 "Booking created successfully".

(** A document as [save] stores it: its derived fields are those of the hook. *)
Definition saved (env : Env) (b : Booking) : Prop := preSave env b = b.

(** A text is at calendar-day precision when it is the [YYYY-MM-DD]
    rendering of some day. *)
Definition calendarDay (s : string) : Prop := ∃ day, s = Js.isoDate day.

#[global] Instance satisfies_dec input c : Decision (satisfies input c).
Proof.
  destruct c; simpl; try apply _.
  - destruct (CreateBookingInput.guests input) as [g|].
    + destruct (decide (1 ≤ adults g)); [left; eauto|right; intros (? & [= <-] & ?); done].
    + right; intros (? & [=] & ?).
  - destruct (CreateBookingInput.guestDetails input) as [gd|].
    + destruct (decide (name gd ≠ "")); [left; eauto|right; intros (? & [= <-] & ?); done].
    + right; intros (? & [=] & ?).
  - destruct (CreateBookingInput.guestDetails input) as [gd|].
    + destruct (decide (email gd ≠ "")); [left; eauto|right; intros (? & [= <-] & ?); done].
    + right; intros (? & [=] & ?).
Defined.

(** The full list of entries for the checks that a request body fails, in
    the order of the checks. *)
Definition fieldErrors (input : CreateBookingInput.t) : list FieldError :=
  errorOf <$> filter (λ c, ¬ satisfies input c) fieldChecks.

(** The ways in which a creation request can end, in the vocabulary of the
    specification (section 4.3), as a relation between the world before,
    the response and the world after.  [createBooking_outcome] below shows
    that the controller always ends in one of them. *)
Inductive CreateOutcome (env : Env) (now : Z) (oid : ObjectId)
    (input : CreateBookingInput.t) (w : World) : Response → World → Prop :=
| FieldsRejected :
    fieldErrors input ≠ [] →
    CreateOutcome env now oid input w
      (sendError "Validation failed" 400 (Some (fieldErrors input))) w
| CheckInRejected ci :
    (∀ c, satisfies input c) →
    Date_parse env (CreateBookingInput.checkIn input) = Some ci →
    ci ≤ now →
    CreateOutcome env now oid input w
      (sendError "Validation failed" 400 (Some [checkInNotFuture])) w
| CheckOutRejected ci co :
    (∀ c, satisfies input c) →
    Date_parse env (CreateBookingInput.checkIn input) = Some ci →
    Date_parse env (CreateBookingInput.checkOut input) = Some co →
    now < ci → co ≤ ci →
    CreateOutcome env now oid input w
      (sendError "Validation failed" 400 (Some [checkOutNotAfter])) w
| DatesUnparseable :
    (∀ c, satisfies input c) →
    (∀ ci, Date_parse env (CreateBookingInput.checkIn input) = Some ci → now < ci) →
    Date_parse env (CreateBookingInput.checkIn input) = None
    ∨ Date_parse env (CreateBookingInput.checkOut input) = None →
    CreateOutcome env now oid input w
      (sendError "Failed to create booking" 500 None) w
| ConflictFound ci co b :
    (∀ c, satisfies input c) →
    Date_parse env (CreateBookingInput.checkIn input) = Some ci →
    Date_parse env (CreateBookingInput.checkOut input) = Some co →
    now < ci → ci < co →
    b ∈ bookings w →
    conflictsWith (CreateBookingInput.listingId input) ci co None b →
    CreateOutcome env now oid input w
      (json 409 false "The selected dates are not available"
         {| requestedCheckIn := CreateBookingInput.checkIn input;
            requestedCheckOut := CreateBookingInput.checkOut input;
            conflictingBooking :=
              {| ConflictingBooking.id := _id b;
                 ConflictingBooking.checkIn := Some (Js.isoDate (Js.Day (checkIn b)));
                 ConflictingBooking.checkOut := Some (Js.isoDate (Js.Day (checkOut b))) |} |})
      w
| SchemaRejected ci co doc :
    (∀ c, satisfies input c) →
    Date_parse env (CreateBookingInput.checkIn input) = Some ci →
    Date_parse env (CreateBookingInput.checkOut input) = Some co →
    now < ci → ci < co →
    Forall (λ b, ¬ conflictsWith (CreateBookingInput.listingId input) ci co None b)
           (bookings w) →
    doc = BookingModel_new oid (counter w + 1) input
            (resolvedTitle env (CreateBookingInput.listingType input)
                               (CreateBookingInput.listingId input)) ci co →
    schema_errors env doc ≠ [] →
    CreateOutcome env now oid input w
      (sendError "Validation failed" 400 (Some (schema_errors env doc)))
      (mkWorld (bookings w) (counter w + 1))
| Created ci co doc :
    (∀ c, satisfies input c) →
    Date_parse env (CreateBookingInput.checkIn input) = Some ci →
    Date_parse env (CreateBookingInput.checkOut input) = Some co →
    now < ci → ci < co →
    Forall (λ b, ¬ conflictsWith (CreateBookingInput.listingId input) ci co None b)
           (bookings w) →
    doc = BookingModel_new oid (counter w + 1) input
            (resolvedTitle env (CreateBookingInput.listingType input)
                               (CreateBookingInput.listingId input)) ci co →
    schema_errors env doc = [] →
    CreateOutcome env now oid input w
      (sendSuccess (BookingData (preSave env doc)) 201 "Booking created successfully")
      (mkWorld (bookings w ++ [preSave env doc]) (counter w + 1)).

(** ** Reading bookings *)

(** What a handler passes to the [sendSuccess] or [sendError] helper when it
    may leave out the optional status code and message; a left-out argument
    is [None] (the helper, which is not part of the sources, then applies
    its default). *)
Module Reply.
Inductive t (D : Type) : Type :=
| success (data : D) (statusCode : option Z) (message : option string)
| error (message : string) (statusCode : Z) (errors : option (list FieldError)).
Arguments success {D} data statusCode message.
Arguments error {D} message statusCode errors.
End Reply.

(** GET /api/bookings/:id.  The store of this model answers every query, so
    the catch-all branch, kept as in the source, is taken by no run. *)
Definition getBookingById (id : ObjectId) : Task (Reply.t Booking) :=
  TryCatch
    (booking ← await findById id;
     match booking with
     | None => Finish (Reply.error "Booking not found" 404 None)
     | Some booking => Finish (Reply.success booking None None)
     end)
    (λ _, Finish (Reply.error "Failed to fetch booking" 500 None)).

(** The ids of the stored bookings are pairwise different, as MongoDB's
    unique index on [_id] has it. *)
Definition uniqueIds (bs : list Booking) : Prop := NoDup (_id <$> bs).

(** The fields of a booking that no handler ever assigns after creation. *)
Definition sameIdentity (a b : Booking) : Prop :=
  _id a = _id b
  ∧ bookingNumber a = bookingNumber b
  ∧ listingType a = listingType b
  ∧ listingId a = listingId b
  ∧ listingTitle a = listingTitle b
  ∧ checkIn a = checkIn b
  ∧ checkOut a = checkOut b
  ∧ guests a = guests b
  ∧ guestDetails a = guestDetails b
  ∧ specialRequests a = specialRequests b
  ∧ pricing a = pricing b
  ∧ paymentStatus a = paymentStatus b.

(** One step of a booking's life as the handlers allow it: it stays in its
    status, or it goes from pending or confirmed to cancelled. *)
Definition statusStep (before after : BookingStatus) : Prop :=
  after = before ∨ (after = Cancelled ∧ (before = Pending ∨ before = Confirmed)).

(** The booking numbers in the store are pairwise different and none is
    ahead of the counter. *)
Definition numbered (w : World) : Prop :=
  NoDup (bookingNumber <$> bookings w)
  ∧ Forall (λ b, bookingNumber b ≤ counter w) (bookings w).

(** ** Search: more JavaScript built-ins *)

Module JsString.

(** [String.prototype.startsWith]. *)
Fixpoint startsWith (s sub : string) {struct sub} : bool :=
  match sub, s with
  | EmptyString, _ => true
  | String a sub, String b s => Ascii.eqb a b && startsWith s sub
  | String _ _, EmptyString => false
  end.

(** [String.prototype.includes]: [sub] occurs in [s] as a run of consecutive
    code units. *)
Fixpoint includes (s sub : string) : bool :=
  startsWith s sub
  || match s with
     | EmptyString => false
     | String _ s' => includes s' sub
     end.

(** [x || fallback] on a query parameter: a missing parameter and the empty
    string are falsy. *)
Definition or_else (x : option string) (fallback : string) : string :=
  match x with
  | Some s => if Js.truthy s then s else fallback
  | None => fallback
  end.

(** The UTF-16 code units that the character beginning with a byte
    contributes.  A text is held as its UTF-8 bytes: a byte that continues a
    character counts nothing, the first byte of a four-byte character (a
    character outside the Basic Multilingual Plane, a surrogate pair in
    UTF-16) counts two, and every other first byte counts one. *)
Definition codeUnits (c : ascii) : nat :=
  let n := nat_of_ascii c in
  if (n <? 128)%nat then 1%nat
  else if (n <? 192)%nat then 0%nat
  else if (n <? 240)%nat then 1%nat
  else 2%nat.

(** [String.prototype.length]: the number of UTF-16 code units. *)
Fixpoint length (s : string) : nat :=
  match s with
  | EmptyString => 0%nat
  | String c s => (codeUnits c + length s)%nat
  end.

End JsString.

Module JsArray.

(** An index argument of [slice], made relative to an array of [len]
    elements: a negative index counts from the end, and the result is
    clamped to [0 .. len]. *)
Definition relative (len i : Z) : Z :=
  if i <? 0 then Z.max (len + i) 0 else Z.min i len.

(** [Array.prototype.slice(start, end)]. *)
Definition slice {A} (start end' : Z) (l : list A) : list A :=
  let len := Z.of_nat (length l) in
  let k := relative len start in
  let final := relative len end' in
  take (Z.to_nat (final - k)) (drop (Z.to_nat k) l).

End JsArray.

(** A [Map<string, number>]: the entries in insertion order. *)
Module JsMap.

Definition t : Type := list (string * Z).

Definition get (k : string) (m : t) : option Z :=
  snd <$> List.find (λ e, String.eqb (fst e) k) m.

(** [set] replaces the value of a key that is present, where it stands, and
    appends a new key. *)
Fixpoint set (k : string) (v : Z) (m : t) : t :=
  match m with
  | [] => [(k, v)]
  | (k', v') :: m => if String.eqb k' k then (k, v) :: m else (k', v') :: set k v m
  end.

End JsMap.

(** ** Search: the stores and the response *)

(** The fields of the stored documents that the search controller reads. *)
Module Homestay.
Record Location := mkLocation { district : string; address : string; state : string }.
Record Pricing := mkPricing { basePrice : Z }.
Record t := mk {
  _id : string;
  title : string;
  description : string;
  status : string;
  location : Location;
  pricing : Pricing;
  images : list string }.
End Homestay.

Module Guide.
Record Location := mkLocation { district : string }.
Record Pricing := mkPricing { fullDay : Z }.
Record t := mk {
  _id : string;
  name : string;
  bio : string;
  specializations : list string;
  location : Location;
  pricing : Pricing }.
End Guide.

Module Product.
Record Price := mkPrice { amount : Z }.
Record t := mk {
  _id : string;
  title : string;
  description : string;
  category : string;
  price : Price;
  images : list string }.
End Product.

(** The summaries that [unifiedSearch] returns. *)
Module HomestayHit.
Record Location := mkLocation { district : string; state : string }.
Record Pricing := mkPricing { basePrice : Z }.
Record t := mk {
  _id : string;
  title : string;
  description : string;
  type : string;
  location : Location;
  pricing : Pricing;
  images : list string }.
End HomestayHit.

Module GuideHit.
Record Pricing := mkPricing { fullDay : Z }.
Record t := mk {
  _id : string;
  name : string;
  bio : string;
  type : string;
  specializations : list string;
  pricing : Pricing }.
End GuideHit.

Module ProductHit.
Record Pricing := mkPricing { amount : Z }.
Record t := mk {
  _id : string;
  title : string;
  description : string;
  type : string;
  category : string;
  pricing : Pricing;
  images : list string }.
End ProductHit.

Module SearchTotal.
Record t := mk { homestays : Z; guides : Z; products : Z; overall : Z }.
End SearchTotal.

Module SearchResults.
Record t := mk {
  homestays : list HomestayHit.t;
  guides : list GuideHit.t;
  products : list ProductHit.t;
  total : SearchTotal.t }.
End SearchResults.

Module SearchData.
Record t (Meta : Type) := mk {
  results : SearchResults.t;
  query : string;
  pagination : Meta }.
Arguments mk {Meta} results query pagination.
Arguments results {Meta} _.
Arguments query {Meta} _.
Arguments pagination {Meta} _.
End SearchData.

Module Suggestion.
Record t := mk {
  text : string;
  type : string;
  id : option string;
  count : option Z }.
End Suggestion.

Module Suggestions.
Record t := mk { suggestions : list Suggestion.t }.
End Suggestions.

(** [req.query] of the two search routes. *)
Module SearchQuery.
Record t := mk {
  q : option string;
  type : option string;
  page : option string;
  limit : option string }.
End SearchQuery.

(** ** The search controller *)

Section Search.

(** [String.prototype.trim] and [String.prototype.toLowerCase]. *)
Context (trim toLowerCase : string → string).

(** [parsePaginationParams] and [getPaginationMeta] of
    [utils/response.utils.ts], which is not among the sources: the first
    returns the page number and the page size as integers. *)
Context {Meta : Type}.
Context (parsePaginationParams : option string → option string → Z * Z).
Context (getPaginationMeta : Z → Z → Z → Meta).

(** The in-memory stores that the controller imports. *)
Context (homestaysStore : list Homestay.t).
Context (guidesStore : list Guide.t).
Context (productsStore : list Product.t).

(** Checks if a string contains the search query (case-insensitive). *)
Definition matchesQuery (text : option string) (query : string) : bool :=
  match text with
  | None => false
  | Some text =>
      if negb (Js.truthy text) then false
      else JsString.includes (toLowerCase text) (toLowerCase query)
  end.


Definition queryTooShort {D} : Reply.t D :=
  Reply.error "Validation failed" 400
    (Some [mkFieldError "q" "Search query must be at least 2 characters"]).

Definition homestayMatches (query : string) (h : Homestay.t) : bool :=
  matchesQuery (Some (Homestay.title h)) query
  || matchesQuery (Some (Homestay.description h)) query
  || matchesQuery (Some (Homestay.district (Homestay.location h))) query
  || matchesQuery (Some (Homestay.address (Homestay.location h))) query.

Definition homestayHit (h : Homestay.t) : HomestayHit.t :=
  {| HomestayHit._id := Homestay._id h;
     HomestayHit.title := Homestay.title h;
     HomestayHit.description := Homestay.description h;
     HomestayHit.type := "homestay";
     HomestayHit.location :=
       {| HomestayHit.district := Homestay.district (Homestay.location h);
          HomestayHit.state := Homestay.state (Homestay.location h) |};
     HomestayHit.pricing :=
       {| HomestayHit.basePrice := Homestay.basePrice (Homestay.pricing h) |};
     HomestayHit.images := JsArray.slice 0 1 (Homestay.images h) |}.

Definition guideMatches (query : string) (g : Guide.t) : bool :=
  matchesQuery (Some (Guide.name g)) query
  || matchesQuery (Some (Guide.bio g)) query
  || existsb (λ s, matchesQuery (Some s) query) (Guide.specializations g)
  || matchesQuery (Some (Guide.district (Guide.location g))) query.

Definition guideHit (g : Guide.t) : GuideHit.t :=
  {| GuideHit._id := Guide._id g;
     GuideHit.name := Guide.name g;
     GuideHit.bio := Guide.bio g;
     GuideHit.type := "guide";
     GuideHit.specializations := Guide.specializations g;
     GuideHit.pricing := {| GuideHit.fullDay := Guide.fullDay (Guide.pricing g) |} |}.

Definition productMatches (query : string) (p : Product.t) : bool :=
  matchesQuery (Some (Product.title p)) query
  || matchesQuery (Some (Product.description p)) query
  || matchesQuery (Some (Product.category p)) query.

Definition productHit (p : Product.t) : ProductHit.t :=
  {| ProductHit._id := Product._id p;
     ProductHit.title := Product.title p;
     ProductHit.description := Product.description p;
     ProductHit.type := "product";
     ProductHit.category := Product.category p;
     ProductHit.pricing := {| ProductHit.amount := Product.amount (Product.price p) |};
     ProductHit.images := JsArray.slice 0 1 (Product.images p) |}.

Definition matchedHomestays (type query : string) : list HomestayHit.t :=
  if String.eqb type "all" || String.eqb type "homestays" then
    homestayHit <$>
      List.filter (homestayMatches query)
        (List.filter (λ h, String.eqb (Homestay.status h) "active") homestaysStore)
  else [].

Definition matchedGuides (type query : string) : list GuideHit.t :=
  if String.eqb type "all" || String.eqb type "guides" then
    guideHit <$> List.filter (guideMatches query) guidesStore
  else [].

Definition matchedProducts (type query : string) : list ProductHit.t :=
  if String.eqb type "all" || String.eqb type "products" then
    productHit <$> List.filter (productMatches query) productsStore
  else [].

(** GET /api/search *)
Definition unifiedSearch (req : SearchQuery.t) : Reply.t (SearchData.t Meta) :=
  let query := trim (JsString.or_else (SearchQuery.q req) "") in
  let type := JsString.or_else (SearchQuery.type req) "all" in
  let '(page, limit) :=
    parsePaginationParams (SearchQuery.page req) (SearchQuery.limit req) in
  if Z.of_nat (JsString.length query) <? 2 then queryTooShort
  else
    let matchedHomestays := matchedHomestays type query in
    let matchedGuides := matchedGuides type query in
    let matchedProducts := matchedProducts type query in
    let total :=
      {| SearchTotal.homestays := Z.of_nat (length matchedHomestays);
         SearchTotal.guides := Z.of_nat (length matchedGuides);
         SearchTotal.products := Z.of_nat (length matchedProducts);
         SearchTotal.overall :=
           Z.of_nat (length matchedHomestays) + Z.of_nat (length matchedGuides)
           + Z.of_nat (length matchedProducts) |} in
    let startIndex := (page - 1) * limit in
    let paginatedHomestays :=
      JsArray.slice startIndex (startIndex + limit) matchedHomestays in
    let paginatedGuides := JsArray.slice startIndex (startIndex + limit) matchedGuides in
    let paginatedProducts :=
      JsArray.slice startIndex (startIndex + limit) matchedProducts in
    Reply.success
      {| SearchData.results :=
           {| SearchResults.homestays := paginatedHomestays;
              SearchResults.guides := paginatedGuides;
              SearchResults.products := paginatedProducts;
              SearchResults.total := total |};
         SearchData.query := query;
         SearchData.pagination := getPaginationMeta page limit (SearchTotal.overall total) |}
      None None.

(** The [locationCounts] map of [autocomplete] after the loop over the
    homestays. *)
Definition locationCounts (query : string) : JsMap.t :=
  foldl (λ locationCounts h,
           if matchesQuery (Some (Homestay.district (Homestay.location h))) query then
             let district := Homestay.district (Homestay.location h) in
             JsMap.set district
               (match JsMap.get district locationCounts with
                | Some n => if Js.truthy_num n then n else 0
                | None => 0
                end + 1)
               locationCounts
           else locationCounts)
        [] homestaysStore.

(** GET /api/search/autocomplete *)
Definition autocomplete (req : SearchQuery.t) : Reply.t Suggestions.t :=
  let query := trim (JsString.or_else (SearchQuery.q req) "") in
  if Z.of_nat (JsString.length query) <? 2 then queryTooShort
  else
    let suggestions : list Suggestion.t := [] in
    let suggestions :=
      suggestions ++
      ((λ e, Suggestion.mk (fst e) "location" None (Some (snd e)))
         <$> locationCounts query) in
    let suggestions :=
      suggestions ++
      ((λ h, Suggestion.mk (Homestay.title h) "homestay" (Some (Homestay._id h)) None)
         <$> JsArray.slice 0 3
               (List.filter (λ h, String.eqb (Homestay.status h) "active"
                                  && matchesQuery (Some (Homestay.title h)) query)
                  homestaysStore)) in
    let suggestions :=
      suggestions ++
      ((λ g, Suggestion.mk (Guide.name g) "guide" (Some (Guide._id g)) None)
         <$> JsArray.slice 0 3
               (List.filter (λ g, matchesQuery (Some (Guide.name g)) query) guidesStore)) in
    let suggestions :=
      suggestions ++
      ((λ p, Suggestion.mk (Product.title p) "product" (Some (Product._id p)) None)
         <$> JsArray.slice 0 3
               (List.filter (λ p, matchesQuery (Some (Product.title p)) query)
                  productsStore)) in
    Reply.success {| Suggestions.suggestions := JsArray.slice 0 10 suggestions |} None None.

End Search.

(** ** Vocabulary of the search routes *)

(** The text that is searched for: the [q] parameter, trimmed. *)
Definition searchText (trim : string → string) (req : SearchQuery.t) : string :=
  trim (JsString.or_else (SearchQuery.q req) "").

(** The kind of documents that is searched. *)
Definition searchType (req : SearchQuery.t) : string :=
  JsString.or_else (SearchQuery.type req) "all".

(** ** A concrete environment *)

(** A [Date] parser for the two UTC forms of the ECMAScript date-time string
    format, [YYYY-MM-DD] and [YYYY-MM-DDTHH:mm:ss.sssZ]; every other text is
    an Invalid Date. *)
Module IsoParser.

Definition digitValue (c : ascii) : option Z :=
  let n := Z.of_nat (nat_of_ascii c) in
  if (48 <=? n) && (n <=? 57) then Some (n - 48) else None.

Fixpoint number (acc : Z) (s : string) : option Z :=
  match s with
  | EmptyString => Some acc
  | String c rest => d ← digitValue c; number (10 * acc + d) rest
  end.

Definition numberAt (pos len : nat) (s : string) : option Z :=
  number 0 (String.substring pos len s).

Definition check (b : bool) : option unit := if b then Some () else None.

Definition charAt (pos : nat) (s : string) (c : string) : option unit :=
  check (String.eqb (String.substring pos 1 s) c).

Definition parseDay (s : string) : option Z :=
  y ← numberAt 0 4 s;
  _ ← charAt 4 s "-";
  m ← numberAt 5 2 s;
  _ ← charAt 7 s "-";
  d ← numberAt 8 2 s;
  _ ← check (bool_decide (Js.civilFromDays (Js.daysFromCivil y m d) = (y, m, d)));
  Some (Js.daysFromCivil y m d).

Definition parseTime (s : string) : option Z :=
  _ ← charAt 10 s "T";
  h ← numberAt 11 2 s;
  _ ← charAt 13 s ":";
  mi ← numberAt 14 2 s;
  _ ← charAt 16 s ":";
  sec ← numberAt 17 2 s;
  _ ← charAt 19 s ".";
  ms ← numberAt 20 3 s;
  _ ← charAt 23 s "Z";
  _ ← check ((h <? 24) && (mi <? 60) && (sec <? 60));
  Some (((h * 60 + mi) * 60 + sec) * 1000 + ms).

Definition parse (s : string) : Js.Date :=
  if (String.length s =? 10)%nat then
    day ← parseDay s; Some (day * Js.msPerDay)
  else if (String.length s =? 24)%nat then
    day ← parseDay s; t ← parseTime s; Some (day * Js.msPerDay + t)
  else None.

End IsoParser.

(** An environment with two listings, a schema that accepts every document,
    nights counted in whole days rounded up, and the adults as guests. *)
Definition sampleEnv : Env :=
  {| Date_parse := IsoParser.parse;
     HomestayModel_findById := λ id,
       if String.eqb id "h1" then Document (Some "Forest View Homestay")
       else if String.eqb id "h2" then Rejects CastError
       else NoDocument;
     GuideModel_findById := λ id,
       if String.eqb id "g1" then Document (Some "Birsa") else NoDocument;
     schema_errors := λ _, [];
     hook_nights := λ a b, (b - a + Js.msPerDay - 1) / Js.msPerDay;
     hook_totalGuests := λ g, from_option adults 0 g |}.

Definition emptyWorld : World := mkWorld [] 1000.

Definition sampleInput (listing from to : string) : CreateBookingInput.t :=
  {| CreateBookingInput.listingType := "homestay";
     CreateBookingInput.listingId := listing;
     CreateBookingInput.checkIn := from;
     CreateBookingInput.checkOut := to;
     CreateBookingInput.guests := Some (mkGuests 2);
     CreateBookingInput.guestDetails := Some (mkGuestDetails "Asha" "asha@example.org");
     CreateBookingInput.specialRequests := None;
     CreateBookingInput.pricing := mkPricing 7500 |}.

(** 2030-01-01T00:00:00.000Z, used as the current time of the examples. *)
Definition now2030 : Z := 1893456000000.

(** The stays of the examples: [stayA] and [stayB] touch, [stayC] overlaps
    [stayA] and carries a time of day. *)
Definition stayA : CreateBookingInput.t := sampleInput "h1" "2030-06-10" "2030-06-15".
Definition stayB : CreateBookingInput.t := sampleInput "h1" "2030-06-15" "2030-06-20".
Definition stayC : CreateBookingInput.t :=
  sampleInput "h1" "2030-06-12T14:30:00.000Z" "2030-06-18".
Definition stayD : CreateBookingInput.t := sampleInput "h1" "2030-06-12" "2030-06-18".

(** A stay that overlaps [stayB] and begins after [stayA] has ended. *)
Definition stayE : CreateBookingInput.t := sampleInput "h1" "2030-06-17" "2030-06-22".

(** A request body that fails three of the field checks. *)
Definition incompleteInput : CreateBookingInput.t :=
  {| CreateBookingInput.listingType := "hotel";
     CreateBookingInput.listingId := "h1";
     CreateBookingInput.checkIn := "2030-06-10";
     CreateBookingInput.checkOut := "2030-06-15";
     CreateBookingInput.guests := Some (mkGuests 0);
     CreateBookingInput.guestDetails := Some (mkGuestDetails "Asha" "");
     CreateBookingInput.specialRequests := None;
     CreateBookingInput.pricing := mkPricing 7500 |}.

(** The world after [stayA] has been booked under the id [id1]. *)
Definition bookedWorld : World :=
  snd (run (createBooking sampleEnv now2030 "id1" stayA) emptyWorld).

Definition bookingA : Booking :=
  preSave sampleEnv
    (BookingModel_new "id1" 1001 stayA (Some "Forest View Homestay")
       1907280000000 1907712000000).

Definition changeOfPlans : CancelBookingInput :=
  mkCancelBookingInput (Some "change of plans").

(** The world after that booking has been cancelled. *)
Definition cancelledWorld : World :=
  snd (run (cancelBooking sampleEnv now2030 "id1" changeOfPlans) bookedWorld).

Definition sampleOps : list Op :=
  [CreateReq now2030 "id1" stayA; CreateReq now2030 "id2" stayB;
   CreateReq now2030 "id3" stayC; CancelReq now2030 "id1" changeOfPlans;
   CreateReq now2030 "id4" stayA].

(** Both requests run their conflict check before either of them saves. *)
Definition raceSchedule : list Turn :=
  [First; Second; First; Second; First; Second; First; Second].

(** ** A concrete search environment *)

(** Texts of the examples are ASCII: lower-casing maps [A-Z] to [a-z] and
    trimming removes spaces at both ends. *)
Module SampleSearch.

Definition lowerChar (c : ascii) : ascii :=
  let n := nat_of_ascii c in
  if ((65 <=? n) && (n <=? 90))%nat then ascii_of_nat (n + 32) else c.

Fixpoint toLowerCase (s : string) : string :=
  match s with
  | EmptyString => EmptyString
  | String c s => String (lowerChar c) (toLowerCase s)
  end.

Fixpoint trimStart (s : string) : string :=
  match s with
  | String " " s' => trimStart s'
  | _ => s
  end.

Definition trim (s : string) : string :=
  String.rev (trimStart (String.rev (trimStart s))).

(** Page 1 and ten entries a page unless the parameters say otherwise. *)
Definition parsePaginationParams (page limit : option string) : Z * Z :=
  (default 1 (page ≫= IsoParser.number 0), default 10 (limit ≫= IsoParser.number 0)).

Definition getPaginationMeta (page limit totalResults : Z) : Z * Z * Z :=
  (page, limit, totalResults).

Definition homestaysStore : list Homestay.t :=
  [ Homestay.mk "h1" "Forest View Homestay" "Rooms at the edge of the sal forest" "active"
      (Homestay.mkLocation "Ranchi" "Kanke Road" "Jharkhand") (Homestay.mkPricing 2500)
      ["h1-a.jpg"; "h1-b.jpg"];
    Homestay.mk "h2" "Hill Top Homestay" "Closed for repairs" "inactive"
      (Homestay.mkLocation "Ranchi" "Forest Lane" "Jharkhand") (Homestay.mkPricing 1800) [];
    Homestay.mk "h3" "Netarhat Cottage" "Sunrise point, pine forest" "active"
      (Homestay.mkLocation "Latehar" "Netarhat" "Jharkhand") (Homestay.mkPricing 3000)
      ["h3-a.jpg"] ].

Definition guidesStore : list Guide.t :=
  [ Guide.mk "g1" "Birsa" "Forest walks around Ranchi" ["trekking"; "wildlife"]
      (Guide.mkLocation "Ranchi") (Guide.mkPricing 1500);
    Guide.mk "g2" "Ranjit" "Waterfalls and temples" ["heritage"]
      (Guide.mkLocation "Khunti") (Guide.mkPricing 1200) ].

Definition productsStore : list Product.t :=
  [ Product.mk "p1" "Dokra Elephant" "Brass figurine" "handicraft"
      (Product.mkPrice 1200) ["p1-a.jpg"];
    Product.mk "p2" "Forest Honey" "Collected near Ranchi" "food"
      (Product.mkPrice 450) ["p2-a.jpg"; "p2-b.jpg"] ].

Definition unifiedSearch : SearchQuery.t → Reply.t (SearchData.t (Z * Z * Z)) :=
  unifiedSearch trim toLowerCase parsePaginationParams getPaginationMeta
    homestaysStore guidesStore productsStore.

Definition autocomplete : SearchQuery.t → Reply.t Suggestions.t :=
  autocomplete trim toLowerCase homestaysStore guidesStore productsStore.

(** [?q=%20Forest%20&page=1&limit=2] and the second page of that search. *)
Definition forest : SearchQuery.t :=
  SearchQuery.mk (Some " Forest ") None (Some "1") (Some "2").

Definition forestPage2 : SearchQuery.t :=
  SearchQuery.mk (Some " Forest ") None (Some "2") (Some "2").

(** A search with a [type] that the controller does not know. *)
Definition forestEvents : SearchQuery.t :=
  SearchQuery.mk (Some "forest") (Some "events") None None.

(** [?q=ran] *)
Definition ran : SearchQuery.t := SearchQuery.mk (Some "ran") None None None.

End SampleSearch.

(** * Properties *)

Example parse_day : IsoParser.parse "2030-06-10" = Some 1907280000000.
Proof. vm_compute. reflexivity. Qed.

Example parse_full : IsoParser.parse "2030-06-12T14:30:00.000Z" = Some 1907505000000.
Proof. vm_compute. reflexivity. Qed.

Example parse_bad : IsoParser.parse "next friday" = None.
Proof. vm_compute. reflexivity. Qed.

(** ** Running and stepping *)

Lemma run_step {A} (t : Task A) (w : World) :
  run t w = match step t w with
            | (Return t', w') => run t' w'
            | (Throw e, w') => (Throw e, w')
            end.
Proof.
  revert w. induction t as [a|e|B op k IH|body IHbody handler IH]; intros w; simpl.
  - reflexivity.
  - reflexivity.
  - unfold mbind, M_bind. destruct (op w) as [[b|e] w']; reflexivity.
  - unfold try_catch. rewrite IHbody.
    destruct (step body w) as [[body'|e] w']; [|reflexivity].
    destruct body'; simpl; reflexivity.
Qed.

(** Resuming a request for one step does not change what it will have done
    once it has run to completion without interruption. *)
Lemma run_advance {A} (t : Task A) (w : World) :
  run (advance t w).1 (advance t w).2 = run t w.
Proof.
  unfold advance. rewrite (run_step t w).
  destruct (step t w) as [[t'|e] w']; reflexivity.
Qed.

Lemma interleave_app {A} (s1 s2 : list Turn) (t1 t2 : Task A) (w : World) :
  interleave (s1 ++ s2) t1 t2 w
  = let '(t1', t2', w') := interleave s1 t1 t2 w in interleave s2 t1' t2' w'.
Proof.
  revert t1 t2 w. induction s1 as [|[] s1 IH]; intros t1 t2 w; cbn [interleave app].
  - reflexivity.
  - destruct (advance t1 w) as [t1' w']. apply IH.
  - destruct (advance t2 w) as [t2' w']. apply IH.
Qed.

Lemma run_advances {A} (n : nat) (t : Task A) (w : World) :
  run (advances n t w).1 (advances n t w).2 = run t w.
Proof.
  revert t w. induction n as [|n IH]; intros t w; cbn [advances]; [done|].
  rewrite <- (run_advance t w). destruct (advance t w) as [t' w']. apply IH.
Qed.

Lemma advances_Finish {A} (n : nat) (a : A) (w : World) :
  advances n (Finish a) w = (Finish a, w).
Proof. induction n as [|n IH]; [done|]. apply IH. Qed.

Lemma advances_add {A} (n k : nat) (t : Task A) (w : World) :
  advances (n + k) t w = advances k (advances n t w).1 (advances n t w).2.
Proof.
  revert t w. induction n as [|n IH]; intros t w; cbn [advances Nat.add]; [done|].
  destruct (advance t w) as [t' w']. apply IH.
Qed.

(** A run of turns of one request only: the other request does not move. *)
Lemma interleave_first_only {A} (n : nat) (t1 t2 : Task A) (w : World) :
  interleave (replicate n First) t1 t2 w
  = ((advances n t1 w).1, t2, (advances n t1 w).2).
Proof.
  revert t1 w. induction n as [|n IH]; intros t1 w; cbn [replicate interleave advances].
  - reflexivity.
  - destruct (advance t1 w) as [t1' w']. apply IH.
Qed.

Lemma interleave_second_only {A} (n : nat) (t1 t2 : Task A) (w : World) :
  interleave (replicate n Second) t1 t2 w
  = (t1, (advances n t2 w).1, (advances n t2 w).2).
Proof.
  revert t2 w. induction n as [|n IH]; intros t2 w; cbn [replicate interleave advances].
  - reflexivity.
  - destruct (advance t2 w) as [t2' w']. apply IH.
Qed.

Lemma interleave_serial {A} (n m : nat) (t1 t2 : Task A) (w : World) :
  interleave (replicate n First ++ replicate m Second) t1 t2 w
  = ((advances n t1 w).1,
     (advances m t2 (advances n t1 w).2).1,
     (advances m t2 (advances n t1 w).2).2).
Proof.
  rewrite interleave_app, interleave_first_only. apply interleave_second_only.
Qed.

(** ** ISO dates *)

Example toISOString_epoch : Js.toISOString 0 = "1970-01-01T00:00:00.000Z".
Proof. vm_compute. reflexivity. Qed.

Example toISOString_afternoon :
  Js.toISOString 1749565800123 = "2025-06-10T14:30:00.123Z".
Proof. vm_compute. reflexivity. Qed.

Example toISOString_before_epoch :
  Js.toISOString (-1) = "1969-12-31T23:59:59.999Z".
Proof. vm_compute. reflexivity. Qed.

Example toISOString_leap_day :
  Js.toISOString 1709164800000 = "2024-02-29T00:00:00.000Z".
Proof. vm_compute. reflexivity. Qed.

Example toISOString_expanded_years :
  Js.toISOString 253402300800000 = "+010000-01-01T00:00:00.000Z"
  ∧ Js.toISOString (-62167219200000) = "0000-01-01T00:00:00.000Z"
  ∧ Js.toISOString (-62198755200000) = "-000001-01-01T00:00:00.000Z".
Proof. vm_compute. auto. Qed.

Example split_on_T :
  Js.split "T" "2025-06-10T14:30:00.123Z" = ["2025-06-10"; "14:30:00.123Z"]
  ∧ Js.split "T" "2025-06-10" = ["2025-06-10"]
  ∧ Js.split "T" "" = [""].
Proof. vm_compute. auto. Qed.

Lemma occurs_app c s1 s2 : Js.occurs c (s1 +:+ s2) ↔ Js.occurs c s1 ∨ Js.occurs c s2.
Proof. induction s1 as [|c' s1 IH]; simpl; [tauto|]. rewrite IH. tauto. Qed.

Lemma digit_not_T n : Js.digit n ≠ "T"%char.
Proof.
  unfold Js.digit.
  assert (H : (Z.to_nat (n mod 10) < 10)%nat) by (pose proof (Z.mod_pos_bound n 10); lia).
  destruct (Z.to_nat (n mod 10)) as [|[|[|[|[|[|[|[|[|[|k]]]]]]]]]]; try discriminate; lia.
Qed.

Lemma digits_no_T w n : ¬ Js.occurs "T" (Js.digits w n).
Proof.
  revert n. induction w as [|w IH]; intros n; simpl; [tauto|].
  rewrite occurs_app. simpl. intros [H|[H|[]]]; [by eapply IH|by eapply digit_not_T].
Qed.

Lemma isoYear_no_T y : ¬ Js.occurs "T" (Js.isoYear y).
Proof.
  unfold Js.isoYear.
  pose proof (digits_no_T 4 y); pose proof (digits_no_T 6 y); pose proof (digits_no_T 6 (- y)).
  repeat case_match; rewrite ?occurs_app; cbn [Js.occurs];
    intuition (try discriminate; eauto).
Qed.

Lemma isoDate_no_T day : ¬ Js.occurs "T" (Js.isoDate day).
Proof.
  unfold Js.isoDate. destruct (Js.civilFromDays day) as [[y m] d].
  rewrite !occurs_app. cbn [Js.occurs].
  pose proof (isoYear_no_T y); pose proof (digits_no_T 2 m); pose proof (digits_no_T 2 d).
  intuition (try discriminate; eauto).
Qed.

Lemma split_first sep s rest :
  ¬ Js.occurs sep s → Js.split sep (s +:+ String sep rest) !! 0%nat = Some s.
Proof.
  induction s as [|c s IH]; simpl; intros H.
  - by rewrite Ascii.eqb_refl.
  - destruct (Ascii.eqb_spec c sep) as [->|Hne]; [tauto|].
    assert (IH' := IH ltac:(tauto)).
    destruct (Js.split sep (s +:+ String sep rest)) as [|p ps]; [discriminate|].
    simpl in *. congruence.
Qed.

Lemma toISOString_date t :
  Js.split "T" (Js.toISOString t) !! 0%nat = Some (Js.isoDate (Js.Day t)).
Proof. unfold Js.toISOString. apply split_first, isoDate_no_T. Qed.

Lemma not_calendarDay_of_T s : Js.occurs "T" s → ¬ calendarDay s.
Proof. intros H [day ->]. by eapply isoDate_no_T. Qed.

(** ** Truthiness and string tests *)

Lemma truthy_true s : Js.truthy s = true ↔ s ≠ "".
Proof.
  unfold Js.truthy. rewrite negb_true_iff.
  destruct (String.eqb_spec s ""); split; congruence.
Qed.

Lemma truthy_false s : Js.truthy s = false ↔ s = "".
Proof.
  unfold Js.truthy. rewrite negb_false_iff.
  destruct (String.eqb_spec s ""); split; congruence.
Qed.

Lemma includes_listingTypes s :
  Js.includes ["homestay"; "guide"] s = true ↔ s = "homestay" ∨ s = "guide".
Proof.
  unfold Js.includes. simpl.
  destruct (String.eqb_spec s "homestay"), (String.eqb_spec s "guide"); simpl;
    intuition congruence.
Qed.

(** ** The conflict query *)

Section ConflictQuery.
Context (listing : string) (c d : Z) (exclude : option string).

Lemma conflictQuery_spec b :
  conflictQuery listing c d exclude b = true ↔ conflictsWith listing c d exclude b.
Proof.
  unfold conflictQuery, conflictsWith.
  assert (Hbase : String.eqb (listingId b) listing
            && negb (bool_decide (status b = Cancelled))
            && ((checkIn b <? d) && (checkOut b >? c)) = true
          ↔ listingId b = listing ∧ status b ≠ Cancelled ∧ checkIn b < d ∧ checkOut b > c).
  { rewrite !andb_true_iff, negb_true_iff, bool_decide_eq_false, String.eqb_eq.
    rewrite Z.ltb_lt, Z.gtb_gt. tauto. }
  destruct exclude as [e|].
  - destruct (Js.truthy e) eqn:He.
    + apply truthy_true in He.
      rewrite andb_true_iff, Hbase, negb_true_iff, String.eqb_neq.
      split.
      * intros [(? & ? & ? & ?) Hne]. repeat split; try done. by intros ? [= <-] _.
      * intros (? & ? & Hex & ? & ?). repeat split; try done. by apply Hex.
    + apply truthy_false in He. rewrite Hbase. split.
      * intros (? & ? & ? & ?). repeat split; try done. intros ? [= <-]. done.
      * tauto.
  - rewrite Hbase. split.
    + intros (? & ? & ? & ?). repeat split; try done.
    + tauto.
Qed.

Lemma hasDateConflict_run w :
  hasDateConflict listing c d exclude w
  = (Return (List.find (conflictQuery listing c d exclude) (bookings w)), w).
Proof.
  unfold hasDateConflict, findOne, conflictQuery.
  destruct exclude as [e|]; [destruct (Js.truthy e)|]; reflexivity.
Qed.

End ConflictQuery.

Lemma find_first_conflict listing c d exclude bs b :
  List.find (conflictQuery listing c d exclude) bs = Some b →
  b ∈ bs ∧ conflictsWith listing c d exclude b.
Proof.
  intros H. apply find_some in H as [Hin Hq].
  split; [by apply list_elem_of_In|by apply conflictQuery_spec].
Qed.

Lemma find_no_conflict listing c d exclude bs :
  List.find (conflictQuery listing c d exclude) bs = None →
  Forall (λ b, ¬ conflictsWith listing c d exclude b) bs.
Proof.
  intros H. apply Forall_forall. intros b Hin Hc.
  apply list_elem_of_In in Hin.
  pose proof (find_none _ _ H b Hin) as Hq.
  apply conflictQuery_spec in Hc. congruence.
Qed.

(** C2.  [hasDateConflict] always resolves, without changing the store.  The
    booking it returns is a stored one that conflicts with the candidate
    range [[c, d)]: same listing, not cancelled, not the excluded booking
    when an id to exclude is supplied, and with a range [[a, b)] such that
    [a < d] and [b > c].  It returns a booking exactly when such a stored
    booking exists.  A booking that touches the candidate range at an
    endpoint ([b = c] or [a = d]) is never the one returned.  An id counts
    as supplied when it is a non-empty string, which is the truthiness test
    the source makes. *)
Theorem hasDateConflict_spec (listing : string) (c d : Z) (exclude : option string)
    (w : World) :
  ∃ r, hasDateConflict listing c d exclude w = (Return r, w)
    ∧ (∀ b, r = Some b → b ∈ bookings w ∧ conflictsWith listing c d exclude b)
    ∧ (is_Some r ↔ ∃ b, b ∈ bookings w ∧ conflictsWith listing c d exclude b)
    ∧ (∀ b, checkOut b = c ∨ checkIn b = d → r ≠ Some b).
Proof.
  exists (List.find (conflictQuery listing c d exclude) (bookings w)).
  split; [apply hasDateConflict_run|].
  split; [intros b; apply find_first_conflict|].
  split.
  - split.
    + intros [b Hb]. exists b. by apply find_first_conflict.
    + intros (b & Hin & Hc).
      destruct (List.find _ _) as [b'|] eqn:Hfind; [by eexists|].
      apply find_no_conflict in Hfind. rewrite Forall_forall in Hfind.
      by destruct (Hfind b Hin).
  - intros b Htouch Hfind. apply find_first_conflict in Hfind as [_ (_ & _ & _ & ? & ?)].
    lia.
Qed.

(** ** Title resolution *)

Lemma getListingTitle_run env listingType listingId w :
  getListingTitle env listingType listingId w
  = (Return (resolvedTitle env listingType listingId), w).
Proof.
  unfold getListingTitle, resolvedTitle, listingLookup, try_catch.
  destruct (String.eqb_spec listingType "homestay") as [->|Hh].
  - rewrite decide_True by done.
    destruct (HomestayModel_findById env listingId) as [e| |[title|]]; reflexivity.
  - rewrite decide_False by done.
    destruct (String.eqb_spec listingType "guide") as [->|Hg].
    + rewrite decide_True by done.
      destruct (GuideModel_findById env listingId) as [e| |[title|]]; reflexivity.
    + rewrite decide_False by done. reflexivity.
Qed.

(** ** Field validation *)

Lemma errorOf_inj c1 c2 : errorOf c1 = errorOf c2 → c1 = c2.
Proof. destruct c1, c2; simpl; intros [=]; reflexivity. Qed.

Lemma fieldErrors_complete input c :
  errorOf c ∈ fieldErrors input ↔ ¬ satisfies input c.
Proof.
  unfold fieldErrors. rewrite list_elem_of_fmap. split.
  - intros (c' & Heq & Hin). apply errorOf_inj in Heq as <-.
    by apply list_elem_of_filter in Hin as [? _].
  - intros H. exists c. split; [done|]. apply list_elem_of_filter. split; [done|].
    unfold fieldChecks. destruct c; repeat constructor.
Qed.

Lemma fieldErrors_nil input : fieldErrors input = [] ↔ ∀ c, satisfies input c.
Proof.
  split.
  - intros H c. destruct (decide (satisfies input c)) as [|Hn]; [done|].
    apply fieldErrors_complete in Hn. rewrite H in Hn. by apply elem_of_nil in Hn.
  - intros H. destruct (fieldErrors input) as [|e l] eqn:E; [done|].
    assert (He : e ∈ fieldErrors input) by (rewrite E; left).
    unfold fieldErrors in He. apply list_elem_of_fmap in He as (c & -> & Hin).
    apply list_elem_of_filter in Hin as [Hn _]. by destruct Hn.
Qed.

Lemma adults_test g :
  negb (Js.truthy_num (adults g)) || (adults g <? 1) = bool_decide (¬ 1 ≤ adults g).
Proof.
  unfold Js.truthy_num. rewrite negb_involutive.
  destruct (Z.eqb_spec (adults g) 0), (Z.ltb_spec (adults g) 1); simpl;
    symmetry; (apply bool_decide_eq_true || apply bool_decide_eq_false); lia.
Qed.

Lemma bool_decide_of_iff (b : bool) (P : Prop) `{Decision P} :
  (b = true ↔ P) → b = bool_decide P.
Proof.
  intros Hb. destruct b; symmetry.
  - apply bool_decide_eq_true, Hb. done.
  - apply bool_decide_eq_false. intros HP. apply Hb in HP. done.
Qed.

Lemma fmap_filter_flat_map {A B} (f : A → B) (P : A → Prop) `{∀ x, Decision (P x)}
    (l : list A) :
  f <$> filter P l = flat_map (λ x, if bool_decide (P x) then [f x] else []) l.
Proof.
  induction l as [|x l IH]; [done|].
  rewrite filter_cons. cbn [flat_map]. rewrite <- IH.
  destruct (decide (P x)).
  - rewrite bool_decide_eq_true_2 by done. reflexivity.
  - rewrite bool_decide_eq_false_2 by done. reflexivity.
Qed.

Lemma truthy_test input c s :
  (satisfies input c ↔ s ≠ "") →
  negb (Js.truthy s) = bool_decide (¬ satisfies input c).
Proof.
  intros Hc. apply bool_decide_of_iff. rewrite negb_true_iff, truthy_false, Hc.
  destruct (decide (s = "")); tauto.
Qed.

Lemma guestDetails_test input c (get : GuestDetails → string) :
  (satisfies input c ↔
     ∃ gd, CreateBookingInput.guestDetails input = Some gd ∧ get gd ≠ "") →
  match CreateBookingInput.guestDetails input with
  | Some gd => negb (Js.truthy (get gd))
  | None => true
  end = bool_decide (¬ satisfies input c).
Proof.
  intros Hc. apply bool_decide_of_iff. rewrite Hc.
  destruct (CreateBookingInput.guestDetails input) as [gd|].
  - rewrite negb_true_iff, truthy_false. split.
    + intros H (g' & [= <-] & ?). done.
    + intros H. destruct (decide (get gd = "")); [done|]. destruct H. eauto.
  - split; [|done]. intros _ (? & [=] & _).
Qed.

Lemma listingType_test input :
  negb (Js.truthy (CreateBookingInput.listingType input))
  || negb (Js.includes ["homestay"; "guide"] (CreateBookingInput.listingType input))
  = bool_decide (¬ satisfies input ListingTypeCheck).
Proof.
  apply bool_decide_of_iff. cbn [satisfies].
  rewrite <- includes_listingTypes, orb_true_iff, !negb_true_iff.
  destruct (Js.includes ["homestay"; "guide"] (CreateBookingInput.listingType input)) eqn:Hi.
  - apply includes_listingTypes in Hi.
    assert (Js.truthy (CreateBookingInput.listingType input) = true) as ->
      by (apply truthy_true; destruct Hi as [-> | ->]; done).
    intuition congruence.
  - intuition congruence.
Qed.

Lemma adults_check_test input :
  match CreateBookingInput.guests input with
  | Some g => negb (Js.truthy_num (adults g)) || (adults g <? 1)
  | None => true
  end = bool_decide (¬ satisfies input AdultsCheck).
Proof.
  apply bool_decide_of_iff. cbn [satisfies].
  destruct (CreateBookingInput.guests input) as [g|].
  - rewrite adults_test, bool_decide_eq_true. split.
    + intros H (g' & [= <-] & ?). done.
    + intros H ?. apply H. eauto.
  - split; [|done]. intros _ (? & [=] & _).
Qed.

Lemma basicValidation_fieldErrors input : basicValidation input = fieldErrors input.
Proof.
  unfold basicValidation, fieldErrors, fieldChecks, push.
  rewrite fmap_filter_flat_map.
  rewrite listingType_test, adults_check_test.
  rewrite (guestDetails_test input GuestNameCheck name) by reflexivity.
  rewrite (guestDetails_test input GuestEmailCheck email) by reflexivity.
  rewrite (truthy_test input ListingIdCheck (CreateBookingInput.listingId input))
    by reflexivity.
  rewrite (truthy_test input CheckInCheck (CreateBookingInput.checkIn input))
    by reflexivity.
  rewrite (truthy_test input CheckOutCheck (CreateBookingInput.checkOut input))
    by reflexivity.
  cbn [flat_map errorOf].
  generalize (bool_decide (¬ satisfies input ListingTypeCheck)),
    (bool_decide (¬ satisfies input ListingIdCheck)),
    (bool_decide (¬ satisfies input CheckInCheck)),
    (bool_decide (¬ satisfies input CheckOutCheck)),
    (bool_decide (¬ satisfies input AdultsCheck)),
    (bool_decide (¬ satisfies input GuestNameCheck)),
    (bool_decide (¬ satisfies input GuestEmailCheck)).
  intros [] [] [] [] [] [] []; reflexivity.
Qed.

(** ** Creation *)

Lemma createBooking_outcome env now oid input w :
  ∃ r w', run (createBooking env now oid input) w = (Return r, w')
          ∧ CreateOutcome env now oid input w r w'.
Proof.
  unfold createBooking. cbn [run]. unfold try_catch.
  rewrite basicValidation_fieldErrors.
  destruct (fieldErrors input) as [|e errs] eqn:Herr.
  - assert (Hvalid := proj1 (fieldErrors_nil input) Herr).
    cbn [length Nat.ltb Nat.leb].
    destruct (Date_parse env (CreateBookingInput.checkIn input)) as [ci|] eqn:Hci;
      destruct (Date_parse env (CreateBookingInput.checkOut input)) as [co|] eqn:Hco;
      cbn [Js.Date_le].
    + destruct (Z.leb_spec ci now) as [Hnow|Hnow].
      { eexists _, _. split; [reflexivity|]. by eapply CheckInRejected. }
      destruct (Z.leb_spec co ci) as [Hlen|Hlen].
      { eexists _, _. split; [reflexivity|]. by eapply CheckOutRejected. }
      cbn [run]. unfold mbind, M_bind. rewrite hasDateConflict_run.
      destruct (List.find _ (bookings w)) as [b|] eqn:Hfind.
      * apply find_first_conflict in Hfind as [Hin Hc].
        eexists _, _. split; [cbn [run]; reflexivity|].
        rewrite !toISOString_date. by eapply ConflictFound.
      * apply find_no_conflict in Hfind.
        cbn [run]. unfold mbind, M_bind. rewrite getListingTitle_run.
        cbn [run getNextBookingNumber bookings counter]. unfold mbind, M_bind, save.
        cbn [bookings counter].
        destruct (schema_errors env _) as [|s errs] eqn:Hschema.
        -- eexists _, _. split; [cbn [run]; reflexivity|]. by eapply Created.
        -- eexists _, _. split; [cbn [run]; reflexivity|].
           rewrite <- Hschema. eapply SchemaRejected; try done. by rewrite Hschema.
    + destruct (Z.leb_spec ci now) as [Hnow|Hnow].
      { eexists _, _. split; [reflexivity|]. by eapply CheckInRejected. }
      eexists _, _. split; [reflexivity|]. eapply DatesUnparseable; [done| |by right].
      intros ci' Hci'. rewrite Hci in Hci'. by injection Hci' as <-.
    + eexists _, _. split; [reflexivity|]. eapply DatesUnparseable; [done| |by left].
      intros ci' Hci'. congruence.
    + eexists _, _. split; [reflexivity|]. eapply DatesUnparseable; [done| |by left].
      intros ci' Hci'. congruence.
  - cbn [length Nat.ltb Nat.leb]. eexists _, _. split; [reflexivity|].
    rewrite <- Herr. apply FieldsRejected. by rewrite Herr.
Qed.

Lemma createBooking_inv env now oid input w r w' :
  run (createBooking env now oid input) w = (r, w') →
  ∃ resp, r = Return resp ∧ CreateOutcome env now oid input w resp w'.
Proof.
  intros Hrun.
  destruct (createBooking_outcome env now oid input w) as (resp & w0 & Heq & Hout).
  rewrite Heq in Hrun. injection Hrun as <- <-. eauto.
Qed.

(** ** Documents *)

Lemma preSave_fields env b :
  _id (preSave env b) = _id b
  ∧ bookingNumber (preSave env b) = bookingNumber b
  ∧ listingType (preSave env b) = listingType b
  ∧ listingId (preSave env b) = listingId b
  ∧ listingTitle (preSave env b) = listingTitle b
  ∧ checkIn (preSave env b) = checkIn b
  ∧ checkOut (preSave env b) = checkOut b
  ∧ guests (preSave env b) = guests b
  ∧ guestDetails (preSave env b) = guestDetails b
  ∧ specialRequests (preSave env b) = specialRequests b
  ∧ pricing (preSave env b) = pricing b
  ∧ status (preSave env b) = status b
  ∧ paymentStatus (preSave env b) = paymentStatus b
  ∧ cancellationReason (preSave env b) = cancellationReason b
  ∧ cancelledAt (preSave env b) = cancelledAt b.
Proof. destruct b; repeat split; reflexivity. Qed.

Lemma withCancellation_fields now input b :
  _id (withCancellation now input b) = _id b
  ∧ bookingNumber (withCancellation now input b) = bookingNumber b
  ∧ listingType (withCancellation now input b) = listingType b
  ∧ listingId (withCancellation now input b) = listingId b
  ∧ listingTitle (withCancellation now input b) = listingTitle b
  ∧ checkIn (withCancellation now input b) = checkIn b
  ∧ checkOut (withCancellation now input b) = checkOut b
  ∧ guests (withCancellation now input b) = guests b
  ∧ guestDetails (withCancellation now input b) = guestDetails b
  ∧ specialRequests (withCancellation now input b) = specialRequests b
  ∧ pricing (withCancellation now input b) = pricing b
  ∧ paymentStatus (withCancellation now input b) = paymentStatus b
  ∧ nights (withCancellation now input b) = nights b
  ∧ totalGuests (withCancellation now input b) = totalGuests b
  ∧ status (withCancellation now input b) = Cancelled
  ∧ cancellationReason (withCancellation now input b) = reason input
  ∧ cancelledAt (withCancellation now input b) = Some now.
Proof. destruct b; repeat split; reflexivity. Qed.

Lemma preSave_withCancellation env now input b :
  preSave env (withCancellation now input b) = withCancellation now input (preSave env b).
Proof. destruct b; reflexivity. Qed.

(** ** The store *)

Lemma modified_same {A} `{EqDecision A} (loaded current : A) :
  modified loaded current loaded = current.
Proof. unfold modified. by destruct (decide (current = loaded)). Qed.

(** A document that no other request has written since it was loaded is
    stored as it is. *)
Lemma writeModified_same b doc : _id doc = _id b → writeModified b doc b = doc.
Proof.
  intros Hid. unfold writeModified. rewrite !modified_same, <- Hid. by destruct doc.
Qed.

Lemma updateOne_stored loaded doc bs b :
  List.find (λ x, String.eqb (_id x) (_id doc)) bs = Some b →
  ∃ i, bs !! i = Some b
       ∧ updateOne loaded doc bs = <[i := writeModified loaded doc b]> bs.
Proof.
  unfold updateOne. induction bs as [|x bs IH]; [done|].
  cbn [List.find]. change (list_find (λ b0, _id b0 = _id doc) (x :: bs))
    with (if decide (_id x = _id doc) then Some (0%nat, x)
          else prod_map S id <$> list_find (λ b0, _id b0 = _id doc) bs).
  destruct (String.eqb_spec (_id x) (_id doc)) as [Heq|Hne].
  - intros [= ->]. rewrite decide_True by done. by exists 0%nat.
  - intros Hfind. rewrite decide_False by done.
    destruct (IH Hfind) as (i & Hi & Hupd). exists (S i). split; [done|].
    destruct (list_find _ bs) as [[j y]|]; simpl in *; congruence.
Qed.

Lemma updateOne_found doc bs b :
  List.find (λ x, String.eqb (_id x) (_id doc)) bs = Some b →
  ∃ i, bs !! i = Some b ∧ updateOne b doc bs = <[i := doc]> bs.
Proof.
  intros Hfind. destruct (updateOne_stored b doc bs b Hfind) as (i & Hi & ->).
  exists i. split; [done|]. rewrite writeModified_same; [done|].
  apply find_some in Hfind as [_ Heq]. by apply String.eqb_eq in Heq.
Qed.

Lemma find_by_id id bs b :
  List.find (λ x, String.eqb (_id x) id) bs = Some b → b ∈ bs ∧ _id b = id.
Proof.
  intros H. apply find_some in H as [Hin Heq].
  split; [by apply list_elem_of_In|by apply String.eqb_eq].
Qed.

(** The write of a cancellation that runs without interruption replaces the
    booking it found by the cancelled document. *)
Lemma updateOne_cancelled env now input id bs b :
  List.find (λ x, String.eqb (_id x) id) bs = Some b →
  ∃ i, bs !! i = Some b
       ∧ updateOne b (preSave env (withCancellation now input b)) bs
         = <[i := preSave env (withCancellation now input b)]> bs.
Proof.
  intros Hfind. apply updateOne_found.
  assert (_id (preSave env (withCancellation now input b)) = id) as ->; [|done].
  destruct (preSave_fields env (withCancellation now input b)) as (-> & _).
  destruct (withCancellation_fields now input b) as (-> & _).
  by apply find_by_id in Hfind as [_ ?].
Qed.

(** ** Cancellation *)

Lemma cancelBooking_run env now id input w :
  run (cancelBooking env now id input) w =
  match List.find (λ b, String.eqb (_id b) id) (bookings w) with
  | None => (Return (sendError "Booking not found" 404 None), w)
  | Some b =>
      if bool_decide (status b = Cancelled) then
        (Return (sendError "This booking is already cancelled" 400 None), w)
      else if bool_decide (status b = Completed) then
        (Return (sendError "Cannot cancel a completed booking" 400 None), w)
      else
        match schema_errors env (withCancellation now input b) with
        | [] =>
            (Return (sendSuccess
                       (CancellationData
                          {| Cancellation._id := _id b;
                             Cancellation.status := Cancelled;
                             Cancellation.cancellationReason := reason input;
                             Cancellation.cancelledAt := Some now;
                             Cancellation.refundAmount := total (pricing b);
                             Cancellation.refundStatus := "pending" |})
                       200 "Booking cancelled successfully"),
             mkWorld (updateOne b (preSave env (withCancellation now input b)) (bookings w))
                     (counter w))
        | _ => (Return (sendError "Failed to cancel booking" 500 None), w)
        end
  end.
Proof.
  unfold cancelBooking. cbn [run]. unfold try_catch, mbind, M_bind, findById, findOne.
  destruct (List.find _ (bookings w)) as [b|]; [|reflexivity].
  destruct (bool_decide (status b = Cancelled)); [reflexivity|].
  destruct (bool_decide (status b = Completed)); [reflexivity|].
  cbn [run]. unfold mbind, M_bind, save. fold (withCancellation now input b).
  destruct (schema_errors env (withCancellation now input b)); [|reflexivity].
  cbn [run]. unfold mret, M_ret.
  destruct b; reflexivity.
Qed.

(** ** The invariant *)

Lemma no_conflict_disjoint a b :
  ¬ conflictsWith (listingId b) (checkIn b) (checkOut b) None a →
  listingId a = listingId b → active a → disjointStays a b.
Proof.
  intros Hnc Hl Ha t [[? ?] [? ?]]. apply Hnc.
  unfold conflictsWith, active in *. split_and!; [done|done|intros ? [=]|lia|lia].
Qed.

Lemma disjointStays_sym a b : disjointStays a b → disjointStays b a.
Proof. intros H t [? ?]. by apply (H t). Qed.

Lemma NoDoubleBooking_snoc bs b :
  NoDoubleBooking bs →
  Forall (λ a, ¬ conflictsWith (listingId b) (checkIn b) (checkOut b) None a) bs →
  NoDoubleBooking (bs ++ [b]).
Proof.
  intros Hinv Hnew i j x y Hij Hi Hj Hl Hx Hy.
  rewrite Forall_lookup in Hnew.
  apply lookup_app_Some in Hi as [Hi|[Hi1 Hi2]];
    apply lookup_app_Some in Hj as [Hj|[Hj1 Hj2]].
  - by eapply Hinv.
  - apply list_lookup_singleton_Some in Hj2 as [_ <-].
    apply no_conflict_disjoint; [by eapply Hnew|done..].
  - apply list_lookup_singleton_Some in Hi2 as [_ <-].
    apply disjointStays_sym, no_conflict_disjoint; [by eapply Hnew|done..].
  - apply list_lookup_singleton_Some in Hi2 as [? _].
    apply list_lookup_singleton_Some in Hj2 as [? _]. lia.
Qed.

Lemma NoDoubleBooking_insert bs i b :
  NoDoubleBooking bs → ¬ active b → NoDoubleBooking (<[i := b]> bs).
Proof.
  intros Hinv Hb j k x y Hjk Hj Hk Hl Hx Hy.
  apply list_lookup_insert_Some in Hj as [(-> & <- & _)|[_ Hj]]; [done|].
  apply list_lookup_insert_Some in Hk as [(-> & <- & _)|[_ Hk]]; [done|].
  by eapply Hinv.
Qed.

Lemma createBooking_preserves env now oid input w :
  NoDoubleBooking (bookings w) →
  NoDoubleBooking (bookings (snd (run (createBooking env now oid input) w))).
Proof.
  intros Hinv.
  destruct (createBooking_outcome env now oid input w) as (r & w' & -> & Hout).
  cbn [snd]. destruct Hout; cbn [bookings]; try done.
  apply NoDoubleBooking_snoc; [done|].
  destruct (preSave_fields env doc) as (_ & _ & _ & -> & _ & -> & -> & _).
  by subst doc.
Qed.

Lemma cancelBooking_preserves env now id input w :
  NoDoubleBooking (bookings w) →
  NoDoubleBooking (bookings (snd (run (cancelBooking env now id input) w))).
Proof.
  intros Hinv. rewrite cancelBooking_run.
  destruct (List.find _ (bookings w)) as [b|] eqn:Hfind; [|done].
  destruct (bool_decide (status b = Cancelled)); [done|].
  destruct (bool_decide (status b = Completed)); [done|].
  destruct (schema_errors env _); [|done].
  cbn [snd bookings].
  set (doc := preSave env (withCancellation now input b)).
  assert (Hid : _id doc = id).
  { unfold doc. destruct (preSave_fields env (withCancellation now input b)) as (-> & _).
    destruct (withCancellation_fields now input b) as (-> & _).
    by apply find_by_id in Hfind as [_ ?]. }
  rewrite <- Hid in Hfind.
  destruct (updateOne_found doc _ _ Hfind) as (i & _ & ->).
  apply NoDoubleBooking_insert; [done|].
  unfold active, doc.
  destruct (preSave_fields env (withCancellation now input b))
    as (_ & _ & _ & _ & _ & _ & _ & _ & _ & _ & _ & -> & _).
  destruct (withCancellation_fields now input b)
    as (_ & _ & _ & _ & _ & _ & _ & _ & _ & _ & _ & _ & _ & _ & -> & _).
  tauto.
Qed.

(** ** Properties of cancellation *)

(** C5.  The state guard of [cancelBooking].  A cancellation that succeeds
    found the booking in status pending or confirmed.  On a cancelled
    booking it answers with the message that the booking is already
    cancelled, on a completed booking with the message that a completed
    booking cannot be cancelled; the two messages differ.  Whenever the
    answer is an error the world, and so the booking, is left as it was. *)
Theorem cancelBooking_guard (env : Env) (now : Z) (id : ObjectId)
    (input : CancelBookingInput) (w w' : World) (r : Result Response) :
  run (cancelBooking env now id input) w = (r, w') →
  (∀ data code msg, r = Return (sendSuccess data code msg) →
     ∃ b, findById id w = (Return (Some b), w)
          ∧ (status b = Pending ∨ status b = Confirmed))
  ∧ (∀ b, findById id w = (Return (Some b), w) → status b = Cancelled →
       r = Return (sendError "This booking is already cancelled" 400 None))
  ∧ (∀ b, findById id w = (Return (Some b), w) → status b = Completed →
       r = Return (sendError "Cannot cancel a completed booking" 400 None))
  ∧ "This booking is already cancelled" ≠ "Cannot cancel a completed booking"
  ∧ (∀ msg code errs, r = Return (sendError msg code errs) → w' = w).
Proof.
  rewrite cancelBooking_run. unfold findById, findOne. intros Hrun.
  destruct (List.find _ (bookings w)) as [b|] eqn:Hfind.
  - destruct (status b) eqn:Hst; cbn in Hrun.
    + destruct (schema_errors env _); injection Hrun as <- <-;
        (split_and!; [intros ??? [=]; eauto|intros ? [= <-]; congruence..|done|
                      intros ??? [=]; done]).
    + destruct (schema_errors env _); injection Hrun as <- <-;
        (split_and!; [intros ??? [=]; eauto|intros ? [= <-]; congruence..|done|
                      intros ??? [=]; done]).
    + injection Hrun as <- <-.
      split_and!; [intros ??? [=]|done|intros ? [= <-]; congruence|done|done].
    + injection Hrun as <- <-.
      split_and!; [intros ??? [=]|intros ? [= <-]; congruence|done|done|done].
  - injection Hrun as <- <-.
    split_and!; [intros ??? [=]|intros ? [=]..|done|done].
Qed.

(** C6.  The effect of [cancelBooking] on a booking in status pending or
    confirmed (whose cancelled version the schema accepts): the stored
    booking gets status cancelled, the supplied reason and [cancelledAt =
    now]; the response reports [refundAmount] equal to the stored
    [pricing.total] together with [refundStatus = pending].  The refund is
    only reported: pricing and payment status of the booking are unchanged
    and nothing else in the world is written. *)
Theorem cancelBooking_effect (env : Env) (now : Z) (id : ObjectId)
    (input : CancelBookingInput) (w : World) (b : Booking) :
  findById id w = (Return (Some b), w) →
  status b = Pending ∨ status b = Confirmed →
  schema_errors env (withCancellation now input b) = [] →
  ∃ (i : nat) (b' : Booking),
    bookings w !! i = Some b
    ∧ run (cancelBooking env now id input) w
      = (Return (sendSuccess
                   (CancellationData
                      {| Cancellation._id := _id b;
                         Cancellation.status := Cancelled;
                         Cancellation.cancellationReason := reason input;
                         Cancellation.cancelledAt := Some now;
                         Cancellation.refundAmount := total (pricing b);
                         Cancellation.refundStatus := "pending" |})
                   200 "Booking cancelled successfully"),
         mkWorld (<[i := b']> (bookings w)) (counter w))
    ∧ status b' = Cancelled
    ∧ cancellationReason b' = reason input
    ∧ cancelledAt b' = Some now
    ∧ pricing b' = pricing b
    ∧ paymentStatus b' = paymentStatus b.
Proof.
  unfold findById, findOne. intros [= Hfind] Hst Hschema.
  rewrite cancelBooking_run, Hfind, Hschema.
  set (b' := preSave env (withCancellation now input b)).
  assert (Hid : _id b' = id).
  { unfold b'. destruct (preSave_fields env (withCancellation now input b)) as (-> & _).
    destruct (withCancellation_fields now input b) as (-> & _).
    by apply find_by_id in Hfind as [_ ?]. }
  pose proof Hfind as Hfind'. rewrite <- Hid in Hfind'.
  destruct (updateOne_found b' _ _ Hfind') as (i & Hi & ->).
  exists i, b'. split; [done|]. split.
  { destruct Hst as [-> | ->]; reflexivity. }
  unfold b'.
  destruct (preSave_fields env (withCancellation now input b))
    as (_ & _ & _ & _ & _ & _ & _ & _ & _ & _ & -> & -> & -> & -> & ->).
  destruct (withCancellation_fields now input b)
    as (_ & _ & _ & _ & _ & _ & _ & _ & _ & _ & -> & -> & _ & _ & -> & -> & ->).
  done.
Qed.

(** C9.  Frame of a successful [cancelBooking]: exactly one stored document
    is replaced, every other document and the counter are as before, and in
    the replaced document only [status], [cancellationReason] and
    [cancelledAt] are assigned.  The id, booking number, listing type, id and
    title, both dates, guests, guest details, special requests, pricing and
    the payment status keep their values; the two fields that the pre-save
    hook derives are recomputed from unchanged inputs, so for a document
    that was stored by [save] they keep their values too. *)
Theorem cancelBooking_frame (env : Env) (now : Z) (id : ObjectId)
    (input : CancelBookingInput) (w w' : World) (data : Data) (code : Z) (msg : string) :
  run (cancelBooking env now id input) w = (Return (sendSuccess data code msg), w') →
  ∃ (i : nat) (b b' : Booking),
    findById id w = (Return (Some b), w)
    ∧ bookings w !! i = Some b
    ∧ w' = mkWorld (<[i := b']> (bookings w)) (counter w)
    ∧ (∀ j, j ≠ i → bookings w' !! j = bookings w !! j)
    ∧ length (bookings w') = length (bookings w)
    ∧ status b' = Cancelled
    ∧ cancellationReason b' = reason input
    ∧ cancelledAt b' = Some now
    ∧ _id b' = _id b
    ∧ bookingNumber b' = bookingNumber b
    ∧ listingType b' = listingType b
    ∧ listingId b' = listingId b
    ∧ listingTitle b' = listingTitle b
    ∧ checkIn b' = checkIn b
    ∧ checkOut b' = checkOut b
    ∧ guests b' = guests b
    ∧ guestDetails b' = guestDetails b
    ∧ specialRequests b' = specialRequests b
    ∧ pricing b' = pricing b
    ∧ paymentStatus b' = paymentStatus b
    ∧ (saved env b → nights b' = nights b ∧ totalGuests b' = totalGuests b
                     ∧ b' = withCancellation now input b).
Proof.
  rewrite cancelBooking_run. unfold findById, findOne.
  destruct (List.find _ (bookings w)) as [b|] eqn:Hfind; [|intros [=]].
  destruct (bool_decide (status b = Cancelled)); [intros [=]|].
  destruct (bool_decide (status b = Completed)); [intros [=]|].
  destruct (schema_errors env _); [|intros [=]].
  set (b' := preSave env (withCancellation now input b)).
  intros [= <- <- <- <-].
  assert (Hid : _id b' = id).
  { unfold b'. destruct (preSave_fields env (withCancellation now input b)) as (-> & _).
    destruct (withCancellation_fields now input b) as (-> & _).
    by apply find_by_id in Hfind as [_ ?]. }
  pose proof Hfind as Hfind'. rewrite <- Hid in Hfind'.
  destruct (updateOne_found b' _ _ Hfind') as (i & Hi & ->).
  exists i, b, b'. cbn [bookings counter].
  split; [done|]. split; [done|]. split; [done|].
  split; [by intros j Hj; apply list_lookup_insert_ne|].
  split; [by apply length_insert|].
  unfold b'.
  destruct (preSave_fields env (withCancellation now input b))
    as (-> & -> & -> & -> & -> & -> & -> & -> & -> & -> & -> & -> & -> & -> & ->).
  destruct (withCancellation_fields now input b)
    as (-> & -> & -> & -> & -> & -> & -> & -> & -> & -> & -> & -> & _ & _ & -> & -> & ->).
  split_and!; try done.
  intros Hsaved. rewrite preSave_withCancellation, Hsaved.
  destruct (withCancellation_fields now input b)
    as (_ & _ & _ & _ & _ & _ & _ & _ & _ & _ & _ & _ & -> & -> & _).
  done.
Qed.

(** ** Properties of creation *)

Lemma satisfied_no_fieldErrors input :
  (∀ c, satisfies input c) → fieldErrors input ≠ [] → False.
Proof. intros H Hne. by apply Hne, fieldErrors_nil. Qed.

Lemma date_errors_not_field_errors input :
  (checkInNotFuture ∉ fieldErrors input) ∧ (checkOutNotAfter ∉ fieldErrors input).
Proof.
  unfold fieldErrors. split; intros (c & Heq & _)%list_elem_of_fmap;
    destruct c; discriminate.
Qed.

Lemma createBooking_fields_rejected env now oid input w c :
  ¬ satisfies input c →
  run (createBooking env now oid input) w
  = (Return (sendError "Validation failed" 400 (Some (fieldErrors input))), w).
Proof.
  intros Hc.
  destruct (createBooking_outcome env now oid input w) as (r & w' & -> & Hout).
  destruct Hout as [| ? Hv | ? ? Hv | Hv | ? ? ? Hv | ? ? ? Hv | ? ? ? Hv];
    try (by destruct Hc); done.
Qed.

Lemma createBooking_checkIn_rejected env now oid input w ci :
  (∀ c, satisfies input c) →
  Date_parse env (CreateBookingInput.checkIn input) = Some ci → ci ≤ now →
  run (createBooking env now oid input) w
  = (Return (sendError "Validation failed" 400 (Some [checkInNotFuture])), w).
Proof.
  intros Hvalid Hci Hnow.
  destruct (createBooking_outcome env now oid input w) as (r & w' & -> & Hout).
  destruct Hout; simplify_eq; try done; try lia.
  - by exfalso; eapply satisfied_no_fieldErrors.
  - exfalso. match goal with H : ∀ _, _ = Some _ → _ |- _ => specialize (H ci Hci) end. lia.
Qed.

Lemma createBooking_checkOut_rejected env now oid input w ci co :
  (∀ c, satisfies input c) →
  Date_parse env (CreateBookingInput.checkIn input) = Some ci →
  Date_parse env (CreateBookingInput.checkOut input) = Some co →
  now < ci → co ≤ ci →
  run (createBooking env now oid input) w
  = (Return (sendError "Validation failed" 400 (Some [checkOutNotAfter])), w).
Proof.
  intros Hvalid Hci Hco Hnow Hlen.
  destruct (createBooking_outcome env now oid input w) as (r & w' & -> & Hout).
  destruct Hout; simplify_eq; try done; try lia.
  - by exfalso; eapply satisfied_no_fieldErrors.
  - exfalso. match goal with H : _ ∨ _ |- _ => destruct H; congruence end.
Qed.

(** C4.  [createBooking] validates in two phases.  If at least one of the
    seven field checks fails, the response is the validation error that
    carries [fieldErrors input]: an entry for every failed check and for no
    other, whatever the dates are; the two date-range errors are never part
    of that list.  If all field checks pass, a check-in that is not strictly
    after the current time yields the check-in error alone, and otherwise a
    check-out that is not strictly after the check-in yields the check-out
    error alone.  In all these cases the world is unchanged. *)
Theorem createBooking_two_phase (env : Env) (now : Z) (oid : ObjectId)
    (input : CreateBookingInput.t) (w : World) :
  ((∃ c, ¬ satisfies input c) →
     run (createBooking env now oid input) w
     = (Return (sendError "Validation failed" 400 (Some (fieldErrors input))), w)
     ∧ (∀ c, errorOf c ∈ fieldErrors input ↔ ¬ satisfies input c)
     ∧ (checkInNotFuture ∉ fieldErrors input)
     ∧ (checkOutNotAfter ∉ fieldErrors input))
  ∧ ((∀ c, satisfies input c) →
     (∀ ci, Date_parse env (CreateBookingInput.checkIn input) = Some ci → ci ≤ now →
        run (createBooking env now oid input) w
        = (Return (sendError "Validation failed" 400 (Some [checkInNotFuture])), w))
     ∧ (∀ ci co,
          Date_parse env (CreateBookingInput.checkIn input) = Some ci →
          Date_parse env (CreateBookingInput.checkOut input) = Some co →
          now < ci → co ≤ ci →
          run (createBooking env now oid input) w
          = (Return (sendError "Validation failed" 400 (Some [checkOutNotAfter])), w))).
Proof.
  split.
  - intros [c Hc].
    split; [by eapply createBooking_fields_rejected|].
    split; [apply fieldErrors_complete|apply date_errors_not_field_errors].
  - intros Hvalid. split.
    + intros ci. by apply createBooking_checkIn_rejected.
    + intros ci co. by apply createBooking_checkOut_rejected.
Qed.

(** C10.  When all field checks pass and both date rules are violated (the
    check-in is not after the current time and the check-out is not after
    the check-in), the response carries exactly the check-in error; the
    check-out error is not in it. *)
Theorem checkIn_error_takes_precedence (env : Env) (now : Z) (oid : ObjectId)
    (input : CreateBookingInput.t) (w : World) (ci co : Z) :
  (∀ c, satisfies input c) →
  Date_parse env (CreateBookingInput.checkIn input) = Some ci →
  Date_parse env (CreateBookingInput.checkOut input) = Some co →
  ci ≤ now → co ≤ ci →
  ∃ errors,
    run (createBooking env now oid input) w
    = (Return (sendError "Validation failed" 400 (Some errors)), w)
    ∧ errors = [checkInNotFuture]
    ∧ (checkOutNotAfter ∉ errors).
Proof.
  intros Hvalid Hci Hco Hnow Hlen. exists [checkInNotFuture].
  split; [by eapply createBooking_checkIn_rejected|]. split; [done|].
  intros [=]%list_elem_of_singleton.
Qed.

Lemma createBooking_created env now oid input w ci co :
  (∀ c, satisfies input c) →
  Date_parse env (CreateBookingInput.checkIn input) = Some ci →
  Date_parse env (CreateBookingInput.checkOut input) = Some co →
  now < ci → ci < co →
  hasDateConflict (CreateBookingInput.listingId input) ci co None w = (Return None, w) →
  let doc := BookingModel_new oid (counter w + 1) input
               (resolvedTitle env (CreateBookingInput.listingType input)
                                  (CreateBookingInput.listingId input)) ci co in
  schema_errors env doc = [] →
  run (createBooking env now oid input) w
  = (Return (sendSuccess (BookingData (preSave env doc)) 201 "Booking created successfully"),
     mkWorld (bookings w ++ [preSave env doc]) (counter w + 1)).
Proof.
  intros Hvalid Hci Hco Hnow Hlen Hnone doc Hschema.
  rewrite hasDateConflict_run in Hnone. injection Hnone as Hnone.
  apply find_no_conflict in Hnone. rewrite Forall_forall in Hnone.
  destruct (createBooking_outcome env now oid input w) as (r & w' & -> & Hout).
  destruct Hout; simplify_eq; try done; try lia.
  - by exfalso; eapply satisfied_no_fieldErrors.
  - exfalso. match goal with H : _ ∨ _ |- _ => destruct H; congruence end.
  - exfalso. by eapply Hnone.
Qed.

Lemma created_inv env now oid input w r w' :
  run (createBooking env now oid input) w = (Return r, w') → created r →
  ∃ ci co doc,
    Date_parse env (CreateBookingInput.checkIn input) = Some ci
    ∧ Date_parse env (CreateBookingInput.checkOut input) = Some co
    ∧ Forall (λ b, ¬ conflictsWith (CreateBookingInput.listingId input) ci co None b)
             (bookings w)
    ∧ bookings w' = bookings w ++ [doc]
    ∧ listingId doc = CreateBookingInput.listingId input
    ∧ checkIn doc = ci ∧ checkOut doc = co ∧ status doc = Pending.
Proof.
  intros Hrun [b ->].
  apply createBooking_inv in Hrun as (resp & [= <-] & Hout).
  inversion Hout; subst. eexists ci, co, _.
  split_and!; [done|done|done|reflexivity|reflexivity..].
Qed.

(** C1, as amended.  Serving any sequence of [createBooking] and
    [cancelBooking] requests one after the other, each request having
    responded before the next one begins, preserves the invariant that the
    active (not cancelled) bookings of a listing have pairwise disjoint stays
    [[checkIn, checkOut)].  Cancellation keeps it because it only makes a
    booking inactive; creation keeps it because it is rejected whenever an
    active booking of the same listing overlaps the requested range, which
    is the second part of the statement.  For requests whose awaits
    interleave the invariant can be lost, see the counterexample. *)
Theorem serve_preserves_NoDoubleBooking (env : Env) (ops : list Op) (w : World) :
  NoDoubleBooking (bookings w) →
  NoDoubleBooking (bookings (serve env ops w))
  ∧ (∀ now oid input ci co b r w',
       run (createBooking env now oid input) w = (Return r, w') →
       Date_parse env (CreateBookingInput.checkIn input) = Some ci →
       Date_parse env (CreateBookingInput.checkOut input) = Some co →
       b ∈ bookings w →
       listingId b = CreateBookingInput.listingId input →
       status b ≠ Cancelled →
       checkIn b < co → ci < checkOut b →
       ¬ created r).
Proof.
  intros Hinv. split.
  - revert w Hinv. induction ops as [|op ops IH]; intros w Hinv; [done|].
    cbn [serve]. apply IH.
    destruct op; [by apply createBooking_preserves|by apply cancelBooking_preserves].
  - intros now oid input ci co b r w' Hrun Hci Hco Hin Hl Hst Ho1 Ho2 Hcreated.
    destruct (created_inv _ _ _ _ _ _ _ Hrun Hcreated)
      as (ci' & co' & doc & Hci' & Hco' & Hnone & _).
    simplify_eq. rewrite Forall_forall in Hnone. apply (Hnone b Hin).
    unfold conflictsWith. split_and!; [done|done|intros ? [=]|lia|lia].
Qed.

Lemma serial_exclusive env nowA nowB oidA oidB inputA inputB w w1 w2 rA rB a1 a2 b1 b2 :
  run (createBooking env nowA oidA inputA) w = (Return rA, w1) →
  run (createBooking env nowB oidB inputB) w1 = (Return rB, w2) →
  CreateBookingInput.listingId inputA = CreateBookingInput.listingId inputB →
  Date_parse env (CreateBookingInput.checkIn inputA) = Some a1 →
  Date_parse env (CreateBookingInput.checkOut inputA) = Some a2 →
  Date_parse env (CreateBookingInput.checkIn inputB) = Some b1 →
  Date_parse env (CreateBookingInput.checkOut inputB) = Some b2 →
  a1 < b2 → b1 < a2 →
  ¬ (created rA ∧ created rB).
Proof.
  intros HA HB Hl Ha1 Ha2 Hb1 Hb2 Ho1 Ho2 [HcA HcB].
  destruct (created_inv _ _ _ _ _ _ _ HA HcA)
    as (? & ? & docA & ? & ? & _ & Hw1 & HlA & HciA & HcoA & HstA).
  destruct (created_inv _ _ _ _ _ _ _ HB HcB)
    as (? & ? & docB & ? & ? & Hnone & _).
  simplify_eq. rewrite Hw1, Forall_app, Forall_singleton in Hnone.
  destruct Hnone as [_ Hnone]. apply Hnone.
  unfold conflictsWith. rewrite HstA. split_and!; [congruence|done|intros ? [=]|lia|lia].
Qed.

(** A creation request has responded after four resumptions: the conflict
    query, the title lookup, the counter and the save. *)
Lemma createBooking_four_advances env now oid input w :
  ∃ r w', advances 4 (createBooking env now oid input) w = (Finish r, w').
Proof.
  unfold createBooking. rewrite basicValidation_fieldErrors.
  destruct (fieldErrors input) as [|e errs]; cbn [length Nat.ltb Nat.leb];
    [|by eexists _, _].
  destruct (Date_parse env (CreateBookingInput.checkIn input)) as [ci|];
    destruct (Date_parse env (CreateBookingInput.checkOut input)) as [co|];
    cbn [Js.Date_le]; try (by eexists _, _).
  - destruct (ci <=? now); [by eexists _, _|].
    destruct (co <=? ci); [by eexists _, _|].
    cbn [advances]. unfold advance. cbn [step].
    unfold mbind, M_bind, mret, M_ret. rewrite hasDateConflict_run.
    destruct (List.find _ (bookings w)) as [b|]; [by eexists _, _|].
    cbn [step]. unfold mbind, M_bind, mret, M_ret. rewrite getListingTitle_run.
    unfold getNextBookingNumber. cbv zeta. cbn [step bookings counter].
    unfold mbind, M_bind, mret, M_ret, save. cbn [bookings counter].
    destruct (schema_errors env _); by eexists _, _.
  - destruct (ci <=? now); by eexists _, _.
Qed.

Lemma createBooking_responds env now oid input w n :
  (4 ≤ n)%nat →
  ∃ r w', advances n (createBooking env now oid input) w = (Finish r, w').
Proof.
  intros Hn. replace n with (4 + (n - 4))%nat by lia. rewrite advances_add.
  destruct (createBooking_four_advances env now oid input w) as (r & w' & ->).
  cbn [fst snd]. rewrite advances_Finish. by eexists _, _.
Qed.

(** C3, as amended.  Take two creation requests for the same listing with
    overlapping date ranges, and a schedule that resumes only the first
    request and then only the second (the requests are served one after the
    other).  If both have responded at the end of the schedule, at most one
    of the responses reports a created booking; and four turns for each
    request are enough for both to have responded.  The conflict check and
    the insert are separate awaited steps with no lock between them, so the
    guarantee is one of requests that do not interleave. *)
Theorem createBooking_serial_exclusive (env : Env) (nowA nowB : Z) (oidA oidB : ObjectId)
    (inputA inputB : CreateBookingInput.t) (w : World) (n m : nat)
    (a1 a2 b1 b2 : Z) :
  CreateBookingInput.listingId inputA = CreateBookingInput.listingId inputB →
  Date_parse env (CreateBookingInput.checkIn inputA) = Some a1 →
  Date_parse env (CreateBookingInput.checkOut inputA) = Some a2 →
  Date_parse env (CreateBookingInput.checkIn inputB) = Some b1 →
  Date_parse env (CreateBookingInput.checkOut inputB) = Some b2 →
  a1 < b2 → b1 < a2 →
  (∀ rA rB w2,
     interleave (replicate n First ++ replicate m Second)
       (createBooking env nowA oidA inputA) (createBooking env nowB oidB inputB) w
     = (Finish rA, Finish rB, w2) →
     ¬ (created rA ∧ created rB))
  ∧ ((4 ≤ n)%nat → (4 ≤ m)%nat →
     ∃ rA rB w2,
       interleave (replicate n First ++ replicate m Second)
         (createBooking env nowA oidA inputA) (createBooking env nowB oidB inputB) w
       = (Finish rA, Finish rB, w2)).
Proof.
  intros Hl Ha1 Ha2 Hb1 Hb2 Ho1 Ho2. rewrite interleave_serial. split.
  - intros rA rB w2 [= HA HB Hw2].
    pose proof (run_advances n (createBooking env nowA oidA inputA) w) as HrunA.
    rewrite HA in HrunA. cbn [run] in HrunA.
    pose proof (run_advances m (createBooking env nowB oidB inputB)
                  (advances n (createBooking env nowA oidA inputA) w).2) as HrunB.
    rewrite HB, Hw2 in HrunB. cbn [run] in HrunB.
    by eapply (serial_exclusive env nowA nowB oidA oidB inputA inputB).
  - intros Hn Hm.
    destruct (createBooking_responds env nowA oidA inputA w n Hn) as (rA & w1 & ->).
    cbn [fst snd].
    destruct (createBooking_responds env nowB oidB inputB w1 m Hm) as (rB & w2 & ->).
    by eexists _, _, _.
Qed.

Lemma some_conflict_found listing c d exclude bs x :
  x ∈ bs → conflictsWith listing c d exclude x →
  ∃ b, List.find (conflictQuery listing c d exclude) bs = Some b.
Proof.
  intros Hin Hc. destruct (List.find _ bs) as [b|] eqn:Hfind; [by exists b|].
  apply find_no_conflict in Hfind. rewrite Forall_forall in Hfind.
  by destruct (Hfind x Hin).
Qed.

(** The conflict branch of [createBooking]: the response to a valid request
    for which the conflict query returns a booking. *)
Lemma createBooking_conflict env now oid input w ci co b :
  (∀ c, satisfies input c) →
  Date_parse env (CreateBookingInput.checkIn input) = Some ci →
  Date_parse env (CreateBookingInput.checkOut input) = Some co →
  now < ci → ci < co →
  hasDateConflict (CreateBookingInput.listingId input) ci co None w = (Return (Some b), w) →
  run (createBooking env now oid input) w
  = (Return (json 409 false "The selected dates are not available"
       {| requestedCheckIn := CreateBookingInput.checkIn input;
          requestedCheckOut := CreateBookingInput.checkOut input;
          conflictingBooking :=
            {| ConflictingBooking.id := _id b;
               ConflictingBooking.checkIn := Some (Js.isoDate (Js.Day (checkIn b)));
               ConflictingBooking.checkOut := Some (Js.isoDate (Js.Day (checkOut b))) |} |}),
     w).
Proof.
  intros Hvalid Hci Hco Hnow Hlen Hfound.
  unfold createBooking. cbn [run]. unfold try_catch.
  rewrite basicValidation_fieldErrors, (proj2 (fieldErrors_nil input) Hvalid).
  cbn [length Nat.ltb Nat.leb]. rewrite Hci, Hco. cbn [Js.Date_le].
  destruct (Z.leb_spec ci now); [lia|]. destruct (Z.leb_spec co ci); [lia|].
  cbn [run]. unfold mbind, M_bind. rewrite Hfound. cbn [run].
  by rewrite !toISOString_date.
Qed.

(** C7, as amended.  A valid creation request that the conflict check
    rejects, that is one whose requested range conflicts with a stored
    booking, is answered with status 409 and leaves the world unchanged.
    The payload carries the requested check-in and check-out exactly as the
    request supplied them, and a summary of the booking that the conflict
    query returned: its id and its check-in and check-out at calendar-day
    precision, that is the [YYYY-MM-DD] rendering of the UTC day of each
    date.  Conversely, every response of that form is such a rejection. *)
Theorem conflict_payload (env : Env) (now : Z) (oid : ObjectId)
    (input : CreateBookingInput.t) (w : World) :
  (∀ (ci co : Z) (x : Booking),
     (∀ c, satisfies input c) →
     Date_parse env (CreateBookingInput.checkIn input) = Some ci →
     Date_parse env (CreateBookingInput.checkOut input) = Some co →
     now < ci → ci < co →
     x ∈ bookings w →
     conflictsWith (CreateBookingInput.listingId input) ci co None x →
     ∃ b : Booking,
       hasDateConflict (CreateBookingInput.listingId input) ci co None w
       = (Return (Some b), w)
       ∧ b ∈ bookings w
       ∧ conflictsWith (CreateBookingInput.listingId input) ci co None b
       ∧ run (createBooking env now oid input) w
         = (Return (json 409 false "The selected dates are not available"
              {| requestedCheckIn := CreateBookingInput.checkIn input;
                 requestedCheckOut := CreateBookingInput.checkOut input;
                 conflictingBooking :=
                   {| ConflictingBooking.id := _id b;
                      ConflictingBooking.checkIn :=
                        Some (Js.isoDate (Js.Day (checkIn b)));
                      ConflictingBooking.checkOut :=
                        Some (Js.isoDate (Js.Day (checkOut b))) |} |}),
            w)
       ∧ calendarDay (Js.isoDate (Js.Day (checkIn b)))
       ∧ calendarDay (Js.isoDate (Js.Day (checkOut b))))
  ∧ (∀ (w' : World) (code : Z) (ok : bool) (msg : string) (details : ConflictDetails),
       run (createBooking env now oid input) w = (Return (json code ok msg details), w') →
       w' = w ∧ code = 409
       ∧ requestedCheckIn details = CreateBookingInput.checkIn input
       ∧ requestedCheckOut details = CreateBookingInput.checkOut input
       ∧ ∃ (b : Booking) (ci co : Z),
           Date_parse env (CreateBookingInput.checkIn input) = Some ci
           ∧ Date_parse env (CreateBookingInput.checkOut input) = Some co
           ∧ b ∈ bookings w
           ∧ conflictsWith (CreateBookingInput.listingId input) ci co None b
           ∧ ConflictingBooking.id (conflictingBooking details) = _id b
           ∧ ConflictingBooking.checkIn (conflictingBooking details)
             = Some (Js.isoDate (Js.Day (checkIn b)))
           ∧ ConflictingBooking.checkOut (conflictingBooking details)
             = Some (Js.isoDate (Js.Day (checkOut b)))
           ∧ calendarDay (Js.isoDate (Js.Day (checkIn b)))
           ∧ calendarDay (Js.isoDate (Js.Day (checkOut b)))).
Proof.
  split.
  - intros ci co x Hvalid Hci Hco Hnow Hlen Hin Hx.
    destruct (some_conflict_found _ _ _ _ _ _ Hin Hx) as [b Hfind]. exists b.
    pose proof (find_first_conflict _ _ _ _ _ _ Hfind) as [Hb Hc].
    assert (Hdet : hasDateConflict (CreateBookingInput.listingId input) ci co None w
                   = (Return (Some b), w))
      by (by rewrite hasDateConflict_run, Hfind).
    split_and!; [done|done|done| |by eexists|by eexists].
    by apply createBooking_conflict with ci co.
  - intros w' code ok msg details Hrun.
    apply createBooking_inv in Hrun as (resp & [= <-] & Hout).
    inversion Hout; subst.
    cbn [requestedCheckIn requestedCheckOut conflictingBooking ConflictingBooking.id
         ConflictingBooking.checkIn ConflictingBooking.checkOut].
    do 4 (split; [reflexivity|]). exists b, ci, co.
    do 7 (split; [assumption || reflexivity|]).
    split; eexists; reflexivity.
Qed.

(** C8.  Title resolution is best-effort.  [getListingTitle] never throws:
    it always resolves, without touching the world, and it resolves to no
    title when the lookup fails or finds nothing (unknown listing type,
    rejected lookup, no such listing).  For a request that passes field and
    date validation and the conflict check, such a lookup does not make
    [createBooking] fail: provided the schema accepts the document without
    a title, the booking is created and stored with no [listingTitle], with
    status pending and payment status pending. *)
Theorem title_resolution_best_effort (env : Env) :
  (∀ listingType listingId w,
     ∃ title, getListingTitle env listingType listingId w = (Return title, w)
              ∧ (titleLookupFails env listingType listingId → title = None))
  ∧ (∀ now oid input w ci co,
       (∀ c, satisfies input c) →
       Date_parse env (CreateBookingInput.checkIn input) = Some ci →
       Date_parse env (CreateBookingInput.checkOut input) = Some co →
       now < ci → ci < co →
       hasDateConflict (CreateBookingInput.listingId input) ci co None w
       = (Return None, w) →
       titleLookupFails env (CreateBookingInput.listingType input)
                            (CreateBookingInput.listingId input) →
       schema_errors env (BookingModel_new oid (counter w + 1) input None ci co) = [] →
       ∃ b : Booking,
         run (createBooking env now oid input) w
         = (Return (sendSuccess (BookingData b) 201 "Booking created successfully"),
            mkWorld (bookings w ++ [b]) (counter w + 1))
         ∧ listingTitle b = None
         ∧ status b = Pending
         ∧ paymentStatus b = "pending").
Proof.
  assert (Hnone : ∀ listingType listingId,
            titleLookupFails env listingType listingId →
            resolvedTitle env listingType listingId = None).
  { intros lt lid. unfold titleLookupFails, resolvedTitle.
    destruct (listingLookup env lt lid) as [[e| |label]|]; done. }
  split.
  - intros lt lid w. exists (resolvedTitle env lt lid).
    split; [apply getListingTitle_run|apply Hnone].
  - intros now oid input w ci co Hvalid Hci Hco Hnow Hlen Hfree Hfail Hschema.
    apply Hnone in Hfail. eexists. split.
    + apply createBooking_created; try done. by rewrite Hfail.
    + rewrite Hfail. done.
Qed.

(** ** Saved documents *)

Lemma preSave_idempotent env b : saved env (preSave env b).
Proof. unfold saved. destruct b; reflexivity. Qed.

Lemma serve_preserves_saved env ops w :
  Forall (saved env) (bookings w) → Forall (saved env) (bookings (serve env ops w)).
Proof.
  revert w. induction ops as [|op ops IH]; intros w Hinv; [done|].
  cbn [serve]. apply IH. destruct op as [now oid input|now id input]; cbn [handler].
  - destruct (createBooking_outcome env now oid input w) as (r & w' & -> & Hout).
    cbn [snd]. destruct Hout; cbn [bookings]; try done.
    apply Forall_app. split; [done|]. apply Forall_singleton, preSave_idempotent.
  - rewrite cancelBooking_run.
    destruct (List.find _ (bookings w)) as [b|] eqn:Hfind; [|done].
    destruct (bool_decide (status b = Cancelled)); [done|].
    destruct (bool_decide (status b = Completed)); [done|].
    destruct (schema_errors env _); [|done].
    cbn [snd bookings].
    destruct (updateOne_cancelled env now input id _ _ Hfind) as (i & _ & ->).
    apply Forall_insert; [done|apply preSave_idempotent].
Qed.

(** ** The scenarios of the specification, evaluated *)

Example bookedWorld_eq : bookedWorld = mkWorld [bookingA] 1001.
Proof. vm_compute. reflexivity. Qed.

Example touching_stays_both_succeed :
  ∃ b, fst (run (createBooking sampleEnv now2030 "id2" stayB) bookedWorld)
       = Return (sendSuccess (BookingData b) 201 "Booking created successfully").
Proof. eexists. vm_compute. reflexivity. Qed.

Example overlap_is_rejected :
  ∃ details, fst (run (createBooking sampleEnv now2030 "id4" stayD) bookedWorld)
             = Return (json 409 false "The selected dates are not available" details)
             ∧ ConflictingBooking.id (conflictingBooking details) = "id1".
Proof. eexists. split; vm_compute; reflexivity. Qed.

Example cancellation_frees_the_interval :
  ∃ b, fst (run (createBooking sampleEnv now2030 "id4" stayD) cancelledWorld)
       = Return (sendSuccess (BookingData b) 201 "Booking created successfully").
Proof. eexists. vm_compute. reflexivity. Qed.

Example unparseable_date_is_a_server_error :
  fst (run (createBooking sampleEnv now2030 "id9" (sampleInput "h1" "soon" "2030-06-18"))
         emptyWorld)
  = Return (sendError "Failed to create booking" 500 None).
Proof. vm_compute. reflexivity. Qed.

Lemma satisfies_sampleInput listing from to :
  listing ≠ "" → from ≠ "" → to ≠ "" → ∀ c, satisfies (sampleInput listing from to) c.
Proof.
  intros ? ? ? c. destruct c; cbn; try done; [by left|eexists; split; [done|cbn; lia]|
    eexists; split; [done|done]..].
Defined.

(** ** The theorems at concrete inputs *)

Lemma NoDoubleBooking_nil : NoDoubleBooking [].
Proof. intros i j a b _ Hi. rewrite lookup_nil in Hi. discriminate. Defined.

Lemma serve_preserves_NoDoubleBooking_witness :
  NoDoubleBooking (bookings emptyWorld)
  ∧ NoDoubleBooking (bookings (serve sampleEnv sampleOps emptyWorld)).
Proof.
  split; [apply NoDoubleBooking_nil|].
  apply (serve_preserves_NoDoubleBooking sampleEnv sampleOps emptyWorld
           NoDoubleBooking_nil).
Defined.

(** C1, counterexample.  The store holds one booking and satisfies the
    invariant.  Two creation requests for overlapping stays of the same
    listing, neither of which overlaps the stored booking, are resumed in
    turn, so that both run their conflict check before either saves.  Both
    are answered with a created booking, and the store, with three bookings
    now, no longer satisfies the invariant. *)
Lemma interleaved_creations_break_the_invariant :
  NoDoubleBooking (bookings bookedWorld)
  ∧ ∃ a b w',
      interleave raceSchedule
        (createBooking sampleEnv now2030 "id2" stayB)
        (createBooking sampleEnv now2030 "id5" stayE) bookedWorld
      = (Finish (sendSuccess (BookingData a) 201 "Booking created successfully"),
         Finish (sendSuccess (BookingData b) 201 "Booking created successfully"), w')
      ∧ bookings w' = bookings bookedWorld ++ [a; b]
      ∧ ¬ NoDoubleBooking (bookings w').
Proof.
  split.
  - rewrite bookedWorld_eq. intros i j a b Hij Hi Hj.
    destruct i as [|i], j as [|j]; cbn in Hi, Hj; try done;
      rewrite lookup_nil in *; discriminate.
  - eexists _, _, _. split; [vm_compute; reflexivity|].
    split; [vm_compute; reflexivity|].
    intros H.
    apply (H 1%nat 2%nat _ _ ltac:(done) eq_refl eq_refl eq_refl
             ltac:(discriminate) ltac:(discriminate) 1907971200000).
    unfold inStay; cbn; lia.
Qed.

Example sampleOps_bookings :
  map (λ b, (_id b, status b)) (bookings (serve sampleEnv sampleOps emptyWorld))
  = [("id1", Cancelled); ("id2", Pending); ("id4", Pending)].
Proof. vm_compute. reflexivity. Qed.

(** C3, counterexample.  Two requests for overlapping stays of the same
    listing, interleaved so that both run their conflict check before either
    saves, both succeed; the store then holds two active overlapping
    bookings of that listing. *)
Lemma createBooking_race :
  ∃ a b w',
    interleave raceSchedule
      (createBooking sampleEnv now2030 "id1" stayA)
      (createBooking sampleEnv now2030 "id4" stayD) emptyWorld
    = (Finish (sendSuccess (BookingData a) 201 "Booking created successfully"),
       Finish (sendSuccess (BookingData b) 201 "Booking created successfully"), w')
    ∧ bookings w' = [a; b]
    ∧ listingId a = listingId b ∧ active a ∧ active b
    ∧ inStay a 1907452800000 ∧ inStay b 1907452800000
    ∧ ¬ NoDoubleBooking (bookings w').
Proof.
  eexists _, _, _. split; [vm_compute; reflexivity|].
  split; [reflexivity|]. split; [reflexivity|].
  split; [discriminate|]. split; [discriminate|].
  split; [unfold inStay; cbn; lia|]. split; [unfold inStay; cbn; lia|].
  intros H.
  apply (H 0%nat 1%nat _ _ ltac:(done) eq_refl eq_refl eq_refl
           ltac:(discriminate) ltac:(discriminate) 1907452800000).
  unfold inStay; cbn; lia.
Qed.

Lemma createBooking_serial_exclusive_witness :
  ∃ rA rB,
    interleave (replicate 4 First ++ replicate 4 Second)
      (createBooking sampleEnv now2030 "id1" stayA)
      (createBooking sampleEnv now2030 "id4" stayD) emptyWorld
    = (Finish rA, Finish rB, bookedWorld)
    ∧ created rA
    ∧ ¬ (created rA ∧ created rB).
Proof.
  eexists _, _.
  split; [vm_compute; reflexivity|]. split; [by eexists|].
  eapply (proj1 (createBooking_serial_exclusive sampleEnv now2030 now2030 "id1" "id4"
                   stayA stayD emptyWorld 4 4
                   1907280000000 1907712000000 1907452800000 1907971200000
                   eq_refl _ _ _ _ _ _)).
  vm_compute; reflexivity.
  Unshelve. all: solve [vm_compute; reflexivity | lia].
Defined.

Lemma cancelBooking_guard_witness :
  run (cancelBooking sampleEnv now2030 "id1" changeOfPlans) cancelledWorld
  = (Return (sendError "This booking is already cancelled" 400 None), cancelledWorld)
  ∧ (∀ msg code errs,
       Return (sendError "This booking is already cancelled" 400 None)
       = Return (sendError msg code errs) → cancelledWorld = cancelledWorld).
Proof.
  split; [vm_compute; reflexivity|].
  apply (cancelBooking_guard sampleEnv now2030 "id1" changeOfPlans
           cancelledWorld cancelledWorld
           (Return (sendError "This booking is already cancelled" 400 None))).
  vm_compute; reflexivity.
Defined.

Lemma cancelBooking_effect_witness :
  findById "id1" bookedWorld = (Return (Some bookingA), bookedWorld)
  ∧ status bookingA = Pending
  ∧ ∃ (i : nat) (b' : Booking),
      bookings bookedWorld !! i = Some bookingA
      ∧ run (cancelBooking sampleEnv now2030 "id1" changeOfPlans) bookedWorld
        = (Return (sendSuccess
                     (CancellationData
                        {| Cancellation._id := _id bookingA;
                           Cancellation.status := Cancelled;
                           Cancellation.cancellationReason := reason changeOfPlans;
                           Cancellation.cancelledAt := Some now2030;
                           Cancellation.refundAmount := total (pricing bookingA);
                           Cancellation.refundStatus := "pending" |})
                     200 "Booking cancelled successfully"),
           mkWorld (<[i := b']> (bookings bookedWorld)) (counter bookedWorld))
      ∧ status b' = Cancelled
      ∧ cancellationReason b' = reason changeOfPlans
      ∧ cancelledAt b' = Some now2030
      ∧ pricing b' = pricing bookingA
      ∧ paymentStatus b' = paymentStatus bookingA.
Proof.
  split; [vm_compute; reflexivity|]. split; [reflexivity|].
  apply (cancelBooking_effect sampleEnv now2030 "id1" changeOfPlans bookedWorld bookingA).
  - vm_compute; reflexivity.
  - left; reflexivity.
  - reflexivity.
Defined.

Lemma cancelBooking_frame_witness :
  ∃ data, run (cancelBooking sampleEnv now2030 "id1" changeOfPlans) bookedWorld
          = (Return (sendSuccess data 200 "Booking cancelled successfully"), cancelledWorld)
  ∧ ∃ (i : nat) (b b' : Booking),
      findById "id1" bookedWorld = (Return (Some b), bookedWorld)
      ∧ bookings bookedWorld !! i = Some b
      ∧ cancelledWorld = mkWorld (<[i := b']> (bookings bookedWorld)) (counter bookedWorld)
      ∧ paymentStatus b' = paymentStatus b
      ∧ (saved sampleEnv b → b' = withCancellation now2030 changeOfPlans b).
Proof.
  eexists. split; [vm_compute; reflexivity|].
  destruct (cancelBooking_frame sampleEnv now2030 "id1" changeOfPlans bookedWorld
              cancelledWorld _ 200 "Booking cancelled successfully"
              ltac:(vm_compute; reflexivity))
    as (i & b & b' & H1 & H2 & H3 & _ & _ & _ & _ & _ & _ & _ & _ & _ & _ & _ & _
        & _ & _ & _ & _ & H4 & H5).
  exists i, b, b'. split_and!; [done|done|done|done|]. intros Hs. by apply H5.
Defined.

Lemma conflict_payload_witness :
  ∃ b : Booking,
    hasDateConflict (CreateBookingInput.listingId stayC) 1907505000000 1907971200000 None
      bookedWorld
    = (Return (Some b), bookedWorld)
    ∧ b ∈ bookings bookedWorld
    ∧ conflictsWith (CreateBookingInput.listingId stayC) 1907505000000 1907971200000 None b
    ∧ run (createBooking sampleEnv now2030 "id3" stayC) bookedWorld
      = (Return (json 409 false "The selected dates are not available"
           {| requestedCheckIn := CreateBookingInput.checkIn stayC;
              requestedCheckOut := CreateBookingInput.checkOut stayC;
              conflictingBooking :=
                {| ConflictingBooking.id := _id b;
                   ConflictingBooking.checkIn := Some (Js.isoDate (Js.Day (checkIn b)));
                   ConflictingBooking.checkOut := Some (Js.isoDate (Js.Day (checkOut b))) |} |}),
         bookedWorld)
    ∧ calendarDay (Js.isoDate (Js.Day (checkIn b)))
    ∧ calendarDay (Js.isoDate (Js.Day (checkOut b))).
Proof.
  apply (proj1 (conflict_payload sampleEnv now2030 "id3" stayC bookedWorld)
           1907505000000 1907971200000 bookingA).
  - apply satisfies_sampleInput; discriminate.
  - vm_compute; reflexivity.
  - vm_compute; reflexivity.
  - unfold now2030; lia.
  - lia.
  - rewrite bookedWorld_eq. apply list_elem_of_singleton. reflexivity.
  - apply conflictQuery_spec. vm_compute; reflexivity.
Defined.

(** C7, counterexample.  The requested check-in of the conflict payload is
    the text of the request; when that text carries a time of day, so does
    the payload. *)
Lemma requested_range_keeps_time_of_day :
  ∃ details,
    run (createBooking sampleEnv now2030 "id3" stayC) bookedWorld
    = (Return (json 409 false "The selected dates are not available" details), bookedWorld)
    ∧ requestedCheckIn details = "2030-06-12T14:30:00.000Z"
    ∧ ¬ calendarDay (requestedCheckIn details).
Proof.
  eexists. split; [vm_compute; reflexivity|]. split; [reflexivity|].
  apply not_calendarDay_of_T. cbn. do 10 right. left. reflexivity.
Qed.

Lemma title_resolution_best_effort_witness :
  titleLookupFails sampleEnv "homestay" "h2"
  ∧ ∃ b : Booking,
      run (createBooking sampleEnv now2030 "id5"
             (sampleInput "h2" "2030-06-10" "2030-06-15")) emptyWorld
      = (Return (sendSuccess (BookingData b) 201 "Booking created successfully"),
         mkWorld (bookings emptyWorld ++ [b]) (counter emptyWorld + 1))
      ∧ listingTitle b = None
      ∧ status b = Pending
      ∧ paymentStatus b = "pending".
Proof.
  split; [exact I|].
  apply (proj2 (title_resolution_best_effort sampleEnv) now2030 "id5"
           (sampleInput "h2" "2030-06-10" "2030-06-15") emptyWorld
           1907280000000 1907712000000).
  - apply satisfies_sampleInput; discriminate.
  - vm_compute; reflexivity.
  - vm_compute; reflexivity.
  - unfold now2030; lia.
  - lia.
  - vm_compute; reflexivity.
  - exact I.
  - reflexivity.
Defined.

Lemma checkIn_error_takes_precedence_witness :
  ∃ errors,
    run (createBooking sampleEnv now2030 "id6"
           (sampleInput "h1" "2029-06-18" "2028-06-18")) emptyWorld
    = (Return (sendError "Validation failed" 400 (Some errors)), emptyWorld)
    ∧ errors = [checkInNotFuture]
    ∧ (checkOutNotAfter ∉ errors).
Proof.
  apply (checkIn_error_takes_precedence sampleEnv now2030 "id6"
           (sampleInput "h1" "2029-06-18" "2028-06-18") emptyWorld
           1876435200000 1844899200000).
  - apply satisfies_sampleInput; discriminate.
  - vm_compute; reflexivity.
  - vm_compute; reflexivity.
  - unfold now2030; lia.
  - lia.
Defined.

Lemma createBooking_two_phase_witness :
  (∃ c, ¬ satisfies incompleteInput c)
  ∧ run (createBooking sampleEnv now2030 "id7" incompleteInput) emptyWorld
    = (Return (sendError "Validation failed" 400 (Some (fieldErrors incompleteInput))),
       emptyWorld)
  ∧ fieldErrors incompleteInput
    = [errorOf ListingTypeCheck; errorOf AdultsCheck; errorOf GuestEmailCheck].
Proof.
  assert (H : ∃ c, ¬ satisfies incompleteInput c).
  { exists ListingTypeCheck. intros [H|H]; discriminate. }
  split; [exact H|]. split; [|vm_compute; reflexivity].
  apply (proj1 (createBooking_two_phase sampleEnv now2030 "id7" incompleteInput emptyWorld) H).
Defined.

Example several_missing_fields_are_all_reported :
  fst (run (createBooking sampleEnv now2030 "id7" incompleteInput) emptyWorld)
  = Return (sendError "Validation failed" 400
              (Some [errorOf ListingTypeCheck; errorOf AdultsCheck; errorOf GuestEmailCheck])).
Proof. vm_compute. reflexivity. Qed.

(** * Further properties of the controllers *)

(** ** Reading bookings *)

Lemma getBookingById_run id w :
  run (getBookingById id) w =
  (Return match List.find (λ b, String.eqb (_id b) id) (bookings w) with
          | Some b => Reply.success b None None
          | None => Reply.error "Booking not found" 404 None
          end, w).
Proof.
  unfold getBookingById. cbn [run]. unfold try_catch, mbind, M_bind, findById, findOne.
  destruct (List.find _ (bookings w)); reflexivity.
Qed.

Lemma find_by_id_none id bs :
  List.find (λ b, String.eqb (_id b) id) bs = None ↔ ∀ b, b ∈ bs → _id b ≠ id.
Proof.
  split.
  - intros H b Hin. apply list_elem_of_In in Hin.
    pose proof (find_none _ _ H b Hin) as Hb. by apply String.eqb_neq.
  - intros H. destruct (List.find _ bs) as [b|] eqn:E; [|done].
    apply find_by_id in E as [Hin Hid]. by destruct (H b Hin).
Qed.

Lemma find_by_id_snoc id bs b :
  (∀ x, x ∈ bs → _id x ≠ id) → _id b = id →
  List.find (λ x, String.eqb (_id x) id) (bs ++ [b]) = Some b.
Proof.
  intros Hfresh Hid. induction bs as [|x bs IH]; cbn [app List.find].
  - by rewrite (proj2 (String.eqb_eq _ _) Hid).
  - rewrite (proj2 (String.eqb_neq _ _)) by (apply Hfresh; left).
    apply IH. intros y Hy. apply Hfresh. by right.
Qed.

Lemma find_by_id_updateOne_stored loaded doc bs b :
  List.find (λ x, String.eqb (_id x) (_id doc)) bs = Some b →
  List.find (λ x, String.eqb (_id x) (_id doc)) (updateOne loaded doc bs)
  = Some (writeModified loaded doc b).
Proof.
  unfold updateOne. induction bs as [|x bs IH]; [done|].
  cbn [List.find].
  change (list_find (λ b0, _id b0 = _id doc) (x :: bs))
    with (if decide (_id x = _id doc) then Some (0%nat, x)
          else prod_map S id <$> list_find (λ b0, _id b0 = _id doc) bs).
  destruct (String.eqb_spec (_id x) (_id doc)) as [Heq|Hne].
  - intros [= ->]. rewrite decide_True by done. cbn [insert list_insert List.find].
    cbn [writeModified _id]. by rewrite (proj2 (String.eqb_eq _ _) Heq).
  - intros Hfind. rewrite decide_False by done. specialize (IH Hfind).
    destruct (list_find _ bs) as [[j y]|]; cbn in *.
    + rewrite (proj2 (String.eqb_neq _ _) Hne). done.
    + rewrite (proj2 (String.eqb_neq _ _) Hne). done.
Qed.

Lemma find_by_id_updateOne doc bs b :
  List.find (λ x, String.eqb (_id x) (_id doc)) bs = Some b →
  List.find (λ x, String.eqb (_id x) (_id doc)) (updateOne b doc bs) = Some doc.
Proof.
  intros Hfind. rewrite (find_by_id_updateOne_stored b doc bs b Hfind).
  rewrite writeModified_same; [done|].
  apply find_some in Hfind as [_ Heq]. by apply String.eqb_eq in Heq.
Qed.

(** X1.  [getBookingById] never changes the store.  It answers with a stored
    booking exactly when some stored booking has the requested id, the
    booking it sends is stored under that id, and it answers with an error
    only when no stored booking has the id. *)
Theorem getBookingById_lookup (id : ObjectId) (w : World) :
  ∃ r, run (getBookingById id) w = (Return r, w)
    ∧ ((∃ b, b ∈ bookings w ∧ _id b = id) ↔ ∃ b, r = Reply.success b None None)
    ∧ (∀ b code msg, r = Reply.success b code msg → b ∈ bookings w ∧ _id b = id)
    ∧ (∀ msg code errs, r = Reply.error msg code errs → ∀ b, b ∈ bookings w → _id b ≠ id).
Proof.
  eexists. split; [apply getBookingById_run|].
  destruct (List.find _ (bookings w)) as [b|] eqn:Hfind.
  - split_and!.
    + split; [eauto|]. intros _. exists b. by apply find_by_id.
    + intros ? ? ? [= <- <- <-]. by apply find_by_id.
    + intros ? ? ? [=].
  - pose proof (proj1 (find_by_id_none id (bookings w)) Hfind) as Hnone. clear Hfind.
    rename Hnone into Hfind. split_and!.
    + split; [|by intros [? [=]]]. intros (b & Hin & Hid). by destruct (Hfind b Hin).
    + intros ? ? ? [=].
    + intros ? ? ? _. exact Hfind.
Qed.

(** X2.  Create, then read.  When [createBooking] has answered with a
    booking and the new id was not in use, [getBookingById] with that id
    answers with the very booking that the creation response carried. *)
Theorem created_booking_can_be_read (env : Env) (now : Z) (oid : ObjectId)
    (input : CreateBookingInput.t) (w w' : World) (b : Booking) (code : Z) (msg : string) :
  run (createBooking env now oid input) w
  = (Return (sendSuccess (BookingData b) code msg), w') →
  (∀ x, x ∈ bookings w → _id x ≠ oid) →
  run (getBookingById oid) w' = (Return (Reply.success b None None), w').
Proof.
  intros Hrun Hfresh. apply createBooking_inv in Hrun as (resp & [= <-] & Hout).
  inversion Hout; subst. rewrite getBookingById_run. cbn [bookings].
  rewrite find_by_id_snoc; [done|done|reflexivity].
Qed.

(** X3.  Cancel, then read or cancel again.  After a successful
    cancellation [getBookingById] sends the booking with status cancelled,
    the supplied reason and the time of the cancellation, and every further
    [cancelBooking] of that id is refused with the already-cancelled error
    and changes nothing, whatever reason it carries. *)
Theorem cancelled_booking_stays_cancelled (env : Env) (now now' : Z) (id : ObjectId)
    (input input' : CancelBookingInput) (w w' : World)
    (data : Data) (code : Z) (msg : string) :
  run (cancelBooking env now id input) w = (Return (sendSuccess data code msg), w') →
  (∃ b, run (getBookingById id) w' = (Return (Reply.success b None None), w')
        ∧ status b = Cancelled
        ∧ cancellationReason b = reason input
        ∧ cancelledAt b = Some now)
  ∧ run (cancelBooking env now' id input') w'
    = (Return (sendError "This booking is already cancelled" 400 None), w').
Proof.
  rewrite cancelBooking_run.
  destruct (List.find _ (bookings w)) as [b|] eqn:Hfind; [|intros [=]].
  destruct (bool_decide (status b = Cancelled)); [intros [=]|].
  destruct (bool_decide (status b = Completed)); [intros [=]|].
  destruct (schema_errors env _); [|intros [=]].
  set (b' := preSave env (withCancellation now input b)).
  intros [= <- <- <- <-].
  assert (Hid : _id b' = id).
  { unfold b'. destruct (preSave_fields env (withCancellation now input b)) as (-> & _).
    destruct (withCancellation_fields now input b) as (-> & _).
    by apply find_by_id in Hfind as [_ ?]. }
  assert (Hst : status b' = Cancelled ∧ cancellationReason b' = reason input
                ∧ cancelledAt b' = Some now).
  { unfold b'.
    destruct (preSave_fields env (withCancellation now input b))
      as (_ & _ & _ & _ & _ & _ & _ & _ & _ & _ & _ & -> & _ & -> & ->).
    destruct (withCancellation_fields now input b)
      as (_ & _ & _ & _ & _ & _ & _ & _ & _ & _ & _ & _ & _ & _ & -> & -> & ->).
    done. }
  rewrite <- Hid in Hfind. apply find_by_id_updateOne in Hfind. rewrite Hid in Hfind.
  split.
  - exists b'. rewrite getBookingById_run. cbn [bookings]. by rewrite Hfind.
  - rewrite cancelBooking_run. cbn [bookings]. rewrite Hfind.
    destruct Hst as [-> _]. reflexivity.
Qed.

(** ** The life of a stored booking *)

Lemma sameIdentity_refl b : sameIdentity b b.
Proof. by repeat split. Qed.

Lemma sameIdentity_trans a b c : sameIdentity a b → sameIdentity b c → sameIdentity a c.
Proof.
  unfold sameIdentity.
  intros (?&?&?&?&?&?&?&?&?&?&?&?) (?&?&?&?&?&?&?&?&?&?&?&?).
  split_and!; congruence.
Qed.

Lemma statusStep_trans s1 s2 s3 : statusStep s1 s2 → statusStep s2 s3 → statusStep s1 s3.
Proof.
  unfold statusStep. intros [->|[-> H12]] [->|[-> H23]]; auto.
Qed.

Lemma cancelled_sameIdentity env now input b :
  sameIdentity (preSave env (withCancellation now input b)) b.
Proof. destruct b; by repeat split. Qed.

Lemma handler_keeps_bookings env op w i b :
  bookings w !! i = Some b →
  ∃ b', bookings (run (handler env op) w).2 !! i = Some b'
        ∧ sameIdentity b' b ∧ statusStep (status b) (status b').
Proof.
  intros Hi. destruct op as [now oid input|now id input]; cbn [handler].
  - destruct (createBooking_outcome env now oid input w) as (r & w' & -> & Hout).
    cbn [snd]. exists b.
    split; [|split; [apply sameIdentity_refl|by left]].
    destruct Hout; cbn [bookings]; try done. by apply lookup_app_l_Some.
  - rewrite cancelBooking_run.
    destruct (List.find _ (bookings w)) as [x|] eqn:Hfind;
      [|exists b; split; [done|split; [apply sameIdentity_refl|by left]]].
    destruct (bool_decide (status x = Cancelled)) eqn:Hc;
      [exists b; split; [done|split; [apply sameIdentity_refl|by left]]|].
    destruct (bool_decide (status x = Completed)) eqn:Hd;
      [exists b; split; [done|split; [apply sameIdentity_refl|by left]]|].
    destruct (schema_errors env _);
      [|exists b; split; [done|split; [apply sameIdentity_refl|by left]]].
    cbn [snd bookings].
    set (x' := preSave env (withCancellation now input x)).
    assert (Hid : _id x' = id).
    { unfold x'. destruct (preSave_fields env (withCancellation now input x)) as (-> & _).
      destruct (withCancellation_fields now input x) as (-> & _).
      by apply find_by_id in Hfind as [_ ?]. }
    rewrite <- Hid in Hfind.
    destruct (updateOne_found x' _ _ Hfind) as (j & Hj & ->).
    destruct (decide (i = j)) as [->|Hij].
    + assert (x = b) as -> by congruence. exists x'.
      split; [apply list_lookup_insert_eq; by eapply lookup_lt_Some|].
      split; [apply cancelled_sameIdentity|].
      right. split.
      * unfold x'.
        destruct (preSave_fields env (withCancellation now input b))
          as (_ & _ & _ & _ & _ & _ & _ & _ & _ & _ & _ & -> & _).
        by destruct (withCancellation_fields now input b)
          as (_ & _ & _ & _ & _ & _ & _ & _ & _ & _ & _ & _ & _ & _ & -> & _).
      * apply bool_decide_eq_false in Hc, Hd. destruct (status b); tauto.
    + exists b. split; [by rewrite list_lookup_insert_ne|].
      split; [apply sameIdentity_refl|by left].
Qed.

(** X4.  No request deletes or moves a stored booking.  Whatever creation
    and cancellation requests are served, the booking at a position of the
    store is still at that position with the same id, number, listing,
    dates, guests, price and payment status; its status is either what it
    was or has gone from pending or confirmed to cancelled, so a cancelled
    booking stays cancelled and a completed one stays completed. *)
Theorem bookings_are_never_deleted (env : Env) (ops : list Op) (w : World)
    (i : nat) (b : Booking) :
  bookings w !! i = Some b →
  ∃ b', bookings (serve env ops w) !! i = Some b'
        ∧ sameIdentity b' b
        ∧ statusStep (status b) (status b')
        ∧ (status b = Cancelled → status b' = Cancelled)
        ∧ (status b = Completed → status b' = Completed).
Proof.
  revert w b. induction ops as [|op ops IH]; intros w b Hi; cbn [serve].
  - exists b. split_and!; [done|apply sameIdentity_refl|by left|done|done].
  - destruct (handler_keeps_bookings env op w i b Hi) as (b1 & Hi1 & Hs1 & Ht1).
    destruct (IH _ _ Hi1) as (b' & Hi' & Hs' & Ht' & _).
    exists b'. split; [done|]. split; [by eapply sameIdentity_trans|].
    pose proof (statusStep_trans _ _ _ Ht1 Ht') as Hstep. split; [done|].
    split; intros Hst; rewrite Hst in Hstep;
      destruct Hstep as [->|[_ [?|?]]]; done.
Qed.

(** X5.  [createBooking] always responds, and it writes to the store exactly
    when it reports a created booking: then the reported booking is appended
    as the last document, carries the new id, is pending with payment
    pending, and its stay begins after the current time and ends after it
    begins; with any other response the stored bookings are what they were. *)
Theorem createBooking_stores_iff_created (env : Env) (now : Z) (oid : ObjectId)
    (input : CreateBookingInput.t) (w : World) :
  ∃ r w', run (createBooking env now oid input) w = (Return r, w')
    ∧ ((∃ b, r = sendSuccess (BookingData b) 201 "Booking created successfully"
             ∧ bookings w' = bookings w ++ [b]
             ∧ _id b = oid ∧ status b = Pending ∧ paymentStatus b = "pending"
             ∧ now < checkIn b < checkOut b)
       ∨ (¬ created r ∧ bookings w' = bookings w)).
Proof.
  destruct (createBooking_outcome env now oid input w) as (r & w' & Hrun & Hout).
  exists r, w'. split; [done|].
  destruct Hout; try (right; split; [intros [? [=]]|reflexivity]).
  left. eexists. split; [reflexivity|]. subst doc. cbn. split_and!; try done; lia.
Qed.

(** X6.  Every stored stay ends after it begins: if this holds of the store,
    it holds after any sequence of creation and cancellation requests. *)
Theorem stored_stays_are_never_empty (env : Env) (ops : list Op) (w : World) :
  Forall (λ b, checkIn b < checkOut b) (bookings w) →
  Forall (λ b, checkIn b < checkOut b) (bookings (serve env ops w)).
Proof.
  revert w. induction ops as [|op ops IH]; intros w Hinv; [done|].
  cbn [serve]. apply IH. destruct op as [now oid input|now id input]; cbn [handler].
  - destruct (createBooking_outcome env now oid input w) as (r & w' & -> & Hout).
    cbn [snd]. destruct Hout; cbn [bookings]; try done.
    apply Forall_app. split; [done|]. apply Forall_singleton. subst doc. cbn. lia.
  - rewrite cancelBooking_run.
    destruct (List.find _ (bookings w)) as [x|] eqn:Hfind; [|done].
    destruct (bool_decide (status x = Cancelled)); [done|].
    destruct (bool_decide (status x = Completed)); [done|].
    destruct (schema_errors env _); [|done].
    cbn [snd bookings].
    destruct (updateOne_cancelled env now input id _ _ Hfind) as (i & _ & ->).
    apply Forall_insert; [done|].
    apply find_by_id in Hfind as [Hin _].
    rewrite Forall_forall in Hinv. specialize (Hinv x Hin).
    destruct x; cbn in *. done.
Qed.

(** ** Cancellation and later requests *)

Lemma uniqueIds_lookup bs i j a b :
  uniqueIds bs → bs !! i = Some a → bs !! j = Some b → _id a = _id b → i = j.
Proof.
  unfold uniqueIds. intros Hnd Hi Hj Hid.
  eapply NoDup_lookup; [exact Hnd| |].
  - rewrite list_lookup_fmap, Hi. reflexivity.
  - rewrite list_lookup_fmap, Hj. cbn. by rewrite Hid.
Qed.

(** X7.  Cancel, then book again.  In a store with unique ids, once the
    only bookings in the way of a stay have been cancelled (they all carry
    the id that was cancelled), the conflict query finds nothing for that
    stay and a valid creation request for it is answered with 201 and
    appended to the store. *)
Theorem cancellation_frees_the_stay (env : Env) (nowC now : Z) (id oid : ObjectId)
    (cancel : CancelBookingInput) (input : CreateBookingInput.t) (w w' : World)
    (data : Data) (code : Z) (msg : string) (ci co : Z) :
  uniqueIds (bookings w) →
  run (cancelBooking env nowC id cancel) w = (Return (sendSuccess data code msg), w') →
  (∀ x, x ∈ bookings w →
        conflictsWith (CreateBookingInput.listingId input) ci co None x → _id x = id) →
  (∀ c, satisfies input c) →
  Date_parse env (CreateBookingInput.checkIn input) = Some ci →
  Date_parse env (CreateBookingInput.checkOut input) = Some co →
  now < ci → ci < co →
  schema_errors env
    (BookingModel_new oid (counter w' + 1) input
       (resolvedTitle env (CreateBookingInput.listingType input)
                          (CreateBookingInput.listingId input)) ci co) = [] →
  hasDateConflict (CreateBookingInput.listingId input) ci co None w' = (Return None, w')
  ∧ ∃ b w'', run (createBooking env now oid input) w'
            = (Return (sendSuccess (BookingData b) 201 "Booking created successfully"), w'')
            ∧ bookings w'' = bookings w' ++ [b].
Proof.
  intros Huniq Hcancel Honly Hvalid Hci Hco Hnow Hlen Hschema.
  assert (Hfree : hasDateConflict (CreateBookingInput.listingId input) ci co None w'
                  = (Return None, w')).
  { rewrite hasDateConflict_run. f_equal. f_equal.
    destruct (List.find _ (bookings w')) as [x|] eqn:Hfind; [exfalso|done].
    apply find_first_conflict in Hfind as [Hin Hconf].
    revert Hcancel. rewrite cancelBooking_run.
    destruct (List.find _ (bookings w)) as [b|] eqn:Hb; [|intros [=]].
    destruct (bool_decide (status b = Cancelled)); [intros [=]|].
    destruct (bool_decide (status b = Completed)); [intros [=]|].
    destruct (schema_errors env (withCancellation nowC cancel b)); [|intros [=]].
    set (b' := preSave env (withCancellation nowC cancel b)).
    intros [= <- <- <- <-]. cbn [bookings] in Hin.
    assert (Hid : _id b' = id).
    { unfold b'. destruct (preSave_fields env (withCancellation nowC cancel b)) as (-> & _).
      destruct (withCancellation_fields nowC cancel b) as (-> & _).
      by apply find_by_id in Hb as [_ ?]. }
    assert (Hst : status b' = Cancelled).
    { unfold b'.
      destruct (preSave_fields env (withCancellation nowC cancel b))
        as (_ & _ & _ & _ & _ & _ & _ & _ & _ & _ & _ & -> & _).
      by destruct (withCancellation_fields nowC cancel b)
        as (_ & _ & _ & _ & _ & _ & _ & _ & _ & _ & _ & _ & _ & _ & -> & _). }
    pose proof Hb as Hb'. rewrite <- Hid in Hb'.
    destruct (updateOne_found b' _ _ Hb') as (i & Hi & Hupd). rewrite Hupd in Hin.
    apply list_elem_of_lookup in Hin as [j Hj].
    apply list_lookup_insert_Some in Hj as [(-> & <- & _)|[Hne Hj]].
    - destruct Hconf as (_ & Hactive & _). done.
    - assert (Hx : _id x = id) by (apply Honly; [by eapply list_elem_of_lookup_2|done]).
      apply Hne. eapply uniqueIds_lookup; [done..|].
      apply find_by_id in Hb as [_ ->]. done. }
  split; [done|].
  eexists _, _. split; [by apply createBooking_created|reflexivity].
Qed.

(** X8.  Two cancellations of one pending or confirmed booking whose awaits
    interleave (both read the booking before either saves) are both answered
    with success, each reporting the full price as refund and its own
    reason.  Each save writes only the paths it modified.  For a booking
    that carried no cancellation data, the stored booking is then cancelled
    with the time of the request that saved last, and with the reason of
    that request if it gave one; if it gave none, the reason of the request
    that saved first stays.  Nothing else of the booking changes. *)
Theorem concurrent_cancellations_both_succeed (env : Env) (now1 now2 : Z)
    (id : ObjectId) (input1 input2 : CancelBookingInput) (w : World) (b : Booking) :
  findById id w = (Return (Some b), w) →
  status b = Pending ∨ status b = Confirmed →
  cancellationReason b = None → cancelledAt b = None →
  schema_errors env (withCancellation now1 input1 b) = [] →
  schema_errors env (withCancellation now2 input2 b) = [] →
  ∃ d1 d2 w' stored,
    interleave [First; Second; First; Second]
      (cancelBooking env now1 id input1) (cancelBooking env now2 id input2) w
    = (Finish (sendSuccess (CancellationData d1) 200 "Booking cancelled successfully"),
       Finish (sendSuccess (CancellationData d2) 200 "Booking cancelled successfully"), w')
    ∧ Cancellation.refundAmount d1 = total (pricing b)
    ∧ Cancellation.refundAmount d2 = total (pricing b)
    ∧ Cancellation.cancellationReason d1 = reason input1
    ∧ Cancellation.cancellationReason d2 = reason input2
    ∧ findById id w' = (Return (Some stored), w')
    ∧ sameIdentity stored b
    ∧ status stored = Cancelled
    ∧ cancelledAt stored = Some now2
    ∧ cancellationReason stored
      = match reason input2 with
        | Some r => Some r
        | None => reason input1
        end.
Proof.
  unfold findById, findOne. intros [= Hfind] Hst Hreason Hat Hs1 Hs2.
  assert (Hnc : bool_decide (status b = Cancelled) = false)
    by (apply bool_decide_eq_false; destruct Hst as [-> | ->]; done).
  assert (Hnd : bool_decide (status b = Completed) = false)
    by (apply bool_decide_eq_false; destruct Hst as [-> | ->]; done).
  set (b1 := preSave env (withCancellation now1 input1 b)).
  set (b2 := preSave env (withCancellation now2 input2 b)).
  assert (Hid1 : _id b1 = id).
  { unfold b1. destruct (preSave_fields env (withCancellation now1 input1 b)) as (-> & _).
    destruct (withCancellation_fields now1 input1 b) as (-> & _).
    by apply find_by_id in Hfind as [_ ?]. }
  assert (Hid2 : _id b2 = id).
  { unfold b2. destruct (preSave_fields env (withCancellation now2 input2 b)) as (-> & _).
    destruct (withCancellation_fields now2 input2 b) as (-> & _).
    by apply find_by_id in Hfind as [_ ?]. }
  assert (Hfind1 : List.find (λ x, String.eqb (_id x) id) (updateOne b b1 (bookings w))
                   = Some b1).
  { rewrite <- Hid1. apply (find_by_id_updateOne b1 _ b). by rewrite Hid1. }
  assert (Hfind2 : List.find (λ x, String.eqb (_id x) id)
                     (updateOne b b2 (updateOne b b1 (bookings w)))
                   = Some (writeModified b b2 b1)).
  { rewrite <- Hid2. apply (find_by_id_updateOne_stored b b2 _ b1). by rewrite Hid2. }
  exists (Cancellation.mk (_id b1) (status b1) (cancellationReason b1) (cancelledAt b1)
            (total (pricing b1)) "pending"),
         (Cancellation.mk (_id b2) (status b2) (cancellationReason b2) (cancelledAt b2)
            (total (pricing b2)) "pending"),
         (mkWorld (updateOne b b2 (updateOne b b1 (bookings w))) (counter w)),
         (writeModified b b2 b1).
  split.
  - unfold withCancellation in Hs1, Hs2.
    unfold cancelBooking. cbn [interleave]. unfold advance. cbn [step].
    unfold mbind, M_bind, mret, M_ret, findById, findOne, save.
    repeat (rewrite ?Hfind, ?Hnc, ?Hnd, ?Hs1, ?Hs2; cbn [step];
            unfold mbind, M_bind, mret, M_ret).
    reflexivity.
  - cbn [Cancellation.refundAmount Cancellation.cancellationReason bookings].
    rewrite Hfind2. clear Hfind Hfind1 Hfind2 Hid1 Hid2 Hs1 Hs2 Hnc Hnd.
    unfold b1, b2, sameIdentity. destruct b as [i n lt li ti ci co g gd sr p st ps cr ca ng tg].
    cbn in Hreason, Hat, Hst. subst cr ca.
    cbn [preSave withCancellation set_status set_cancellationReason set_cancelledAt
         set_nights set_totalGuests writeModified _id bookingNumber listingType listingId
         listingTitle checkIn checkOut guests guestDetails specialRequests pricing status
         paymentStatus cancellationReason cancelledAt nights totalGuests total].
    unfold modified.
    rewrite !decide_True by reflexivity.
    rewrite (decide_False (P := Cancelled = st)) by (destruct Hst as [-> | ->]; done).
    rewrite (decide_False (P := Some now2 = None)) by done.
    split_and!; try reflexivity.
    destruct (reason input2) as [r|]; [by rewrite decide_False|by rewrite decide_True].
Qed.

(** ** Booking numbers *)

Lemma handler_numbered env op w :
  numbered w →
  numbered (run (handler env op) w).2 ∧ counter w ≤ counter (run (handler env op) w).2.
Proof.
  intros [Hnd Hle]. destruct op as [now oid input|now id input]; cbn [handler].
  - destruct (createBooking_outcome env now oid input w) as (r & w' & -> & Hout).
    cbn [snd]. destruct Hout; try (split; [by split|lia]).
    + split; [|cbn [counter]; lia]. split; cbn [bookings counter]; [done|].
      eapply Forall_impl; [exact Hle|]. intros; cbn in *; lia.
    + assert (Hnum : bookingNumber (preSave env doc) = counter w + 1).
      { destruct (preSave_fields env doc) as (_ & -> & _). by subst doc. }
      split; [|cbn [counter]; lia]. split; cbn [bookings counter].
      * rewrite fmap_app. apply NoDup_app. split_and!; [done| |apply NoDup_singleton].
        intros n Hn Hn'. apply list_elem_of_singleton in Hn'. cbn in Hn'.
        apply list_elem_of_fmap in Hn as (b & -> & Hb).
        rewrite Forall_forall in Hle. specialize (Hle b Hb). lia.
      * apply Forall_app. split.
        -- eapply Forall_impl; [exact Hle|]. intros; cbn in *; lia.
        -- apply Forall_singleton. lia.
  - rewrite cancelBooking_run.
    destruct (List.find _ (bookings w)) as [x|] eqn:Hfind; [|by split; [split|]].
    destruct (bool_decide (status x = Cancelled)); [by split; [split|]|].
    destruct (bool_decide (status x = Completed)); [by split; [split|]|].
    destruct (schema_errors env _); [|by split; [split|]].
    cbn [snd bookings counter]. split; [|done].
    set (x' := preSave env (withCancellation now input x)).
    assert (Hx' : bookingNumber x' = bookingNumber x).
    { by destruct (cancelled_sameIdentity env now input x) as (_ & ? & _). }
    assert (Hid : _id x' = id).
    { destruct (cancelled_sameIdentity env now input x) as (Hx & _). fold x' in Hx.
      rewrite Hx. by apply find_by_id in Hfind as [_ ?]. }
    rewrite <- Hid in Hfind.
    destruct (updateOne_found x' _ _ Hfind) as (j & Hj & ->).
    unfold numbered. cbn [bookings counter]. split.
    + rewrite list_fmap_insert, list_insert_id; [done|].
      by rewrite list_lookup_fmap, Hj, Hx'.
    + apply Forall_insert; [done|]. rewrite Hx'.
      rewrite Forall_forall in Hle. apply Hle. by eapply list_elem_of_lookup_2.
Qed.

(** X9.  Booking numbers.  If the stored booking numbers are pairwise
    different and none is ahead of the counter, the same holds after any
    sequence of creation and cancellation requests, and the counter never
    goes back. *)
Theorem booking_numbers_stay_unique (env : Env) (ops : list Op) (w : World) :
  numbered w →
  numbered (serve env ops w) ∧ counter w ≤ counter (serve env ops w).
Proof.
  revert w. induction ops as [|op ops IH]; intros w Hw; cbn [serve]; [by split|].
  destruct (handler_numbered env op w Hw) as [Hw' Hle].
  destruct (IH _ Hw') as [Hn Hle']. split; [done|lia].
Qed.

(** ** Strings and arrays of the search controller *)

Lemma startsWith_append s sub :
  JsString.startsWith s sub = true ↔ ∃ post, s = sub +:+ post.
Proof.
  revert s. induction sub as [|a sub IH]; intros s; cbn [JsString.startsWith].
  - split; [by exists s|done].
  - destruct s as [|b s].
    + split; [done|]. intros [post [=]].
    + rewrite andb_true_iff, IH. split.
      * intros [Hab [post ->]]. apply Ascii.eqb_eq in Hab as ->. by exists post.
      * intros [post [= -> ->]]. split; [apply Ascii.eqb_refl|by exists post].
Qed.

Lemma includes_substring s sub :
  JsString.includes s sub = true ↔ ∃ pre post, s = pre +:+ sub +:+ post.
Proof.
  induction s as [|c s IH]; cbn [JsString.includes]; rewrite orb_true_iff, startsWith_append.
  - split.
    + intros [[post ->]|[=]]. by exists "", post.
    + intros (pre & post & H). left. destruct pre; [by exists post|discriminate].
  - rewrite IH. split.
    + intros [[post ->]|(pre & post & ->)]; [by exists "", post|by exists (String c pre), post].
    + intros (pre & post & H). destruct pre as [|c' pre].
      * left. by exists post.
      * right. exists pre, post. by injection H.
Qed.

Lemma relative_bounds len i : 0 ≤ len → 0 ≤ JsArray.relative len i ≤ len.
Proof. unfold JsArray.relative. intros. destruct (Z.ltb_spec i 0); lia. Qed.

Lemma slice_page {A} (start n : Z) (l : list A) :
  0 ≤ start → 0 ≤ n →
  JsArray.slice start (start + n) l = take (Z.to_nat n) (drop (Z.to_nat start) l).
Proof.
  intros Hs Hn. unfold JsArray.slice, JsArray.relative.
  destruct (Z.ltb_spec start 0); [lia|]. destruct (Z.ltb_spec (start + n) 0); [lia|].
  destruct (Z.le_gt_cases start (Z.of_nat (length l))).
  - rewrite (Z.min_l start) by done.
    destruct (Z.le_gt_cases (start + n) (Z.of_nat (length l))).
    + rewrite Z.min_l by done. f_equal. lia.
    + rewrite Z.min_r by lia. rewrite !take_ge; [done|rewrite length_drop; lia..].
  - rewrite !drop_ge by lia. by rewrite !take_nil.
Qed.

Lemma slice_take {A} (n : Z) (l : list A) :
  0 ≤ n → JsArray.slice 0 n l = take (Z.to_nat n) l.
Proof. intros. by rewrite <- (Z.add_0_l n), slice_page. Qed.

Lemma slice_length {A} (start n : Z) (l : list A) :
  0 ≤ n → (length (JsArray.slice start (start + n) l) ≤ Z.to_nat n)%nat.
Proof.
  intros Hn. unfold JsArray.slice, JsArray.relative. rewrite length_take.
  destruct (Z.ltb_spec start 0), (Z.ltb_spec (start + n) 0); lia.
Qed.

Lemma slice_sublist {A} (start end' : Z) (l : list A) :
  JsArray.slice start end' l `sublist_of` l.
Proof.
  unfold JsArray.slice. etrans; [apply sublist_take|apply sublist_drop].
Qed.

Lemma slice_elem_of {A} (start end' : Z) (l : list A) x :
  x ∈ JsArray.slice start end' l → x ∈ l.
Proof. intros. by eapply elem_of_sublist; [|apply slice_sublist]. Qed.

Lemma elem_of_filter_bool {A} (f : A → bool) (l : list A) x :
  x ∈ List.filter f l ↔ x ∈ l ∧ f x = true.
Proof. by rewrite !list_elem_of_In, filter_In. Qed.

(** ** The search controller *)

Section SearchProperties.
Context (trim toLowerCase : string → string) {Meta : Type}.
Context (parsePaginationParams : option string → option string → Z * Z).
Context (getPaginationMeta : Z → Z → Z → Meta).
Context (homestaysStore : list Homestay.t).
Context (guidesStore : list Guide.t).
Context (productsStore : list Product.t).

Local Notation "'search'" :=
  (unifiedSearch trim toLowerCase parsePaginationParams getPaginationMeta
     homestaysStore guidesStore productsStore).
Local Notation "'complete'" := (autocomplete trim toLowerCase homestaysStore guidesStore productsStore).
Local Notation "'matches'" := (matchesQuery toLowerCase).
Local Notation "'pageOf' req" :=
  (fst (parsePaginationParams (SearchQuery.page req) (SearchQuery.limit req)))
  (at level 10, req at level 9).
Local Notation "'limitOf' req" :=
  (snd (parsePaginationParams (SearchQuery.page req) (SearchQuery.limit req)))
  (at level 10, req at level 9).

(** X10.  [matchesQuery] holds exactly of a text that is present and not
    empty and whose lower-case form contains the lower-case form of the
    query as a run of consecutive characters.  An absent or empty text
    matches no query, not even the empty one. *)
Theorem matchesQuery_substring (text : option string) (query : string) :
  matches text query = true ↔
  ∃ t pre post, text = Some t ∧ t ≠ "" ∧ toLowerCase t = pre +:+ toLowerCase query +:+ post.
Proof.
  unfold matchesQuery. destruct text as [t|].
  - unfold Js.truthy. rewrite negb_involutive.
    destruct (String.eqb_spec t "") as [->|Hne].
    + split; [done|]. intros (? & ? & ? & [= <-] & ? & _). done.
    + rewrite includes_substring. split.
      * intros (pre & post & H). by exists t, pre, post.
      * intros (? & pre & post & [= <-] & _ & H). by exists pre, post.
  - split; [done|]. intros (? & ? & ? & [=] & _).
Qed.

Lemma unifiedSearch_success req d code msg :
  search req = Reply.success d code msg →
  let query := searchText trim req in
  let type := searchType req in
  let page := fst (parsePaginationParams (SearchQuery.page req) (SearchQuery.limit req)) in
  let limit := snd (parsePaginationParams (SearchQuery.page req) (SearchQuery.limit req)) in
  2 ≤ Z.of_nat (JsString.length query)
  ∧ code = None ∧ msg = None
  ∧ SearchData.query d = query
  ∧ SearchResults.homestays (SearchData.results d)
    = JsArray.slice ((page - 1) * limit) ((page - 1) * limit + limit)
        (matchedHomestays toLowerCase homestaysStore type query)
  ∧ SearchResults.guides (SearchData.results d)
    = JsArray.slice ((page - 1) * limit) ((page - 1) * limit + limit)
        (matchedGuides toLowerCase guidesStore type query)
  ∧ SearchResults.products (SearchData.results d)
    = JsArray.slice ((page - 1) * limit) ((page - 1) * limit + limit)
        (matchedProducts toLowerCase productsStore type query).
Proof.
  unfold unifiedSearch, searchText, searchType.
  destruct (parsePaginationParams _ _) as [page limit]. cbn [fst snd].
  destruct (Z.ltb_spec (Z.of_nat (JsString.length (trim (JsString.or_else (SearchQuery.q req) "")))) 2);
    [intros [=]|].
  intros [= <- <- <-]. cbn. done.
Qed.


(** X11.  When the page size is not negative, a page of [unifiedSearch]
    holds at most that many homestays, that many guides and that many
    products, each list in the order of the matches of its kind. *)
Theorem unifiedSearch_page_size (req : SearchQuery.t) (d : SearchData.t Meta)
    (code : option Z) (msg : option string) :
  search req = Reply.success d code msg →
  0 ≤ limitOf req →
  (length (SearchResults.homestays (SearchData.results d)) ≤ Z.to_nat (limitOf req))%nat
  ∧ (length (SearchResults.guides (SearchData.results d)) ≤ Z.to_nat (limitOf req))%nat
  ∧ (length (SearchResults.products (SearchData.results d)) ≤ Z.to_nat (limitOf req))%nat
  ∧ SearchResults.homestays (SearchData.results d)
      `sublist_of` matchedHomestays toLowerCase homestaysStore
                     (searchType req) (searchText trim req)
  ∧ SearchResults.guides (SearchData.results d)
      `sublist_of` matchedGuides toLowerCase guidesStore
                     (searchType req) (searchText trim req)
  ∧ SearchResults.products (SearchData.results d)
      `sublist_of` matchedProducts toLowerCase productsStore
                     (searchType req) (searchText trim req).
Proof.
  intros Hs Hlimit.
  apply unifiedSearch_success in Hs as (_ & _ & _ & _ & -> & -> & ->).
  split_and!; try (by apply slice_length); apply slice_sublist.
Qed.

(** X12.  The pages of [unifiedSearch] tile the matches.  For a page number
    of at least 1, entry [j] of a list on that page is match number
    [(page - 1) * limit + j] of that kind, for each of the three kinds
    separately. *)
Theorem unifiedSearch_page_contents (req : SearchQuery.t) (d : SearchData.t Meta)
    (code : option Z) (msg : option string) (j : nat) :
  search req = Reply.success d code msg →
  1 ≤ pageOf req → 0 ≤ limitOf req → (j < Z.to_nat (limitOf req))%nat →
  let i := (Z.to_nat ((pageOf req - 1) * limitOf req) + j)%nat in
  SearchResults.homestays (SearchData.results d) !! j
  = matchedHomestays toLowerCase homestaysStore (searchType req) (searchText trim req) !! i
  ∧ SearchResults.guides (SearchData.results d) !! j
    = matchedGuides toLowerCase guidesStore (searchType req) (searchText trim req) !! i
  ∧ SearchResults.products (SearchData.results d) !! j
    = matchedProducts toLowerCase productsStore (searchType req) (searchText trim req) !! i.
Proof.
  intros Hs Hpage Hlimit Hj i.
  apply unifiedSearch_success in Hs as (_ & _ & _ & _ & -> & -> & ->).
  rewrite !slice_page by nia.
  rewrite !lookup_take_lt by done. by rewrite !lookup_drop.
Qed.

Lemma elem_of_fmap_filter {A B} (f : A → B) (p : A → bool) (l : list A) y :
  y ∈ f <$> List.filter p l ↔ ∃ x, x ∈ l ∧ y = f x ∧ p x = true.
Proof.
  rewrite list_elem_of_fmap. split.
  - intros (x & -> & Hx). apply elem_of_filter_bool in Hx as [? ?]. by exists x.
  - intros (x & Hx & -> & Hp). exists x. split; [done|]. by apply elem_of_filter_bool.
Qed.

Lemma matchedHomestays_elem_of type query hit :
  hit ∈ matchedHomestays toLowerCase homestaysStore type query ↔
  (type = "all" ∨ type = "homestays")
  ∧ ∃ h, h ∈ homestaysStore ∧ hit = homestayHit h ∧ Homestay.status h = "active"
         ∧ homestayMatches toLowerCase query h = true.
Proof.
  unfold matchedHomestays.
  assert (Hhits : hit ∈ homestayHit <$>
                    List.filter (homestayMatches toLowerCase query)
                      (List.filter (λ h, String.eqb (Homestay.status h) "active")
                         homestaysStore)
                  ↔ ∃ h, h ∈ homestaysStore ∧ hit = homestayHit h
                         ∧ Homestay.status h = "active"
                         ∧ homestayMatches toLowerCase query h = true).
  { rewrite elem_of_fmap_filter. split.
    - intros (h & Hh & -> & Hm). apply elem_of_filter_bool in Hh as [Hh Hact].
      apply String.eqb_eq in Hact. by exists h.
    - intros (h & Hh & -> & Hact & Hm). exists h. split_and!; [|done..].
      apply elem_of_filter_bool. split; [done|]. by apply String.eqb_eq. }
  destruct (String.eqb_spec type "all") as [->|Hall]; cbn [orb].
  - rewrite Hhits. intuition.
  - destruct (String.eqb_spec type "homestays") as [->|Hh].
    + rewrite Hhits. intuition.
    + rewrite elem_of_nil. intuition.
Qed.

Lemma matchedGuides_elem_of type query hit :
  hit ∈ matchedGuides toLowerCase guidesStore type query ↔
  (type = "all" ∨ type = "guides")
  ∧ ∃ g, g ∈ guidesStore ∧ hit = guideHit g ∧ guideMatches toLowerCase query g = true.
Proof.
  unfold matchedGuides.
  destruct (String.eqb_spec type "all") as [->|Hall]; cbn [orb].
  - rewrite elem_of_fmap_filter. intuition.
  - destruct (String.eqb_spec type "guides") as [->|Hh].
    + rewrite elem_of_fmap_filter. intuition.
    + rewrite elem_of_nil. intuition.
Qed.

Lemma matchedProducts_elem_of type query hit :
  hit ∈ matchedProducts toLowerCase productsStore type query ↔
  (type = "all" ∨ type = "products")
  ∧ ∃ p, p ∈ productsStore ∧ hit = productHit p ∧ productMatches toLowerCase query p = true.
Proof.
  unfold matchedProducts.
  destruct (String.eqb_spec type "all") as [->|Hall]; cbn [orb].
  - rewrite elem_of_fmap_filter. intuition.
  - destruct (String.eqb_spec type "products") as [->|Hh].
    + rewrite elem_of_fmap_filter. intuition.
    + rewrite elem_of_nil. intuition.
Qed.

(** X13.  Every hit of [unifiedSearch] is the summary of a stored document
    that matches the trimmed query, and its kind was asked for.  A homestay
    hit comes from a homestay with status active.  Homestay and product hits
    carry at most one image, the first of the document. *)
Theorem unifiedSearch_hits_come_from_the_stores (req : SearchQuery.t)
    (d : SearchData.t Meta) (code : option Z) (msg : option string) :
  search req = Reply.success d code msg →
  (∀ hit, hit ∈ SearchResults.homestays (SearchData.results d) →
     (searchType req = "all" ∨ searchType req = "homestays")
     ∧ ∃ h, h ∈ homestaysStore
          ∧ Homestay.status h = "active"
          ∧ homestayMatches toLowerCase (searchText trim req) h = true
          ∧ hit = homestayHit h
          ∧ HomestayHit.images hit = take 1 (Homestay.images h))
  ∧ (∀ hit, hit ∈ SearchResults.guides (SearchData.results d) →
       (searchType req = "all" ∨ searchType req = "guides")
       ∧ ∃ g, g ∈ guidesStore
            ∧ guideMatches toLowerCase (searchText trim req) g = true
            ∧ hit = guideHit g)
  ∧ (∀ hit, hit ∈ SearchResults.products (SearchData.results d) →
       (searchType req = "all" ∨ searchType req = "products")
       ∧ ∃ p, p ∈ productsStore
            ∧ productMatches toLowerCase (searchText trim req) p = true
            ∧ hit = productHit p
            ∧ ProductHit.images hit = take 1 (Product.images p)).
Proof.
  intros Hs. apply unifiedSearch_success in Hs as (_ & _ & _ & _ & -> & -> & ->).
  split_and!; intros hit Hin; apply slice_elem_of in Hin.
  - apply matchedHomestays_elem_of in Hin as (Htype & h & Hstore & -> & Hactive & Hmatch).
    split; [done|]. exists h. split_and!; try done.
    cbn [homestayHit HomestayHit.images]. by rewrite slice_take.
  - apply matchedGuides_elem_of in Hin as (Htype & g & Hstore & -> & Hmatch).
    split; [done|]. by exists g.
  - apply matchedProducts_elem_of in Hin as (Htype & p & Hstore & -> & Hmatch).
    split; [done|]. exists p. split_and!; try done.
    cbn [productHit ProductHit.images]. by rewrite slice_take.
Qed.

(** X14.  A [type] other than all, homestays, guides and products is not an
    error: a search whose trimmed query has a [length] of at least two, in
    UTF-16 code units as JavaScript counts it, succeeds with three empty
    lists and all totals 0. *)
Theorem unifiedSearch_other_type (req : SearchQuery.t) :
  2 ≤ Z.of_nat (JsString.length (searchText trim req)) →
  searchType req ≠ "all" → searchType req ≠ "homestays" →
  searchType req ≠ "guides" → searchType req ≠ "products" →
  search req
  = Reply.success
      {| SearchData.results :=
           {| SearchResults.homestays := [];
              SearchResults.guides := [];
              SearchResults.products := [];
              SearchResults.total := SearchTotal.mk 0 0 0 0 |};
         SearchData.query := searchText trim req;
         SearchData.pagination := getPaginationMeta (pageOf req) (limitOf req) 0 |}
      None None.
Proof.
  unfold unifiedSearch, searchText, searchType, matchedHomestays, matchedGuides,
    matchedProducts.
  intros Hlen Hall Hh Hg Hp.
  destruct (parsePaginationParams _ _) as [page limit]. cbn [fst snd].
  destruct (Z.ltb_spec (Z.of_nat (JsString.length (trim (JsString.or_else (SearchQuery.q req) "")))) 2);
    [lia|].
  rewrite (proj2 (String.eqb_neq _ _) Hall), (proj2 (String.eqb_neq _ _) Hh),
    (proj2 (String.eqb_neq _ _) Hg), (proj2 (String.eqb_neq _ _) Hp).
  cbn [orb length]. unfold JsArray.slice. by rewrite !drop_nil, !take_nil.
Qed.

(** X15.  The page window is applied to each kind separately, while the
    overall total adds the three kinds up.  So a page that lies past the
    matches of every single kind is empty in all three lists, whatever the
    overall total says. *)
Theorem unifiedSearch_page_past_every_category (req : SearchQuery.t)
    (d : SearchData.t Meta) (code : option Z) (msg : option string) :
  search req = Reply.success d code msg →
  1 ≤ pageOf req → 0 ≤ limitOf req →
  let shown := (pageOf req - 1) * limitOf req in
  let total := SearchResults.total (SearchData.results d) in
  SearchTotal.homestays total ≤ shown →
  SearchTotal.guides total ≤ shown →
  SearchTotal.products total ≤ shown →
  SearchResults.homestays (SearchData.results d) = []
  ∧ SearchResults.guides (SearchData.results d) = []
  ∧ SearchResults.products (SearchData.results d) = []
  ∧ SearchTotal.overall total
    = SearchTotal.homestays total + SearchTotal.guides total + SearchTotal.products total.
Proof.
  unfold unifiedSearch.
  destruct (parsePaginationParams _ _) as [page limit]. cbn [fst snd].
  destruct (Z.of_nat _ <? 2); [intros [=]|].
  intros [= <- <- <-]. cbn [SearchData.results SearchResults.total SearchResults.homestays
    SearchResults.guides SearchResults.products SearchTotal.homestays SearchTotal.guides
    SearchTotal.products SearchTotal.overall].
  intros Hpage Hlimit Hh Hg Hp.
  rewrite !slice_page by nia. rewrite !drop_ge by lia. by rewrite !take_nil.
Qed.


End SearchProperties.

(** ** The location counts of autocomplete *)

Lemma JsMap_get_set k v m k' :
  JsMap.get k' (JsMap.set k v m) = if String.eqb k k' then Some v else JsMap.get k' m.
Proof.
  unfold JsMap.get. induction m as [|[k0 v0] m IH]; cbn [JsMap.set List.find fst].
  - destruct (String.eqb_spec k k'); reflexivity.
  - destruct (String.eqb_spec k0 k) as [->|Hne]; cbn [List.find fst].
    + destruct (String.eqb_spec k k'); reflexivity.
    + destruct (String.eqb_spec k0 k') as [->|Hne'].
      * by rewrite (proj2 (String.eqb_neq _ _)) by congruence.
      * exact IH.
Qed.

Lemma JsMap_keys_set k v m :
  (JsMap.set k v m).*1 = if JsMap.get k m is Some _ then m.*1 else m.*1 ++ [k].
Proof.
  unfold JsMap.get. induction m as [|[k0 v0] m IH]; cbn [JsMap.set List.find fst]; [done|].
  destruct (String.eqb_spec k0 k) as [->|Hne]; [done|].
  cbn [fmap list_fmap fst]. change (list_fmap _ _ fst ?l) with (l.*1). rewrite IH.
  by destruct (List.find _ m).
Qed.

Lemma JsMap_get_None k m : JsMap.get k m = None ↔ k ∉ m.*1.
Proof.
  unfold JsMap.get. induction m as [|[k0 v0] m IH]; cbn [List.find fst].
  - split; [intros _; apply not_elem_of_nil|done].
  - cbn [fmap list_fmap fst]. change (list_fmap _ _ fst ?l) with (l.*1).
    rewrite not_elem_of_cons. destruct (String.eqb_spec k0 k) as [->|Hne].
    + split; [done|]. by intros [? _].
    + rewrite IH. split; [by split|by intros [_ ?]].
Qed.

Lemma JsMap_elem_of_get k v m : NoDup m.*1 → (k, v) ∈ m ↔ JsMap.get k m = Some v.
Proof.
  unfold JsMap.get. induction m as [|[k0 v0] m IH]; cbn [List.find fst].
  - intros _. split; [by intros ?%elem_of_nil|done].
  - cbn [fmap list_fmap fst]. change (list_fmap _ _ fst ?l) with (l.*1).
    intros [Hk0 Hnd]%NoDup_cons. rewrite elem_of_cons.
    destruct (String.eqb_spec k0 k) as [->|Hne]; cbn [fmap option_fmap option_map snd].
    + split.
      * intros [[= ->]|Hin]; [done|]. destruct Hk0. apply list_elem_of_fmap.
        by exists (k, v).
      * intros [= ->]. by left.
    + rewrite <- (IH Hnd). split; [intros [[= ? ?]|?]; [congruence|done]|by right].
Qed.

Section Autocomplete.
Context (trim toLowerCase : string → string).
Context (homestaysStore : list Homestay.t).
Context (guidesStore : list Guide.t).
Context (productsStore : list Product.t).

Local Notation "'complete'" :=
  (autocomplete trim toLowerCase homestaysStore guidesStore productsStore).
Local Notation "'matches'" := (matchesQuery toLowerCase).
Local Notation "'districtOf' h" := (Homestay.district (Homestay.location h))
  (at level 10, h at level 9).
Local Notation "'countStep' query" :=
  (λ (locationCounts : JsMap.t) h,
     if matches (Some (districtOf h)) query then
       JsMap.set (districtOf h)
         (match JsMap.get (districtOf h) locationCounts with
          | Some n => if Js.truthy_num n then n else 0
          | None => 0
          end + 1)
         locationCounts
     else locationCounts) (at level 10, query at level 9).

Lemma countStep_get query (hs : list Homestay.t) (m0 : JsMap.t) (d : string) :
  JsMap.get d (foldl (countStep query) m0 hs)
  = let n := Z.of_nat (length (filter (λ h, districtOf h = d) hs)) in
    if matches (Some d) query && (0 <? n)
    then Some (default 0 (JsMap.get d m0) + n)
    else JsMap.get d m0.
Proof.
  revert m0. induction hs as [|h hs IH]; intros m0; cbn [foldl].
  - cbn. by rewrite andb_false_r.
  - rewrite IH. clear IH. cbv zeta. rewrite filter_cons.
    destruct (decide (districtOf h = d)) as [Hd|Hd]; cbn [length].
    + rewrite Hd. destruct (matches (Some d) query) eqn:Hm; cbn [andb]; [|done].
      rewrite JsMap_get_set, String.eqb_refl. cbn [default].
      assert (Hor : match JsMap.get d m0 with
                    | Some n => if Js.truthy_num n then n else 0
                    | None => 0
                    end = default 0 (JsMap.get d m0)).
      { destruct (JsMap.get d m0) as [n|]; [|done]. unfold Js.truthy_num. cbn.
        destruct (Z.eqb_spec n 0); cbn; congruence. }
      rewrite Hor. unfold id.
      destruct (Z.ltb_spec 0 (Z.of_nat (length (filter (λ h, districtOf h = d) hs))));
        destruct (Z.ltb_spec 0 (Z.of_nat (S (length (filter (λ h, districtOf h = d) hs)))));
        try lia; f_equal; lia.
    + destruct (matches (Some (districtOf h)) query); [|done].
      rewrite JsMap_get_set. by rewrite (proj2 (String.eqb_neq _ _)) by done.
Qed.

Lemma countStep_NoDup query (hs : list Homestay.t) (m0 : JsMap.t) :
  NoDup m0.*1 → NoDup (foldl (countStep query) m0 hs).*1.
Proof.
  revert m0. induction hs as [|h hs IH]; intros m0 Hnd; cbn [foldl]; [done|].
  apply IH. destruct (matches _ query); [|done].
  rewrite JsMap_keys_set.
  destruct (JsMap.get (districtOf h) m0) eqn:Hget; [done|].
  apply NoDup_app. split_and!; [done| |apply NoDup_singleton].
  intros k Hk ->%list_elem_of_singleton. by apply JsMap_get_None in Hget.
Qed.

Lemma locationCounts_elem_of query d n :
  (d, n) ∈ locationCounts toLowerCase homestaysStore query →
  matches (Some d) query = true
  ∧ n = Z.of_nat (length (filter (λ h, districtOf h = d) homestaysStore))
  ∧ 1 ≤ n.
Proof.
  unfold locationCounts. intros Hin.
  apply JsMap_elem_of_get in Hin; [|apply countStep_NoDup, NoDup_nil_2].
  rewrite countStep_get in Hin. cbv zeta in Hin.
  destruct (matches (Some d) query); cbn [andb] in Hin; [|done].
  destruct (Z.ltb_spec 0 (Z.of_nat (length (filter (λ h, districtOf h = d) homestaysStore))));
    [|done].
  injection Hin as <-. cbn [JsMap.get List.find fmap option_fmap option_map default].
  split_and!; [done|lia|lia].
Qed.

Local Notation "'locationPart' query" :=
  ((λ e : string * Z, Suggestion.mk (fst e) "location" None (Some (snd e)))
     <$> locationCounts toLowerCase homestaysStore query) (at level 10, query at level 9).
Local Notation "'homestayPart' query" :=
  ((λ h, Suggestion.mk (Homestay.title h) "homestay" (Some (Homestay._id h)) None)
     <$> JsArray.slice 0 3
           (List.filter (λ h, String.eqb (Homestay.status h) "active"
                              && matches (Some (Homestay.title h)) query)
              homestaysStore)) (at level 10, query at level 9).
Local Notation "'guidePart' query" :=
  ((λ g, Suggestion.mk (Guide.name g) "guide" (Some (Guide._id g)) None)
     <$> JsArray.slice 0 3
           (List.filter (λ g, matches (Some (Guide.name g)) query) guidesStore))
  (at level 10, query at level 9).
Local Notation "'productPart' query" :=
  ((λ p, Suggestion.mk (Product.title p) "product" (Some (Product._id p)) None)
     <$> JsArray.slice 0 3
           (List.filter (λ p, matches (Some (Product.title p)) query) productsStore))
  (at level 10, query at level 9).

Lemma autocomplete_success req d code msg :
  complete req = Reply.success d code msg →
  let query := searchText trim req in
  2 ≤ Z.of_nat (JsString.length query)
  ∧ Suggestions.suggestions d
    = take 10 (locationPart query ++ homestayPart query ++ guidePart query
               ++ productPart query).
Proof.
  unfold autocomplete, searchText.
  destruct (Z.ltb_spec (Z.of_nat (JsString.length (trim (JsString.or_else (SearchQuery.q req) "")))) 2);
    [intros [=]|].
  intros [= <- <- <-]. cbv zeta. split; [done|].
  cbn [Suggestions.suggestions]. rewrite slice_take by lia.
  by rewrite ?app_nil_l, <- !app_assoc.
Qed.

Lemma filter_take_length {A} (P : A → Prop) `{!∀ x, Decision (P x)} (n : nat) (l : list A) :
  (length (filter P (take n l)) ≤ length (filter P l))%nat.
Proof.
  rewrite <- (take_drop n l) at 2. rewrite filter_app, length_app. lia.
Qed.

Lemma typed_part_filter {A} (f : A → Suggestion.t) (type type' : string) (l : list A) :
  (∀ x, Suggestion.type (f x) = type') → type' ≠ type →
  filter (λ s, Suggestion.type s = type) (f <$> l) = [].
Proof.
  intros Hf Hne. induction l as [|x l IH]; [done|].
  cbn [fmap list_fmap]. rewrite filter_cons_False; [exact IH|]. rewrite Hf. done.
Qed.

(** X17.  [autocomplete] sends at most ten suggestions, of which at most
    three are homestays, at most three guides and at most three products. *)
Theorem autocomplete_bounds (req : SearchQuery.t) (d : Suggestions.t)
    (code : option Z) (msg : option string) :
  complete req = Reply.success d code msg →
  (length (Suggestions.suggestions d) ≤ 10)%nat
  ∧ (length (filter (λ s, Suggestion.type s = "homestay") (Suggestions.suggestions d)) ≤ 3)%nat
  ∧ (length (filter (λ s, Suggestion.type s = "guide") (Suggestions.suggestions d)) ≤ 3)%nat
  ∧ (length (filter (λ s, Suggestion.type s = "product") (Suggestions.suggestions d)) ≤ 3)%nat.
Proof.
  intros Hs. apply autocomplete_success in Hs as [_ ->].
  assert (Hpart : ∀ type,
    (length (filter (λ s, Suggestion.type s = type)
               (take 10 (locationPart (searchText trim req)
                         ++ homestayPart (searchText trim req)
                         ++ guidePart (searchText trim req)
                         ++ productPart (searchText trim req)))) ≤
     length (filter (λ s, Suggestion.type s = type)
               (locationPart (searchText trim req)
                ++ homestayPart (searchText trim req)
                ++ guidePart (searchText trim req)
                ++ productPart (searchText trim req))))%nat).
  { intros type. apply filter_take_length. }
  assert (Hthree : ∀ {A} (f : A → Suggestion.t) (l : list A) type,
    (length (filter (λ s, Suggestion.type s = type) (f <$> JsArray.slice 0 3 l)) ≤ 3)%nat).
  { intros A f l type. etrans; [apply sublist_length, sublist_filter|].
    rewrite length_fmap. apply (slice_length 0 3). lia. }
  pose proof (λ type, typed_part_filter
    (λ e : string * Z, Suggestion.mk (fst e) "location" None (Some (snd e)))
    type "location" (locationCounts toLowerCase homestaysStore (searchText trim req))
    (λ _, eq_refl)) as HL.
  pose proof (λ type l, typed_part_filter
    (λ h, Suggestion.mk (Homestay.title h) "homestay" (Some (Homestay._id h)) None)
    type "homestay" l (λ _, eq_refl)) as HH.
  pose proof (λ type l, typed_part_filter
    (λ g, Suggestion.mk (Guide.name g) "guide" (Some (Guide._id g)) None)
    type "guide" l (λ _, eq_refl)) as HG.
  pose proof (λ type l, typed_part_filter
    (λ p, Suggestion.mk (Product.title p) "product" (Some (Product._id p)) None)
    type "product" l (λ _, eq_refl)) as HP.
  split_and!.
  - rewrite length_take. lia.
  - etrans; [apply Hpart|]. rewrite !filter_app, HL, HG, HP by done.
    rewrite app_nil_l, !app_nil_r. apply Hthree.
  - etrans; [apply Hpart|]. rewrite !filter_app, HL, HH, HP by done.
    rewrite app_nil_l, !app_nil_r. apply Hthree.
  - etrans; [apply Hpart|]. rewrite !filter_app, HL, HH, HG by done.
    rewrite !app_nil_l. apply Hthree.
Qed.

Lemma autocomplete_elem_of req d code msg s :
  complete req = Reply.success d code msg →
  s ∈ Suggestions.suggestions d →
  let query := searchText trim req in
  (∃ k v, (k, v) ∈ locationCounts toLowerCase homestaysStore query
          ∧ s = Suggestion.mk k "location" None (Some v))
  ∨ (∃ h, h ∈ homestaysStore ∧ Homestay.status h = "active"
          ∧ matches (Some (Homestay.title h)) query = true
          ∧ s = Suggestion.mk (Homestay.title h) "homestay" (Some (Homestay._id h)) None)
  ∨ (∃ g, g ∈ guidesStore ∧ matches (Some (Guide.name g)) query = true
          ∧ s = Suggestion.mk (Guide.name g) "guide" (Some (Guide._id g)) None)
  ∨ (∃ p, p ∈ productsStore ∧ matches (Some (Product.title p)) query = true
          ∧ s = Suggestion.mk (Product.title p) "product" (Some (Product._id p)) None).
Proof.
  intros Hs Hin. apply autocomplete_success in Hs as [_ Hd]. rewrite Hd in Hin. clear Hd.
  pose proof (elem_of_sublist _ _ _ Hin (sublist_take _ _)) as Hin'. clear Hin.
  cbv zeta. rewrite !elem_of_app in Hin'.
  destruct Hin' as [Hin|[Hin|[Hin|Hin]]]; apply list_elem_of_fmap in Hin as (x & -> & Hx).
  - left. destruct x as [k v]. by exists k, v.
  - right; left. apply slice_elem_of, elem_of_filter_bool in Hx as [Hx Hp].
    apply andb_true_iff in Hp as [Hact%String.eqb_eq Hm]. by exists x.
  - right; right; left. apply slice_elem_of, elem_of_filter_bool in Hx as [Hx Hp].
    by exists x.
  - right; right; right. apply slice_elem_of, elem_of_filter_bool in Hx as [Hx Hp].
    by exists x.
Qed.

(** X18.  A location suggestion of [autocomplete] names a district that
    matches the query, and its count is the number of all stored homestays
    of that district, whatever their status.  No district is suggested
    twice. *)
Theorem autocomplete_location_counts (req : SearchQuery.t) (d : Suggestions.t)
    (code : option Z) (msg : option string) :
  complete req = Reply.success d code msg →
  (∀ s, s ∈ Suggestions.suggestions d → Suggestion.type s = "location" →
     matches (Some (Suggestion.text s)) (searchText trim req) = true
     ∧ Suggestion.count s
       = Some (Z.of_nat (length (filter (λ h, districtOf h = Suggestion.text s)
                                   homestaysStore)))
     ∧ Suggestion.id s = None)
  ∧ (∀ i j s s',
       Suggestions.suggestions d !! i = Some s →
       Suggestions.suggestions d !! j = Some s' →
       Suggestion.type s = "location" → Suggestion.type s' = "location" →
       Suggestion.text s = Suggestion.text s' → i = j).
Proof.
  intros Hs. split.
  - intros s Hin Htype.
    destruct (autocomplete_elem_of _ _ _ _ _ Hs Hin)
      as [(k & v & Hkv & ->)|[(h & _ & _ & _ & ->)|[(g & _ & _ & ->)|(p & _ & _ & ->)]]];
      try discriminate Htype.
    apply locationCounts_elem_of in Hkv as (Hm & -> & _). done.
  - apply autocomplete_success in Hs as [_ ->].
    set (rest := homestayPart (searchText trim req) ++ guidePart (searchText trim req)
                 ++ productPart (searchText trim req)).
    assert (Hrest : ∀ s, s ∈ rest → Suggestion.type s ≠ "location").
    { intros s. unfold rest. rewrite !elem_of_app.
      intros [Hin|[Hin|Hin]]; apply list_elem_of_fmap in Hin as (x & -> & _); done. }
    assert (Hloc : ∀ i s,
      take 10 (locationPart (searchText trim req) ++ rest) !! i = Some s →
      Suggestion.type s = "location" →
      (locationCounts toLowerCase homestaysStore (searchText trim req)).*1 !! i
      = Some (Suggestion.text s)).
    { intros i s [Hi _]%lookup_take_Some Htype.
      apply lookup_app_Some in Hi as [Hi|[_ Hi]].
      - apply list_lookup_fmap_Some in Hi as (e & -> & He).
        rewrite list_lookup_fmap, He. done.
      - destruct (Hrest s); [|done]. by eapply list_elem_of_lookup_2. }
    intros i j s s' Hi Hj Hts Hts' Htext.
    apply Hloc in Hi; [|done]. apply Hloc in Hj; [|done]. rewrite <- Htext in Hj.
    eapply NoDup_lookup; [|exact Hi|exact Hj].
    unfold locationCounts. apply countStep_NoDup, NoDup_nil_2.
Qed.

(** X19.  A homestay suggestion of [autocomplete] gives the title and the
    id of a stored homestay with status active whose title matches the
    query; a guide or product suggestion gives the name or title and the id
    of a stored guide or product whose name or title matches.  There are no
    suggestions of any other type than these and location. *)
Theorem autocomplete_entity_suggestions (req : SearchQuery.t) (d : Suggestions.t)
    (code : option Z) (msg : option string) (s : Suggestion.t) :
  complete req = Reply.success d code msg →
  s ∈ Suggestions.suggestions d →
  (Suggestion.type s = "homestay" →
     ∃ h, h ∈ homestaysStore ∧ Homestay.status h = "active"
          ∧ matches (Some (Homestay.title h)) (searchText trim req) = true
          ∧ s = Suggestion.mk (Homestay.title h) "homestay" (Some (Homestay._id h)) None)
  ∧ (Suggestion.type s = "guide" →
       ∃ g, g ∈ guidesStore
            ∧ matches (Some (Guide.name g)) (searchText trim req) = true
            ∧ s = Suggestion.mk (Guide.name g) "guide" (Some (Guide._id g)) None)
  ∧ (Suggestion.type s = "product" →
       ∃ p, p ∈ productsStore
            ∧ matches (Some (Product.title p)) (searchText trim req) = true
            ∧ s = Suggestion.mk (Product.title p) "product" (Some (Product._id p)) None)
  ∧ (Suggestion.type s = "location" ∨ Suggestion.type s = "homestay"
     ∨ Suggestion.type s = "guide" ∨ Suggestion.type s = "product").
Proof.
  intros Hs Hin.
  destruct (autocomplete_elem_of _ _ _ _ _ Hs Hin)
    as [(k & v & Hkv & ->)|[(h & ? & ? & ? & ->)|[(g & ? & ? & ->)|(p & ? & ? & ->)]]];
    cbn [Suggestion.type]; split_and!; try (intros [=]); eauto 10.
Qed.

End Autocomplete.

(** ** The further properties at concrete inputs *)

Lemma created_booking_can_be_read_witness :
  ∃ b w',
    run (createBooking sampleEnv now2030 "id2" stayB) bookedWorld
    = (Return (sendSuccess (BookingData b) 201 "Booking created successfully"), w')
    ∧ run (getBookingById "id2") w' = (Return (Reply.success b None None), w').
Proof.
  eexists _, _. split; [vm_compute; reflexivity|].
  apply (created_booking_can_be_read sampleEnv now2030 "id2" stayB bookedWorld _ _ 201
           "Booking created successfully").
  - vm_compute; reflexivity.
  - rewrite bookedWorld_eq. intros x Hx. apply list_elem_of_singleton in Hx as ->.
    discriminate.
Defined.

Lemma cancelled_booking_stays_cancelled_witness :
  (∃ b, run (getBookingById "id1") cancelledWorld
        = (Return (Reply.success b None None), cancelledWorld)
        ∧ status b = Cancelled
        ∧ cancellationReason b = Some "change of plans"
        ∧ cancelledAt b = Some now2030)
  ∧ run (cancelBooking sampleEnv (now2030 + 1) "id1" (mkCancelBookingInput None))
        cancelledWorld
    = (Return (sendError "This booking is already cancelled" 400 None), cancelledWorld).
Proof.
  eapply (cancelled_booking_stays_cancelled sampleEnv now2030 (now2030 + 1) "id1"
            changeOfPlans (mkCancelBookingInput None) bookedWorld cancelledWorld).
  vm_compute; reflexivity.
Defined.

Lemma bookings_are_never_deleted_witness :
  bookings bookedWorld !! 0%nat = Some bookingA
  ∧ ∃ b', bookings (serve sampleEnv sampleOps bookedWorld) !! 0%nat = Some b'
          ∧ sameIdentity b' bookingA
          ∧ statusStep (status bookingA) (status b')
          ∧ (status bookingA = Cancelled → status b' = Cancelled)
          ∧ (status bookingA = Completed → status b' = Completed).
Proof.
  split; [reflexivity|].
  apply (bookings_are_never_deleted sampleEnv sampleOps bookedWorld 0 bookingA).
  reflexivity.
Defined.

Lemma stored_stays_are_never_empty_witness :
  Forall (λ b, checkIn b < checkOut b) (bookings bookedWorld)
  ∧ Forall (λ b, checkIn b < checkOut b) (bookings (serve sampleEnv sampleOps bookedWorld)).
Proof.
  assert (H : Forall (λ b, checkIn b < checkOut b) (bookings bookedWorld)).
  { rewrite bookedWorld_eq. repeat constructor. }
  split; [exact H|].
  apply (stored_stays_are_never_empty sampleEnv sampleOps bookedWorld H).
Defined.

Lemma cancellation_frees_the_stay_witness :
  hasDateConflict "h1" 1907280000000 1907712000000 None cancelledWorld
  = (Return None, cancelledWorld)
  ∧ ∃ b w'', run (createBooking sampleEnv now2030 "id4" stayA) cancelledWorld
             = (Return (sendSuccess (BookingData b) 201 "Booking created successfully"), w'')
             ∧ bookings w'' = bookings cancelledWorld ++ [b].
Proof.
  eapply (cancellation_frees_the_stay sampleEnv now2030 now2030 "id1" "id4" changeOfPlans
            stayA bookedWorld cancelledWorld _ 200 "Booking cancelled successfully"
            1907280000000 1907712000000).
  - rewrite bookedWorld_eq. repeat constructor. intros H. by apply elem_of_nil in H.
  - vm_compute; reflexivity.
  - rewrite bookedWorld_eq. intros x Hx _. apply list_elem_of_singleton in Hx as ->.
    reflexivity.
  - apply satisfies_sampleInput; discriminate.
  - vm_compute; reflexivity.
  - vm_compute; reflexivity.
  - unfold now2030; lia.
  - lia.
  - vm_compute; reflexivity.
Defined.

Lemma concurrent_cancellations_both_succeed_witness :
  ∃ d1 d2 w' stored,
    interleave [First; Second; First; Second]
      (cancelBooking sampleEnv now2030 "id1" changeOfPlans)
      (cancelBooking sampleEnv (now2030 + 1) "id1" (mkCancelBookingInput None)) bookedWorld
    = (Finish (sendSuccess (CancellationData d1) 200 "Booking cancelled successfully"),
       Finish (sendSuccess (CancellationData d2) 200 "Booking cancelled successfully"), w')
    ∧ Cancellation.refundAmount d1 = total (pricing bookingA)
    ∧ Cancellation.refundAmount d2 = total (pricing bookingA)
    ∧ Cancellation.cancellationReason d1 = Some "change of plans"
    ∧ Cancellation.cancellationReason d2 = None
    ∧ findById "id1" w' = (Return (Some stored), w')
    ∧ sameIdentity stored bookingA
    ∧ status stored = Cancelled
    ∧ cancelledAt stored = Some (now2030 + 1)
    ∧ cancellationReason stored = Some "change of plans".
Proof.
  apply (concurrent_cancellations_both_succeed sampleEnv now2030 (now2030 + 1) "id1"
           changeOfPlans (mkCancelBookingInput None) bookedWorld bookingA).
  - vm_compute; reflexivity.
  - left; reflexivity.
  - reflexivity.
  - reflexivity.
  - reflexivity.
  - reflexivity.
Defined.

Lemma unifiedSearch_page_size_witness :
  ∃ d, SampleSearch.unifiedSearch SampleSearch.forest = Reply.success d None None
    ∧ (length (SearchResults.homestays (SearchData.results d)) ≤ 2)%nat
    ∧ (length (SearchResults.guides (SearchData.results d)) ≤ 2)%nat
    ∧ (length (SearchResults.products (SearchData.results d)) ≤ 2)%nat
    ∧ SearchResults.homestays (SearchData.results d)
        `sublist_of` matchedHomestays SampleSearch.toLowerCase SampleSearch.homestaysStore
                       "all" "Forest"
    ∧ SearchResults.guides (SearchData.results d)
        `sublist_of` matchedGuides SampleSearch.toLowerCase SampleSearch.guidesStore
                       "all" "Forest"
    ∧ SearchResults.products (SearchData.results d)
        `sublist_of` matchedProducts SampleSearch.toLowerCase SampleSearch.productsStore
                       "all" "Forest".
Proof.
  eexists. split; [vm_compute; reflexivity|].
  apply (unifiedSearch_page_size SampleSearch.trim SampleSearch.toLowerCase
           SampleSearch.parsePaginationParams SampleSearch.getPaginationMeta
           SampleSearch.homestaysStore SampleSearch.guidesStore SampleSearch.productsStore
           SampleSearch.forest _ None None).
  - vm_compute; reflexivity.
  - vm_compute; discriminate.
Defined.

Lemma unifiedSearch_page_contents_witness :
  ∃ d, SampleSearch.unifiedSearch
         (SearchQuery.mk (Some "forest") (Some "homestays") (Some "2") (Some "1"))
       = Reply.success d None None
    ∧ SearchResults.homestays (SearchData.results d) !! 0%nat
      = matchedHomestays SampleSearch.toLowerCase SampleSearch.homestaysStore
          "homestays" "forest" !! 1%nat
    ∧ SearchResults.guides (SearchData.results d) !! 0%nat
      = matchedGuides SampleSearch.toLowerCase SampleSearch.guidesStore
          "homestays" "forest" !! 1%nat
    ∧ SearchResults.products (SearchData.results d) !! 0%nat
      = matchedProducts SampleSearch.toLowerCase SampleSearch.productsStore
          "homestays" "forest" !! 1%nat.
Proof.
  eexists. split; [vm_compute; reflexivity|].
  apply (unifiedSearch_page_contents SampleSearch.trim SampleSearch.toLowerCase
           SampleSearch.parsePaginationParams SampleSearch.getPaginationMeta
           SampleSearch.homestaysStore SampleSearch.guidesStore SampleSearch.productsStore
           (SearchQuery.mk (Some "forest") (Some "homestays") (Some "2") (Some "1"))
           _ None None 0).
  - vm_compute; reflexivity.
  - vm_compute; discriminate.
  - vm_compute; discriminate.
  - vm_compute; lia.
Defined.

Lemma unifiedSearch_hits_come_from_the_stores_witness :
  ∃ d, SampleSearch.unifiedSearch SampleSearch.forest = Reply.success d None None
    ∧ length (SearchResults.homestays (SearchData.results d)) = 2%nat
    ∧ (∀ hit, hit ∈ SearchResults.homestays (SearchData.results d) →
         (searchType SampleSearch.forest = "all"
          ∨ searchType SampleSearch.forest = "homestays")
         ∧ ∃ h, h ∈ SampleSearch.homestaysStore
              ∧ Homestay.status h = "active"
              ∧ homestayMatches SampleSearch.toLowerCase
                  (searchText SampleSearch.trim SampleSearch.forest) h = true
              ∧ hit = homestayHit h
              ∧ HomestayHit.images hit = take 1 (Homestay.images h)).
Proof.
  eexists. split; [vm_compute; reflexivity|]. split; [reflexivity|].
  apply (unifiedSearch_hits_come_from_the_stores SampleSearch.trim SampleSearch.toLowerCase
           SampleSearch.parsePaginationParams SampleSearch.getPaginationMeta
           SampleSearch.homestaysStore SampleSearch.guidesStore SampleSearch.productsStore
           SampleSearch.forest _ None None).
  vm_compute; reflexivity.
Defined.

(** The query is one CJK character, three bytes in UTF-8 and one UTF-16 code
    unit: both routes reject it. *)
Example one_character_query_is_too_short :
  let q := String "228" (String "184" (String "173" EmptyString)) in
  JsString.length q = 1%nat
  ∧ SampleSearch.unifiedSearch (SearchQuery.mk (Some q) (Some "events") None None)
    = queryTooShort
  ∧ SampleSearch.autocomplete (SearchQuery.mk (Some q) None None None) = queryTooShort.
Proof. vm_compute. by split_and!. Qed.

Lemma unifiedSearch_other_type_witness :
  SampleSearch.unifiedSearch SampleSearch.forestEvents
  = Reply.success
      {| SearchData.results :=
           {| SearchResults.homestays := [];
              SearchResults.guides := [];
              SearchResults.products := [];
              SearchResults.total := SearchTotal.mk 0 0 0 0 |};
         SearchData.query := "forest";
         SearchData.pagination := (1, 10, 0) |}
      None None.
Proof.
  apply (unifiedSearch_other_type SampleSearch.trim SampleSearch.toLowerCase
           SampleSearch.parsePaginationParams SampleSearch.getPaginationMeta
           SampleSearch.homestaysStore SampleSearch.guidesStore SampleSearch.productsStore
           SampleSearch.forestEvents).
  - vm_compute; discriminate.
  - vm_compute; discriminate.
  - vm_compute; discriminate.
  - vm_compute; discriminate.
  - vm_compute; discriminate.
Defined.

Lemma unifiedSearch_page_past_every_category_witness :
  ∃ d, SampleSearch.unifiedSearch SampleSearch.forestPage2 = Reply.success d None None
    ∧ SearchData.pagination d = (2, 2, 4)
    ∧ SearchResults.homestays (SearchData.results d) = []
    ∧ SearchResults.guides (SearchData.results d) = []
    ∧ SearchResults.products (SearchData.results d) = []
    ∧ SearchTotal.overall (SearchResults.total (SearchData.results d))
      = SearchTotal.homestays (SearchResults.total (SearchData.results d))
        + SearchTotal.guides (SearchResults.total (SearchData.results d))
        + SearchTotal.products (SearchResults.total (SearchData.results d)).
Proof.
  eexists. split; [vm_compute; reflexivity|]. split; [reflexivity|].
  apply (unifiedSearch_page_past_every_category SampleSearch.trim SampleSearch.toLowerCase
           SampleSearch.parsePaginationParams SampleSearch.getPaginationMeta
           SampleSearch.homestaysStore SampleSearch.guidesStore SampleSearch.productsStore
           SampleSearch.forestPage2 _ None None).
  - vm_compute; reflexivity.
  - vm_compute; discriminate.
  - vm_compute; discriminate.
  - vm_compute; discriminate.
  - vm_compute; discriminate.
  - vm_compute; discriminate.
Defined.

Lemma autocomplete_bounds_witness :
  ∃ d, SampleSearch.autocomplete SampleSearch.ran = Reply.success d None None
    ∧ (length (Suggestions.suggestions d) ≤ 10)%nat
    ∧ (length (filter (λ s, Suggestion.type s = "homestay") (Suggestions.suggestions d))
       ≤ 3)%nat
    ∧ (length (filter (λ s, Suggestion.type s = "guide") (Suggestions.suggestions d))
       ≤ 3)%nat
    ∧ (length (filter (λ s, Suggestion.type s = "product") (Suggestions.suggestions d))
       ≤ 3)%nat.
Proof.
  eexists. split; [vm_compute; reflexivity|].
  apply (autocomplete_bounds SampleSearch.trim SampleSearch.toLowerCase
           SampleSearch.homestaysStore SampleSearch.guidesStore SampleSearch.productsStore
           SampleSearch.ran _ None None).
  vm_compute; reflexivity.
Defined.

Lemma autocomplete_location_counts_witness :
  ∃ d, SampleSearch.autocomplete SampleSearch.ran = Reply.success d None None
    ∧ Suggestions.suggestions d !! 0%nat = Some (Suggestion.mk "Ranchi" "location" None (Some 2))
    ∧ (∀ s, s ∈ Suggestions.suggestions d → Suggestion.type s = "location" →
         matchesQuery SampleSearch.toLowerCase (Some (Suggestion.text s))
           (searchText SampleSearch.trim SampleSearch.ran) = true
         ∧ Suggestion.count s
           = Some (Z.of_nat (length (filter
                     (λ h, Homestay.district (Homestay.location h) = Suggestion.text s)
                     SampleSearch.homestaysStore)))
         ∧ Suggestion.id s = None).
Proof.
  eexists. split; [vm_compute; reflexivity|]. split; [reflexivity|].
  apply (autocomplete_location_counts SampleSearch.trim SampleSearch.toLowerCase
           SampleSearch.homestaysStore SampleSearch.guidesStore SampleSearch.productsStore
           SampleSearch.ran _ None None).
  vm_compute; reflexivity.
Defined.

Lemma autocomplete_entity_suggestions_witness :
  ∃ d s, SampleSearch.autocomplete SampleSearch.ran = Reply.success d None None
    ∧ Suggestions.suggestions d !! 1%nat = Some s
    ∧ Suggestion.type s = "guide"
    ∧ ∃ g, g ∈ SampleSearch.guidesStore
         ∧ matchesQuery SampleSearch.toLowerCase (Some (Guide.name g))
             (searchText SampleSearch.trim SampleSearch.ran) = true
         ∧ s = Suggestion.mk (Guide.name g) "guide" (Some (Guide._id g)) None.
Proof.
  exists (Suggestions.mk [Suggestion.mk "Ranchi" "location" None (Some 2);
                          Suggestion.mk "Ranjit" "guide" (Some "g2") None]).
  exists (Suggestion.mk "Ranjit" "guide" (Some "g2") None).
  split; [vm_compute; reflexivity|]. split; [reflexivity|]. split; [reflexivity|].
  apply (autocomplete_entity_suggestions SampleSearch.trim SampleSearch.toLowerCase
           SampleSearch.homestaysStore SampleSearch.guidesStore SampleSearch.productsStore
           SampleSearch.ran
           (Suggestions.mk [Suggestion.mk "Ranchi" "location" None (Some 2);
                            Suggestion.mk "Ranjit" "guide" (Some "g2") None])
           None None (Suggestion.mk "Ranjit" "guide" (Some "g2") None)).
  - vm_compute; reflexivity.
  - apply list_elem_of_lookup. by exists 1%nat.
  - reflexivity.
Defined.

Lemma booking_numbers_stay_unique_witness :
  numbered bookedWorld
  ∧ numbered (serve sampleEnv sampleOps bookedWorld)
  ∧ counter bookedWorld ≤ counter (serve sampleEnv sampleOps bookedWorld).
Proof.
  assert (H : numbered bookedWorld).
  { rewrite bookedWorld_eq. split; cbn [bookings counter].
    - apply NoDup_singleton.
    - apply Forall_singleton. vm_compute. discriminate. }
  split; [exact H|].
  apply (booking_numbers_stay_unique sampleEnv sampleOps bookedWorld H).
Defined.
